(** * The Infiniband core of gPXE (src/net/infiniband.c)

    A shallow embedding of the queue-pair, work-queue, port and multicast
    code of [infiniband.c], with the properties its specification states.

    The C functions work on objects reached through pointers and call
    into code that lives elsewhere: the device driver ([ibdev->op->...]),
    the completion handlers of a completion queue ([cq->op->...]), the
    allocator, and the management-interface code.  The embedding keeps
    both: objects live in stores indexed by address, and every call that
    leaves the file is appended to a trace and answered by an arbitrary
    environment. *)

From stdpp Require Import gmap list.
From Stdlib Require Import ZArith Lia.

#[local] Open Scope Z_scope.

(** ** Machine integers and pointers *)

(** [unsigned int] is 32 bits wide; arithmetic on it wraps. *)
Definition UINT_MODULUS : Z := 2 ^ 32.

Definition uint (z : Z) : Z := z mod UINT_MODULUS.

(** [size_t] and [unsigned long] have the width of a pointer on the
    32-bit target. *)
Definition size_t (z : Z) : Z := z mod 2 ^ 32.

(** Addresses are numbers; the null pointer is address zero. *)
Definition NULL : Z := 0.

(** ** Data model *)

(** [struct ib_gid]: sixteen raw bytes, read here as one big-endian
    number, so that [memcmp] on two of them is the comparison of the
    numbers. *)
Abbreviation ib_gid := Z (only parsing).

Definition memcmp (a b : ib_gid) : Z :=
  match a ?= b with
  | Lt => -1
  | Eq => 0
  | Gt => 1
  end.

(** Modelled from the spec: [enum ib_queue_pair_type] is declared in a
    header that is not part of the sources.  The code names the two
    privileged types; the spec's third, generic, type stands for every
    other enumerator. *)
Inductive ib_queue_pair_type : Type :=
  | IB_QPT_SMI
  | IB_QPT_GSI
  | IB_QPT_GENERIC.

(** Modelled from the spec: [struct ib_address_vector] is declared in a
    header that is not part of the sources.  The code reads and writes
    [qkey] and [rate]; destination and service level are the other
    routing parameters the spec lists. *)
Record ib_address_vector : Type := Build_av {
  av_dest : Z;
  av_sl : Z;
  rate : Z;
  av_qkey : Z
}.

(** Modelled from the spec: [struct io_buffer] and [iob_tailroom] are
    declared in a header that is not part of the sources.  A buffer has a
    reserved tail capacity, the room between its [tail] and its [end]. *)
Record io_buffer : Type := Build_iob {
  iob_tail : Z;
  iob_end : Z
}.

Definition iob_tailroom (b : io_buffer) : Z := size_t (iob_end b - iob_tail b).

(** [struct ib_work_queue].  [iobufs] is the slot array: one pointer per
    work queue entry, null when the slot is empty.  The driver fills and
    clears the slots; this file only reads them. *)
Record ib_work_queue : Type := Build_wq {
  wq_qp : Z;
  is_send : Z;
  wq_cq : Z;
  psn : Z;
  num_wqes : Z;
  fill : Z;
  iobufs : list Z
}.

(** [struct ib_multicast_gid]: a list node allocated by [ib_mcast_attach];
    [mgid_at] is the address of the node. *)
Record ib_multicast_gid : Type := Build_mgid {
  mgid_at : Z;
  gid : ib_gid
}.

(** [struct ib_queue_pair]. *)
Record ib_queue_pair : Type := Build_qp {
  type : ib_queue_pair_type;
  qpn : Z;
  ext_qpn : Z;
  qkey : Z;
  send : ib_work_queue;
  recv : ib_work_queue;
  av : ib_address_vector;
  mgids : list ib_multicast_gid
}.

(** A member of a completion queue's [work_queues] list is the send or
    the receive work queue embedded in a queue pair. *)
Inductive wq_ref : Type :=
  | SendOf (qp : Z)
  | RecvOf (qp : Z).

#[global] Instance wq_ref_eq_dec : EqDecision wq_ref.
Proof. solve_decision. Defined.

(** [struct ib_completion_queue_operations]: two function pointers, null
    when the owner of the completion queue gives no handler. *)
Record ib_completion_queue_operations : Type := Build_cq_op {
  complete_send : Z;
  complete_recv : Z
}.

(** [struct ib_completion_queue]. *)
Record ib_completion_queue : Type := Build_cq {
  cqn : Z;
  num_cqes : Z;
  work_queues : list wq_ref;
  op : ib_completion_queue_operations
}.

(** [struct ib_device], the fields this file uses.  [qps] and [cqs] are
    the intrusive lists, head first, as lists of object addresses. *)
Record ib_device : Type := Build_ibdev {
  open_count : Z;
  smi : Z;
  gsi : Z;
  cqs : list Z;
  qps : list Z
}.

(** A pointer to an address vector, as a caller of [ib_post_send] can
    hold one: null, the address of a vector of its own, or the address of
    the default vector inside a queue pair. *)
Inductive av_ptr : Type :=
  | AvNull
  | AvAt (a : Z)
  | AvOfQp (qp : Z).

(** Inside [ib_post_send] the pointer can also designate the local
    variable [av_copy]. *)
Inductive av_place : Type :=
  | Outside (p : av_ptr)
  | AvCopy.

(** ** Calls that leave the file *)

Inductive call : Type :=
  | Zalloc (size : Z)
  | Free (p : Z)
  | Random
  | FreeIob (iobuf : Z)
  | OpCreateQp (qp : Z)
  | OpDestroyQp (qp : Z)
  | OpPostSend (qp : Z) (v : ib_address_vector) (iobuf : Z)
  | OpPostRecv (qp : Z) (iobuf : Z)
  | OpMcastAttach (qp : Z) (g : ib_gid)
  | OpMcastDetach (qp : Z) (g : ib_gid)
  | OpOpen
  | OpClose
  | CqCompleteSend (handler : Z) (qp : Z) (iobuf : Z) (rc : Z)
  | CqCompleteRecv (handler : Z) (qp : Z) (v : av_ptr) (iobuf : Z) (rc : Z)
  | CreateMi (t : ib_queue_pair_type)
  | CreateSma (mi : Z)
  | DestroyMi (mi : Z)
  | DestroySma (mi : Z).

#[global] Instance ib_queue_pair_type_eq_dec : EqDecision ib_queue_pair_type.
Proof. solve_decision. Defined.

#[global] Instance ib_address_vector_eq_dec : EqDecision ib_address_vector.
Proof. solve_decision. Defined.

#[global] Instance av_ptr_eq_dec : EqDecision av_ptr.
Proof. solve_decision. Defined.

#[global] Instance call_eq_dec : EqDecision call.
Proof. solve_decision. Defined.

(** ** Program state *)

(** One device, the objects reachable from it, the address vectors and
    I/O buffers its callers own, and the trace of outside calls made so
    far (oldest first). *)
Record state : Type := Build_state {
  ibdev : ib_device;
  qp_at : gmap Z ib_queue_pair;
  cq_at : gmap Z ib_completion_queue;
  av_at : gmap Z ib_address_vector;
  iob_at : gmap Z io_buffer;
  trace : list call
}.

(** Running a function either finishes with a value and a state, or
    faults: a dereference of a pointer to no object, an index outside a
    slot array, or a failed [assert]. *)
Inductive outcome (A : Type) : Type :=
  | Done (a : A) (s : state)
  | Fault.

Arguments Done {A} a s.
Arguments Fault {A}.

Definition M (A : Type) : Type := state -> outcome A.

Definition ret {A : Type} (a : A) : M A := fun s => Done a s.

Definition bind {A B : Type} (m : M A) (k : A -> M B) : M B :=
  fun s =>
    match m s with
    | Done a s' => k a s'
    | Fault => Fault
    end.

Definition fault {A : Type} : M A := fun _ => Fault.

Declare Scope ib_scope.
Delimit Scope ib_scope with ib.

Notation "x <- m ;; k" := (bind m (fun x => k))
  (at level 100, m at next level, right associativity) : ib_scope.
Notation "m ;; k" := (bind m (fun _ => k))
  (at level 100, right associativity) : ib_scope.

#[local] Open Scope ib_scope.

(** *** Field updates *)

Definition set_fill (n : Z) (wq : ib_work_queue) : ib_work_queue :=
  Build_wq (wq_qp wq) (is_send wq) (wq_cq wq) (psn wq) (num_wqes wq) n
    (iobufs wq).

Definition set_send (wq : ib_work_queue) (q : ib_queue_pair) : ib_queue_pair :=
  Build_qp (type q) (qpn q) (ext_qpn q) (qkey q) wq (recv q) (av q) (mgids q).

Definition set_recv (wq : ib_work_queue) (q : ib_queue_pair) : ib_queue_pair :=
  Build_qp (type q) (qpn q) (ext_qpn q) (qkey q) (send q) wq (av q) (mgids q).

Definition set_qpn (n : Z) (q : ib_queue_pair) : ib_queue_pair :=
  Build_qp (type q) n (ext_qpn q) (qkey q) (send q) (recv q) (av q) (mgids q).

Definition set_ext_qpn (n : Z) (q : ib_queue_pair) : ib_queue_pair :=
  Build_qp (type q) (qpn q) n (qkey q) (send q) (recv q) (av q) (mgids q).

Definition set_av (v : ib_address_vector) (q : ib_queue_pair) : ib_queue_pair :=
  Build_qp (type q) (qpn q) (ext_qpn q) (qkey q) (send q) (recv q) v (mgids q).

Definition set_mgids (l : list ib_multicast_gid) (q : ib_queue_pair)
  : ib_queue_pair :=
  Build_qp (type q) (qpn q) (ext_qpn q) (qkey q) (send q) (recv q) (av q) l.

Definition set_av_qkey (k : Z) (v : ib_address_vector) : ib_address_vector :=
  Build_av (av_dest v) (av_sl v) (rate v) k.

Definition set_rate (r : Z) (v : ib_address_vector) : ib_address_vector :=
  Build_av (av_dest v) (av_sl v) r (av_qkey v).

Definition set_work_queues (l : list wq_ref) (c : ib_completion_queue)
  : ib_completion_queue :=
  Build_cq (cqn c) (num_cqes c) l (op c).

Definition set_open_count (n : Z) (d : ib_device) : ib_device :=
  Build_ibdev n (smi d) (gsi d) (cqs d) (qps d).

Definition set_smi (p : Z) (d : ib_device) : ib_device :=
  Build_ibdev (open_count d) p (gsi d) (cqs d) (qps d).

Definition set_gsi (p : Z) (d : ib_device) : ib_device :=
  Build_ibdev (open_count d) (smi d) p (cqs d) (qps d).

Definition set_qps (l : list Z) (d : ib_device) : ib_device :=
  Build_ibdev (open_count d) (smi d) (gsi d) (cqs d) l.

Definition set_ibdev (d : ib_device) (s : state) : state :=
  Build_state d (qp_at s) (cq_at s) (av_at s) (iob_at s) (trace s).

Definition set_qp_at (m : gmap Z ib_queue_pair) (s : state) : state :=
  Build_state (ibdev s) m (cq_at s) (av_at s) (iob_at s) (trace s).

Definition set_cq_at (m : gmap Z ib_completion_queue) (s : state) : state :=
  Build_state (ibdev s) (qp_at s) m (av_at s) (iob_at s) (trace s).

Definition set_av_at (m : gmap Z ib_address_vector) (s : state) : state :=
  Build_state (ibdev s) (qp_at s) (cq_at s) m (iob_at s) (trace s).

Definition set_trace (t : list call) (s : state) : state :=
  Build_state (ibdev s) (qp_at s) (cq_at s) (av_at s) (iob_at s) t.

(** *** Memory accesses *)

Definition load_dev : M ib_device := fun s => Done (ibdev s) s.

Definition store_dev (d : ib_device) : M unit :=
  fun s => Done tt (set_ibdev d s).

Definition load_qp (p : Z) : M ib_queue_pair :=
  fun s =>
    match qp_at s !! p with
    | Some q => Done q s
    | None => Fault
    end.

Definition store_qp (p : Z) (q : ib_queue_pair) : M unit :=
  fun s =>
    match qp_at s !! p with
    | Some _ => Done tt (set_qp_at (<[p := q]> (qp_at s)) s)
    | None => Fault
    end.

Definition load_cq (p : Z) : M ib_completion_queue :=
  fun s =>
    match cq_at s !! p with
    | Some c => Done c s
    | None => Fault
    end.

Definition store_cq (p : Z) (c : ib_completion_queue) : M unit :=
  fun s =>
    match cq_at s !! p with
    | Some _ => Done tt (set_cq_at (<[p := c]> (cq_at s)) s)
    | None => Fault
    end.

Definition load_iob (p : Z) : M io_buffer :=
  fun s =>
    match iob_at s !! p with
    | Some b => Done b s
    | None => Fault
    end.

(** Reading an address vector through a caller's pointer. *)
Definition load_av_ptr (p : av_ptr) : M ib_address_vector :=
  match p with
  | AvNull => fault
  | AvAt a =>
      fun s =>
        match av_at s !! a with
        | Some v => Done v s
        | None => Fault
        end
  | AvOfQp qp => q <- load_qp qp ;; ret (av q)
  end.

(** Writing one through a caller's pointer. *)
Definition store_av_ptr (p : av_ptr) (v : ib_address_vector) : M unit :=
  match p with
  | AvNull => fault
  | AvAt a =>
      fun s =>
        match av_at s !! a with
        | Some _ => Done tt (set_av_at (<[a := v]> (av_at s)) s)
        | None => Fault
        end
  | AvOfQp qp => q <- load_qp qp ;; store_qp qp (set_av v q)
  end.

(** Inside [ib_post_send] the local [av_copy] is passed along
    explicitly: a load through a place reads it, and a store through a
    place returns its new content. *)
Definition load_av (p : av_place) (av_copy : ib_address_vector)
  : M ib_address_vector :=
  match p with
  | Outside p' => load_av_ptr p'
  | AvCopy => ret av_copy
  end.

Definition store_av (p : av_place) (v av_copy : ib_address_vector)
  : M ib_address_vector :=
  match p with
  | Outside p' => store_av_ptr p' v ;; ret av_copy
  | AvCopy => ret v
  end.

(** [assert ( c )]: the condition is a precondition of what follows; a
    run in which it does not hold is not described further. *)
Definition assert (c : bool) : M unit := if c then ret tt else fault.

(** [list_del] of a node of an intrusive list: the node leaves the list
    it is on. *)
Fixpoint list_del {A : Type} `{EqDecision A} (x : A) (l : list A) : list A :=
  match l with
  | [] => []
  | y :: l' => if decide (x = y) then l' else y :: list_del x l'
  end.

(** ** Sequences of calls *)

(** A call on the work queues of one queue pair. *)
Inductive wq_call : Type :=
  | PostSend (v : av_ptr) (iobuf : Z)
  | PostRecv (iobuf : Z)
  | CompleteSend (iobuf : Z) (rc : Z)
  | CompleteRecv (v : av_ptr) (iobuf : Z) (rc : Z).

(** What the caller sees of it: the direction ([true] for send) and,
    for a post, the status returned. *)
Inductive wq_event : Type :=
  | Posted (snd : bool) (rc : Z)
  | Completed (snd : bool).

Fixpoint posts_succeeded (snd : bool) (es : list wq_event) : Z :=
  match es with
  | [] => 0
  | Posted d rc :: es' =>
      (if bool_decide (d = snd) && (rc =? 0) then 1 else 0)
      + posts_succeeded snd es'
  | Completed _ :: es' => posts_succeeded snd es'
  end.

Fixpoint completions_delivered (snd : bool) (es : list wq_event) : Z :=
  match es with
  | [] => 0
  | Posted _ _ :: es' => completions_delivered snd es'
  | Completed d :: es' =>
      (if bool_decide (d = snd) then 1 else 0) + completions_delivered snd es'
  end.

(** Every completion matches a prior successful post: at no point of
    the sequence have more completions been delivered than posts have
    succeeded. *)
Definition completions_matched (snd : bool) (es : list wq_event) : Prop :=
  forall k : nat,
    completions_delivered snd (take k es) <= posts_succeeded snd (take k es).

Definition wq_of (snd : bool) (q : ib_queue_pair) : ib_work_queue :=
  if snd then send q else recv q.

(** A call on the multicast memberships of one queue pair. *)
Inductive mcast_call : Type :=
  | Attach (g : ib_gid)
  | Detach (g : ib_gid).

(** The memberships of group [g] that a sequence of calls, each with the
    status it returned, leaves behind when it starts from [n] of them:
    a successful attach adds one, a detach takes one away if there is
    one. *)
Fixpoint memberships_due (g : ib_gid) (n : nat) (log : list (mcast_call * Z))
  : nat :=
  match log with
  | [] => n
  | (Attach g', rc) :: log' =>
      memberships_due g (if (g' =? g) && (rc =? 0) then S n else n) log'
  | (Detach g', _) :: log' =>
      memberships_due g (if g' =? g then Nat.pred n else n) log'
  end.

Definition entries_for (g : ib_gid) (l : list ib_multicast_gid) : nat :=
  length (filter (fun m => gid m = g) l).

Definition hw_opens (t : list call) : nat :=
  length (filter (fun c => c = OpOpen) t).

Definition hw_closes (t : list call) : nat :=
  length (filter (fun c => c = OpClose) t).

(** The steps of a first [ib_open], in the order the code takes them. *)
Inductive open_step : Type :=
  | StepSmi
  | StepSma
  | StepGsi
  | StepHw.

(** ** Notions the statements use *)

(** The address vector a caller's pointer designates, if any. *)
Definition av_target (s : state) (p : av_ptr) : option ib_address_vector :=
  match p with
  | AvNull => None
  | AvAt a => av_at s !! a
  | AvOfQp qp => av <$> (qp_at s !! qp)
  end.

(** The non-empty slots of a slot array, in slot order. *)
Definition occupied (slots : list Z) : list Z :=
  filter (fun p => p <> NULL) slots.

(** How a work queue entry is completed: through the handler of the
    completion queue [c] when it has one, else by freeing the buffer. *)
Definition send_completion (c : ib_completion_queue) (qp iobuf rc : Z)
  : call :=
  if complete_send (op c) =? NULL then FreeIob iobuf
  else CqCompleteSend (complete_send (op c)) qp iobuf rc.

Definition recv_completion (c : ib_completion_queue) (qp : Z) (v : av_ptr)
    (iobuf rc : Z) : call :=
  if complete_recv (op c) =? NULL then FreeIob iobuf
  else CqCompleteRecv (complete_recv (op c)) qp v iobuf rc.

(** A queue pair that differs from [q] in its two fill counts only. *)
Definition refilled (f g : Z) (q : ib_queue_pair) : ib_queue_pair :=
  set_recv (set_fill g (recv q)) (set_send (set_fill f (send q)) q).

Definition with_open_count (n : Z) (s : state) : state :=
  set_ibdev (set_open_count n (ibdev s)) s.

(** ** A concrete device

    Values for the constants of the missing headers, an environment and
    a few states, on which the statements below are exercised. *)

(** Every allocation succeeds at a new address, both management
    interfaces can be created, and every driver operation succeeds. *)
Definition answer_ok (t : list call) (c : call) : Z :=
  match c with
  | Zalloc _ => 0x8000 + 0x100 * Z.of_nat (length t)
  | CreateMi IB_QPT_SMI => 0x1000
  | CreateMi _ => 0x2000
  | Random => 0x12345678
  | _ => 0
  end.

(** The same, but the driver's open operation fails. *)
Definition answer_open_fails (t : list call) (c : call) : Z :=
  match c with
  | OpOpen => -5
  | _ => answer_ok t c
  end.

(** The driver numbers its queue pairs from 0x40. *)
Definition qpn_from_0x40 (t : list call) : Z := 0x40 + Z.of_nat (length t).

Definition sample_cq : ib_completion_queue :=
  Build_cq 7 8 [SendOf 0x500; RecvOf 0x500] (Build_cq_op 0xc000 0).

Definition sample_wq (snd : Z) (n f : Z) (slots : list Z) : ib_work_queue :=
  Build_wq 0x500 snd 0x600 0 n f slots.

Definition sample_qp (send_wq recv_wq : ib_work_queue) : ib_queue_pair :=
  Build_qp IB_QPT_GENERIC 0x41 0x41 0x1234 send_wq recv_wq
    (Build_av 9 0 3 0) [].

(** A queue pair with two send and two receive entries, both work
      queues empty, then both full; and one with buffers left in three
      of its slots. *)
Definition qp_empty : ib_queue_pair :=
  sample_qp (sample_wq 1 2 0 [0; 0]) (sample_wq 0 2 0 [0; 0]).

Definition qp_full : ib_queue_pair :=
  sample_qp (sample_wq 1 2 2 [0; 0]) (sample_wq 0 2 2 [0; 0]).

Definition qp_busy : ib_queue_pair :=
  sample_qp (sample_wq 1 3 2 [0; 5; 6]) (sample_wq 0 2 1 [7; 0]).

(** The device with one such queue pair at 0x500, its completion queue
    at 0x600, a caller's address vector at 0x700 that leaves queue key
    and rate unset, a full-size I/O buffer at 0x800 and a short one at
    0x900. *)
Definition sample_state (q : ib_queue_pair) : state :=
  Build_state (Build_ibdev 0 0 0 [0x600] [0x500])
    (<[0x500 := q]> ∅)
    (<[0x600 := sample_cq]> ∅)
    (<[0x700 := Build_av 5 1 0 0]> ∅)
    (<[0x800 := Build_iob 0 2048]> (<[0x900 := Build_iob 0 100]> ∅))
    [].

(** ** The device registry

    [ib_get_hca_info] walks the list [ib_devices] of registered devices
    and reads two fields of each. *)

(** [int] is 32 bits wide, in two's complement. *)
Definition sint (z : Z) : Z := (z + 2 ^ 31) mod 2 ^ 32 - 2 ^ 31.

(** [struct ib_device], the fields [ib_get_hca_info] reads of every
    registered device: the underlying physical device [dev], and the
    second half of the port GID, [gid.u.half[1]], eight raw bytes read
    as one number. *)
Record ib_port : Type := Build_port {
  dev : Z;
  gid_half_1 : Z
}.

(** The loop of [ib_get_hca_info]; [hca_guid] is the content of the
    caller's buffer. *)
Fixpoint hca_info_loop (d : Z) (l : list ib_port) (num_ports : Z)
    (hca_guid : Z) : Z * Z :=
  match l with
  | [] => (num_ports, hca_guid)
  | tmp :: l' =>
      if negb (dev tmp =? d) then hca_info_loop d l' num_ports hca_guid
      else
        hca_info_loop d l' (sint (num_ports + 1))
          (if num_ports =? 0 then gid_half_1 tmp else hca_guid)
  end.

(** The result is the number of ports returned and the content of the
    caller's buffer afterwards. *)
Definition ib_get_hca_info (ib_devices : list ib_port) (ibdev0 : ib_port)
    (hca_guid : Z) : Z * Z :=
  hca_info_loop (dev ibdev0) ib_devices 0 hca_guid.

(** The registered ports that sit on the same physical device. *)
Definition ports_of (d : Z) (l : list ib_port) : list ib_port :=
  filter (fun p => dev p = d) l.

(** ** Further field updates *)

Definition set_cqn (n : Z) (c : ib_completion_queue) : ib_completion_queue :=
  Build_cq n (num_cqes c) (work_queues c) (op c).

(** ** Further sample objects *)

(** Three registered ports: two of the adapter at 0xd000, with one of
    the adapter at 0xd100 between them. *)
Definition sample_ports : list ib_port :=
  [Build_port 0xd000 0x11; Build_port 0xd100 0x22; Build_port 0xd000 0x12].

(** The environment [answer_ok], except that the driver rejects the
    creation of queue pairs, every post and every multicast attach. *)
Definition answer_driver_rejects (t : list call) (c : call) : Z :=
  match c with
  | OpCreateQp _ => -5
  | OpPostSend _ _ _ => -5
  | OpPostRecv _ _ => -5
  | OpMcastAttach _ _ => -5
  | _ => answer_ok t c
  end.

(** A second queue pair, at 0x540 and numbered 0x42, which has joined
    group 5 once and group 6 twice. *)
Definition qp_joined : ib_queue_pair :=
  Build_qp IB_QPT_GENERIC 0x42 0x42 0x1234
    (Build_wq 0x540 1 0x600 0 2 0 [0; 0])
    (Build_wq 0x540 0 0x600 0 2 0 [0; 0])
    (Build_av 9 0 3 0)
    [Build_mgid 0x3000 5; Build_mgid 0x3010 6; Build_mgid 0x3020 6].

(** The device, opened once, with both queue pairs on the completion
    queue at 0x600. *)
Definition two_qp_state : state :=
  Build_state (Build_ibdev 1 0x1000 0x2000 [0x600] [0x500; 0x540])
    (<[0x500 := qp_empty]> (<[0x540 := qp_joined]> ∅))
    (<[0x600 := Build_cq 7 8
                  [SendOf 0x540; RecvOf 0x540; SendOf 0x500; RecvOf 0x500]
                  (Build_cq_op 0xc000 0)]> ∅)
    (<[0x700 := Build_av 5 1 0 0]> ∅)
    (<[0x800 := Build_iob 0 2048]> (<[0x900 := Build_iob 0 100]> ∅))
    [].

(** An allocator of I/O buffers: the buffer number [n] is placed at
    address [0xa000 + n], with the room asked for. *)
Definition alloc_iob_ok (len : Z) (m : gmap Z io_buffer)
  : Z * gmap Z io_buffer :=
  let p := 0xa000 + Z.of_nat (size m) in
  if (0 <=? len) && (len <? 2 ^ 32)
  then (p, <[p := Build_iob 0 len]> m)
  else (NULL, m).


(** A driver whose [create_cq] numbers the completion queue 9, one
    whose [create_cq] fails, and a [destroy_cq] and a [poll_cq] that
    find nothing to do. *)
Definition op_create_cq_ok (cq : Z) : M Z :=
  fun s =>
    Done 0
      (set_cq_at
         match cq_at s !! cq with
         | Some c => <[cq := set_cqn 9 c]> (cq_at s)
         | None => cq_at s
         end s).

Definition op_create_cq_fails (cq : Z) : M Z := ret (-5).

Definition op_destroy_cq_ok (cq : Z) : M unit := ret tt.

Definition op_poll_cq_idle (cq : Z) : M unit := ret tt.


Section Infiniband.

(** Constants of headers that are not part of the sources. *)
Variables ENOBUFS ECANCELED ENOMEM EINVAL : Z.
Variables IB_QPN_SMI IB_QPN_GSI : Z.
Variable IB_RATE_2_5 : Z.
Variable IB_MAX_PAYLOAD_SIZE : Z.
Variables sizeof_qp sizeof_iobuf_ptr sizeof_mgid : Z.

(** The environment: the value each outside call returns, given the
    calls made before it, and the queue pair number the driver's
    [create_qp] stores into [qp->qpn]. *)
Variable answer : list call -> call -> Z.
Variable assigned_qpn : list call -> Z.

(** An outside call: logged, and answered by the environment. *)
Definition extern (c : call) : M Z :=
  fun s => Done (answer (trace s) c) (set_trace (trace s ++ [c]) s).

(** *** Posting and completing work queue entries *)

Definition ib_post_send (qp : Z) (av0 : av_ptr) (iobuf : Z) : M Z :=
  q <- load_qp qp ;;
  (* Check queue fill level *)
  if fill (send q) >=? num_wqes (send q) then ret (- ENOBUFS)
  else
    (* Use default address vector if none specified *)
    let av1 := match av0 with AvNull => AvOfQp qp | _ => av0 end in
    (* Make modifiable copy of address vector *)
    av_copy <- load_av_ptr av1 ;;
    let av2 := AvCopy in
    (* Fill in optional parameters in address vector *)
    v <- load_av av2 av_copy ;;
    av_copy <- (if av_qkey v =? 0
                then store_av av2 (set_av_qkey (qkey q) v) av_copy
                else ret av_copy) ;;
    v <- load_av av2 av_copy ;;
    av_copy <- (if rate v =? 0
                then store_av av2 (set_rate IB_RATE_2_5 v) av_copy
                else ret av_copy) ;;
    (* Post to hardware *)
    v <- load_av av2 av_copy ;;
    rc <- extern (OpPostSend qp v iobuf) ;;
    if negb (rc =? 0) then ret rc
    else
      q <- load_qp qp ;;
      store_qp qp (set_send (set_fill (uint (fill (send q) + 1)) (send q)) q) ;;
      ret 0.

Definition ib_post_recv (qp : Z) (iobuf : Z) : M Z :=
  (* Check packet length *)
  b <- load_iob iobuf ;;
  if iob_tailroom b <? IB_MAX_PAYLOAD_SIZE then ret (- EINVAL)
  else
    (* Check queue fill level *)
    q <- load_qp qp ;;
    if fill (recv q) >=? num_wqes (recv q) then ret (- ENOBUFS)
    else
      (* Post to hardware *)
      rc <- extern (OpPostRecv qp iobuf) ;;
      if negb (rc =? 0) then ret rc
      else
        q <- load_qp qp ;;
        store_qp qp
          (set_recv (set_fill (uint (fill (recv q) + 1)) (recv q)) q) ;;
        ret 0.

Definition ib_complete_send (qp : Z) (iobuf : Z) (rc : Z) : M unit :=
  q <- load_qp qp ;;
  c <- load_cq (wq_cq (send q)) ;;
  (if negb (complete_send (op c) =? NULL)
   then extern (CqCompleteSend (complete_send (op c)) qp iobuf rc)
   else extern (FreeIob iobuf)) ;;
  q <- load_qp qp ;;
  store_qp qp (set_send (set_fill (uint (fill (send q) - 1)) (send q)) q).

Definition ib_complete_recv (qp : Z) (v : av_ptr) (iobuf : Z) (rc : Z)
  : M unit :=
  q <- load_qp qp ;;
  c <- load_cq (wq_cq (recv q)) ;;
  (if negb (complete_recv (op c) =? NULL)
   then extern (CqCompleteRecv (complete_recv (op c)) qp v iobuf rc)
   else extern (FreeIob iobuf)) ;;
  q <- load_qp qp ;;
  store_qp qp (set_recv (set_fill (uint (fill (recv q) - 1)) (recv q)) q).

(** *** Queue pairs *)

(** What [zalloc] hands out: a zero-filled object. *)
Definition zero_wq : ib_work_queue := Build_wq 0 0 0 0 0 0 [].

Definition zero_qp : ib_queue_pair :=
  Build_qp IB_QPT_SMI 0 0 0 zero_wq zero_wq (Build_av 0 0 0 0) [].

Definition new_qp (p : Z) : M unit :=
  fun s => Done tt (set_qp_at (<[p := zero_qp]> (qp_at s)) s).

Definition release_qp (p : Z) : M unit :=
  fun s => Done tt (set_qp_at (delete p (qp_at s)) s).

(** [list_add ( &wq->list, &cq->work_queues )] and its [list_del]. *)
Definition cq_list_add (w : wq_ref) (cq : Z) : M unit :=
  c <- load_cq cq ;;
  store_cq cq (set_work_queues (w :: work_queues c) c).

Definition cq_list_del (w : wq_ref) (cq : Z) : M unit :=
  c <- load_cq cq ;;
  store_cq cq (set_work_queues (list_del w (work_queues c)) c).

(** The label [err_dev_create_qp] of [ib_create_qp]. *)
Definition err_dev_create_qp (qp : Z) : M Z :=
  q <- load_qp qp ;;
  cq_list_del (SendOf qp) (wq_cq (send q)) ;;
  cq_list_del (RecvOf qp) (wq_cq (recv q)) ;;
  d <- load_dev ;;
  store_dev (set_qps (list_del qp (qps d)) d) ;;
  extern (Free qp) ;;
  release_qp qp ;;
  ret NULL.

Definition ib_create_qp (ty : ib_queue_pair_type)
    (num_send_wqes : Z) (send_cq : Z) (num_recv_wqes : Z) (recv_cq : Z)
  : M Z :=
  (* Allocate and initialise data structure *)
  let total_size :=
    size_t (sizeof_qp + size_t (num_send_wqes * sizeof_iobuf_ptr)
            + size_t (num_recv_wqes * sizeof_iobuf_ptr)) in
  qp <- extern (Zalloc total_size) ;;
  if qp =? NULL then ret NULL
  else
    new_qp qp ;;
    d <- load_dev ;;
    store_dev (set_qps (qp :: qps d) d) ;;
    cq_list_add (SendOf qp) send_cq ;;
    r_send <- extern Random ;;
    cq_list_add (RecvOf qp) recv_cq ;;
    r_recv <- extern Random ;;
    store_qp qp
      (Build_qp ty 0 0 0
         (Build_wq qp 1 send_cq (Z.land r_send 0xffffff) num_send_wqes 0
            (replicate (Z.to_nat num_send_wqes) NULL))
         (Build_wq qp 0 recv_cq (Z.land r_recv 0xffffff) num_recv_wqes 0
            (replicate (Z.to_nat num_recv_wqes) NULL))
         (Build_av 0 0 0 0) []) ;;
    (* Perform device-specific initialisation and get QPN *)
    before <- (fun s => Done (trace s) s) ;;
    rc <- extern (OpCreateQp qp) ;;
    q <- load_qp qp ;;
    store_qp qp (set_qpn (assigned_qpn before) q) ;;
    if negb (rc =? 0) then err_dev_create_qp qp
    else
      (* Calculate externally-visible QPN *)
      q <- load_qp qp ;;
      store_qp qp
        (set_ext_qpn
           match ty with
           | IB_QPT_SMI => IB_QPN_SMI
           | IB_QPT_GSI => IB_QPN_GSI
           | _ => qpn q
           end q) ;;
      ret qp.

(** The two loops of [ib_destroy_qp]; [n] counts the iterations left,
    [i] is the loop index. *)
Fixpoint cancel_send_loop (qp : Z) (n : nat) (i : Z) : M unit :=
  match n with
  | O => ret tt
  | S n' =>
      q <- load_qp qp ;;
      match iobufs (send q) !! Z.to_nat i with
      | None => fault
      | Some iobuf =>
          (if negb (iobuf =? NULL)
           then ib_complete_send qp iobuf (- ECANCELED)
           else ret tt) ;;
          cancel_send_loop qp n' (uint (i + 1))
      end
  end.

Fixpoint cancel_recv_loop (qp : Z) (n : nat) (i : Z) : M unit :=
  match n with
  | O => ret tt
  | S n' =>
      q <- load_qp qp ;;
      match iobufs (recv q) !! Z.to_nat i with
      | None => fault
      | Some iobuf =>
          (if negb (iobuf =? NULL)
           then ib_complete_recv qp AvNull iobuf (- ECANCELED)
           else ret tt) ;;
          cancel_recv_loop qp n' (uint (i + 1))
      end
  end.

Definition ib_destroy_qp (qp : Z) : M unit :=
  q <- load_qp qp ;;
  assert (bool_decide (mgids q = [])) ;;
  (* Perform device-specific destruction *)
  extern (OpDestroyQp qp) ;;
  (* Complete any remaining I/O buffers with errors *)
  q <- load_qp qp ;;
  cancel_send_loop qp (Z.to_nat (num_wqes (send q))) 0 ;;
  q <- load_qp qp ;;
  cancel_recv_loop qp (Z.to_nat (num_wqes (recv q))) 0 ;;
  (* Remove work queues from completion queue *)
  q <- load_qp qp ;;
  cq_list_del (SendOf qp) (wq_cq (send q)) ;;
  cq_list_del (RecvOf qp) (wq_cq (recv q)) ;;
  (* Free QP *)
  d <- load_dev ;;
  store_dev (set_qps (list_del qp (qps d)) d) ;;
  extern (Free qp) ;;
  release_qp qp.

(** The loop of [ib_find_qp_qpn] over the device's queue pairs. *)
Fixpoint find_qp_qpn_loop (n : Z) (l : list Z) : M Z :=
  match l with
  | [] => ret NULL
  | qp :: l' =>
      q <- load_qp qp ;;
      if (n =? qpn q) || (n =? ext_qpn q) then ret qp
      else find_qp_qpn_loop n l'
  end.

Definition ib_find_qp_qpn (n : Z) : M Z :=
  d <- load_dev ;;
  find_qp_qpn_loop n (qps d).

(** *** Link control *)

(** The unwinding labels of [ib_open], last one first; each falls
    through to the next. *)
Definition err_create_smi (rc : Z) : M Z :=
  d <- load_dev ;;
  assert (open_count d =? 1) ;;
  store_dev (set_open_count 0 d) ;;
  ret rc.

Definition err_create_sma (rc : Z) : M Z :=
  d <- load_dev ;;
  extern (DestroyMi (smi d)) ;;
  err_create_smi rc.

Definition err_create_gsi (rc : Z) : M Z :=
  d <- load_dev ;;
  extern (DestroySma (smi d)) ;;
  err_create_sma rc.

Definition err_open (rc : Z) : M Z :=
  d <- load_dev ;;
  extern (DestroyMi (gsi d)) ;;
  err_create_gsi rc.

Definition ib_open : M Z :=
  (* Increment device open request counter *)
  d <- load_dev ;;
  store_dev (set_open_count (uint (open_count d + 1)) d) ;;
  if open_count d >? 0 then ret 0
  else
    (* Create subnet management interface *)
    p <- extern (CreateMi IB_QPT_SMI) ;;
    d <- load_dev ;;
    store_dev (set_smi p d) ;;
    if p =? NULL then err_create_smi (- ENOMEM)
    else
      (* Create subnet management agent *)
      d <- load_dev ;;
      rc <- extern (CreateSma (smi d)) ;;
      if negb (rc =? 0) then err_create_sma rc
      else
        (* Create general services interface *)
        p <- extern (CreateMi IB_QPT_GSI) ;;
        d <- load_dev ;;
        store_dev (set_gsi p d) ;;
        if p =? NULL then err_create_gsi (- ENOMEM)
        else
          (* Open device *)
          rc <- extern OpOpen ;;
          if negb (rc =? 0) then err_open rc
          else
            d <- load_dev ;;
            assert (open_count d =? 1) ;;
            ret 0.

Definition ib_close : M unit :=
  (* Decrement device open request counter *)
  d <- load_dev ;;
  store_dev (set_open_count (uint (open_count d - 1)) d) ;;
  (* Close device if this was the last remaining requested opening *)
  d <- load_dev ;;
  if open_count d =? 0
  then
    extern (DestroyMi (gsi d)) ;;
    extern (DestroySma (smi d)) ;;
    extern (DestroyMi (smi d)) ;;
    extern OpClose ;;
    ret tt
  else ret tt.

(** *** Multicast *)

(** [list_del] of the list node at address [p]. *)
Fixpoint mgid_list_del (p : Z) (l : list ib_multicast_gid)
  : list ib_multicast_gid :=
  match l with
  | [] => []
  | m :: l' => if mgid_at m =? p then l' else m :: mgid_list_del p l'
  end.

Definition ib_mcast_attach (qp : Z) (g : ib_gid) : M Z :=
  (* Add to software multicast GID list *)
  mgid <- extern (Zalloc sizeof_mgid) ;;
  if mgid =? NULL then ret (- ENOMEM)
  else
    q <- load_qp qp ;;
    store_qp qp (set_mgids (Build_mgid mgid g :: mgids q) q) ;;
    (* Add to hardware multicast GID list *)
    rc <- extern (OpMcastAttach qp g) ;;
    if negb (rc =? 0)
    then
      q <- load_qp qp ;;
      store_qp qp (set_mgids (mgid_list_del mgid (mgids q)) q) ;;
      extern (Free mgid) ;;
      ret rc
    else ret 0.

(** The loop of [ib_mcast_detach]: the first node whose GID compares
    equal, and the list without it. *)
Fixpoint mgid_scan (g : ib_gid) (l : list ib_multicast_gid)
  : option (ib_multicast_gid * list ib_multicast_gid) :=
  match l with
  | [] => None
  | m :: l' =>
      if memcmp (gid m) g =? 0 then Some (m, l')
      else
        match mgid_scan g l' with
        | Some (hit, rest) => Some (hit, m :: rest)
        | None => None
        end
  end.

Definition ib_mcast_detach (qp : Z) (g : ib_gid) : M unit :=
  (* Remove from hardware multicast GID list *)
  extern (OpMcastDetach qp g) ;;
  (* Remove from software multicast GID list *)
  q <- load_qp qp ;;
  match mgid_scan g (mgids q) with
  | Some (hit, rest) =>
      store_qp qp (set_mgids rest q) ;;
      extern (Free (mgid_at hit)) ;;
      ret tt
  | None => ret tt
  end.

(** *** Sequences of calls *)

Definition run_wq_call (qp : Z) (c : wq_call) : M wq_event :=
  match c with
  | PostSend v iobuf => rc <- ib_post_send qp v iobuf ;; ret (Posted true rc)
  | PostRecv iobuf => rc <- ib_post_recv qp iobuf ;; ret (Posted false rc)
  | CompleteSend iobuf rc =>
      ib_complete_send qp iobuf rc ;; ret (Completed true)
  | CompleteRecv v iobuf rc =>
      ib_complete_recv qp v iobuf rc ;; ret (Completed false)
  end.

Fixpoint run_wq_calls (qp : Z) (l : list wq_call) : M (list wq_event) :=
  match l with
  | [] => ret []
  | c :: l' =>
      e <- run_wq_call qp c ;;
      es <- run_wq_calls qp l' ;;
      ret (e :: es)
  end.

Definition run_mcast_call (qp : Z) (c : mcast_call) : M Z :=
  match c with
  | Attach g => ib_mcast_attach qp g
  | Detach g => ib_mcast_detach qp g ;; ret 0
  end.

(** Each call is logged with the status it returned. *)
Fixpoint run_mcast_calls (qp : Z) (l : list mcast_call)
  : M (list (mcast_call * Z)) :=
  match l with
  | [] => ret []
  | c :: l' =>
      rc <- run_mcast_call qp c ;;
      log <- run_mcast_calls qp l' ;;
      ret ((c, rc) :: log)
  end.

(** One more [ib_open] after the calls [m]; the value tells whether
    every call so far returned success. *)
Definition and_open (m : M bool) : M bool :=
  ok <- m ;;
  rc <- ib_open ;;
  ret (ok && (rc =? 0)).

(** [ib_open] called [k] times, and [ib_close] called [k] times. *)
Definition ib_open_times (k : N) : M bool := N.iter k and_open (ret true).

Definition and_close (m : M unit) : M unit := m ;; ib_close.

Definition ib_close_times (k : N) : M unit := N.iter k and_close (ret tt).

(** *** Notions the statements use *)

(** The vector [ib_post_send] hands to the driver when its caller
    designates [v]: queue key and rate, where zero, are replaced by
    the queue pair's queue key and by the baseline rate. *)
Definition av_defaulted (q : ib_queue_pair) (v : ib_address_vector)
  : ib_address_vector :=
  Build_av (av_dest v) (av_sl v)
    (if rate v =? 0 then IB_RATE_2_5 else rate v)
    (if av_qkey v =? 0 then qkey q else av_qkey v).

(** A cancelled entry is completed with status [-ECANCELED]. *)
Definition send_cancellation (c : ib_completion_queue) (qp iobuf : Z)
  : call :=
  send_completion c qp iobuf (- ECANCELED).

Definition recv_cancellation (c : ib_completion_queue) (qp iobuf : Z)
  : call :=
  recv_completion c qp AvNull iobuf (- ECANCELED).

(** What a first [ib_open] has created before it reaches a step, each
    with the call that tears it down, and the call the step makes. *)
Definition created_before (st : open_step) (smi0 gsi0 : Z)
  : list (call * call) :=
  match st with
  | StepSmi => []
  | StepSma => [(CreateMi IB_QPT_SMI, DestroyMi smi0)]
  | StepGsi =>
      [(CreateMi IB_QPT_SMI, DestroyMi smi0);
       (CreateSma smi0, DestroySma smi0)]
  | StepHw =>
      [(CreateMi IB_QPT_SMI, DestroyMi smi0);
       (CreateSma smi0, DestroySma smi0);
       (CreateMi IB_QPT_GSI, DestroyMi gsi0)]
  end.

Definition attempt (st : open_step) (smi0 : Z) : call :=
  match st with
  | StepSmi => CreateMi IB_QPT_SMI
  | StepSma => CreateSma smi0
  | StepGsi => CreateMi IB_QPT_GSI
  | StepHw => OpOpen
  end.

(** In state [s] the environment lets a first [ib_open] create the
    interfaces [smi0] and [gsi0] up to step [st], and fails that step. *)
Definition fails_at (s : state) (st : open_step) (smi0 gsi0 : Z) : Prop :=
  let t0 := trace s in
  let t1 := t0 ++ [CreateMi IB_QPT_SMI] in
  let t2 := t1 ++ [CreateSma smi0] in
  let t3 := t2 ++ [CreateMi IB_QPT_GSI] in
  match st with
  | StepSmi => answer t0 (CreateMi IB_QPT_SMI) = NULL
  | StepSma =>
      answer t0 (CreateMi IB_QPT_SMI) = smi0 /\ smi0 <> NULL /\
      answer t1 (CreateSma smi0) <> 0
  | StepGsi =>
      answer t0 (CreateMi IB_QPT_SMI) = smi0 /\ smi0 <> NULL /\
      answer t1 (CreateSma smi0) = 0 /\
      answer t2 (CreateMi IB_QPT_GSI) = NULL
  | StepHw =>
      answer t0 (CreateMi IB_QPT_SMI) = smi0 /\ smi0 <> NULL /\
      answer t1 (CreateSma smi0) = 0 /\
      answer t2 (CreateMi IB_QPT_GSI) = gsi0 /\ gsi0 <> NULL /\
      answer t3 OpOpen <> 0
  end.

(** The state a successful first [ib_open] leaves, and the state the
    last [ib_close] leaves. *)
Definition after_first_open (s : state) (smi0 gsi0 : Z) : state :=
  set_trace
    (trace s ++
     [CreateMi IB_QPT_SMI; CreateSma smi0; CreateMi IB_QPT_GSI; OpOpen])
    (set_ibdev (set_gsi gsi0 (set_smi smi0 (set_open_count 1 (ibdev s)))) s).

Definition after_last_close (s : state) : state :=
  set_trace
    (trace s ++
     [DestroyMi (gsi (ibdev s)); DestroySma (smi (ibdev s));
      DestroyMi (smi (ibdev s)); OpClose])
    (with_open_count 0 s).

(** *** Statements of the specification that the code does not meet,
    as the specification words them *)

(** A post to a full work queue fails with [-ENOBUFS], in either
    direction, without a driver call and without a change of state. *)
Definition full_queue_post_is_ENOBUFS : Prop :=
  forall (s : state) (qp : Z) (q : ib_queue_pair),
    qp_at s !! qp = Some q ->
    (fill (send q) = num_wqes (send q) ->
     forall v iobuf, ib_post_send qp v iobuf s = Done (- ENOBUFS) s) /\
    (fill (recv q) = num_wqes (recv q) ->
     forall iobuf, is_Some (iob_at s !! iobuf) ->
       ib_post_recv qp iobuf s = Done (- ENOBUFS) s).

(** [k] opens followed by [k] closes reach the hardware once each,
    whatever [k > 0] is. *)
Definition one_hw_open_and_close_for_every_k : Prop :=
  forall (k : N) (s s1 s2 : state),
    (0 < k)%N ->
    open_count (ibdev s) = 0 ->
    ib_open_times k s = Done true s1 ->
    ib_close_times k s1 = Done tt s2 ->
    hw_opens (trace s2) = S (hw_opens (trace s)) /\
    hw_closes (trace s2) = S (hw_closes (trace s)).

(** After any sequence of attaches and detaches a queue pair has at
    most one membership per group, each from one successful attach. *)
Definition one_membership_per_group : Prop :=
  forall (s s' : state) (qp : Z) (q q' : ib_queue_pair)
         (calls : list mcast_call) (log : list (mcast_call * Z)),
    qp_at s !! qp = Some q ->
    mgids q = [] ->
    run_mcast_calls qp calls s = Done log s' ->
    qp_at s' !! qp = Some q' ->
    forall g : ib_gid,
      (entries_for g (mgids q') <= 1)%nat /\
      entries_for g (mgids q') = memberships_due g 0 log.

(** A subnet-management queue pair whose two numbers differ is found
    under its external number and not under its internal one. *)
Definition smi_found_by_external_qpn_only : Prop :=
  forall (s s' : state) (num_send_wqes send_cq num_recv_wqes recv_cq : Z)
         (qp : Z) (q : ib_queue_pair),
    ib_create_qp IB_QPT_SMI num_send_wqes send_cq num_recv_wqes recv_cq s
      = Done qp s' ->
    qp <> NULL ->
    qp_at s' !! qp = Some q ->
    ext_qpn q <> qpn q ->
    ib_find_qp_qpn (ext_qpn q) s' = Done qp s' /\
    ib_find_qp_qpn (qpn q) s' <> Done qp s'.

(** *** Further lookups *)

(** The inner loop of [ib_find_qp_mgid] over the memberships of one
    queue pair: is there a node whose GID compares equal? *)
Fixpoint mgid_member (g : ib_gid) (l : list ib_multicast_gid) : bool :=
  match l with
  | [] => false
  | m :: l' => if memcmp (gid m) g =? 0 then true else mgid_member g l'
  end.

(** The outer loop of [ib_find_qp_mgid] over the device's queue pairs. *)
Fixpoint find_qp_mgid_loop (g : ib_gid) (l : list Z) : M Z :=
  match l with
  | [] => ret NULL
  | qp :: l' =>
      q <- load_qp qp ;;
      if mgid_member g (mgids q) then ret qp
      else find_qp_mgid_loop g l'
  end.

Definition ib_find_qp_mgid (g : ib_gid) : M Z :=
  d <- load_dev ;;
  find_qp_mgid_loop g (qps d).

(** The work queue a member of a completion queue's list designates:
    the send or the receive queue inside the queue pair at that
    address. *)
Definition load_wq (w : wq_ref) : M ib_work_queue :=
  match w with
  | SendOf qp => q <- load_qp qp ;; ret (send q)
  | RecvOf qp => q <- load_qp qp ;; ret (recv q)
  end.

(** The loop of [ib_find_wq]; the result is the work queue found, or
    nothing for the null pointer. *)
Fixpoint find_wq_loop (n : Z) (is_send0 : Z) (l : list wq_ref)
  : M (option wq_ref) :=
  match l with
  | [] => ret None
  | w :: l' =>
      wq <- load_wq w ;;
      q <- load_qp (wq_qp wq) ;;
      if (qpn q =? n) && (is_send wq =? is_send0) then ret (Some w)
      else find_wq_loop n is_send0 l'
  end.

Definition ib_find_wq (cq : Z) (n : Z) (is_send0 : Z) : M (option wq_ref) :=
  c <- load_cq cq ;;
  find_wq_loop n is_send0 (work_queues c).

(** *** Further notions the statements use *)

(** [list_add] and [list_del] of a work queue on the list of the
    completion queue at [cq], as functions on the store. *)
Definition cq_added (w : wq_ref) (cq : Z) (m : gmap Z ib_completion_queue)
  : gmap Z ib_completion_queue :=
  match m !! cq with
  | Some c => <[cq := set_work_queues (w :: work_queues c) c]> m
  | None => m
  end.

Definition cq_removed (w : wq_ref) (cq : Z) (m : gmap Z ib_completion_queue)
  : gmap Z ib_completion_queue :=
  match m !! cq with
  | Some c => <[cq := set_work_queues (list_del w (work_queues c)) c]> m
  | None => m
  end.

(** Does the queue pair carry the number, as [ib_find_qp_qpn] tests it? *)
Definition has_qpn (n : Z) (q : ib_queue_pair) : bool :=
  (n =? qpn q) || (n =? ext_qpn q).

(** Everything but the trace is the same in two states. *)
Definition same_objects (s s' : state) : Prop :=
  ibdev s' = ibdev s /\ qp_at s' = qp_at s /\ cq_at s' = cq_at s /\
  av_at s' = av_at s /\ iob_at s' = iob_at s.

(** The work queue a member of a completion queue's list designates in
    a state, and whether [ib_find_wq] takes it for the one asked for. *)
Definition wq_at (s : state) (w : wq_ref) : option ib_work_queue :=
  match w with
  | SendOf qp => send <$> qp_at s !! qp
  | RecvOf qp => recv <$> qp_at s !! qp
  end.

Definition wq_matches (s : state) (n is_send0 : Z) (w : wq_ref) : bool :=
  match wq_at s w with
  | Some wq =>
      match qp_at s !! wq_qp wq with
      | Some q => (qpn q =? n) && (is_send wq =? is_send0)
      | None => false
      end
  | None => false
  end.

(** Every work queue on the list, and the queue pair it points back
    to, is an object of the state. *)
Definition wq_valid (s : state) (w : wq_ref) : Prop :=
  exists wq, wq_at s w = Some wq /\ is_Some (qp_at s !! wq_qp wq).

(** [zalloc] hands out memory that is not in use: no allocation made
    in state [s] returns the address of a queue pair of [s]. *)
Definition alloc_is_fresh (s : state) : Prop :=
  forall size, qp_at s !! answer (trace s) (Zalloc size) = None.

(** *** Refilling the receive queue *)

(** [alloc_iob] lives outside this file.  It works on the I/O buffers
    and on nothing else: from the length asked for and the buffers
    there are, it gives the address of a new buffer, or the null
    pointer, and the buffers there are afterwards. *)
Definition iob_allocator : Type :=
  Z -> gmap Z io_buffer -> Z * gmap Z io_buffer.

Definition set_iob_at (m : gmap Z io_buffer) (s : state) : state :=
  Build_state (ibdev s) (qp_at s) (cq_at s) (av_at s) m (trace s).

Definition alloc_iob (a : iob_allocator) (len : Z) : M Z :=
  fun s =>
    Done (fst (a len (iob_at s))) (set_iob_at (snd (a len (iob_at s))) s).

(** The loop of [ib_refill_recv].  Every turn that goes on raises the
    fill count, so the loop ends; [fuel] bounds the number of turns, and
    running out of it is a fault. *)
Fixpoint ib_refill_recv (a : iob_allocator) (fuel : nat) (qp : Z) : M unit :=
  match fuel with
  | O => fault
  | S fuel' =>
      (* Keep filling while unfilled entries remain *)
      q <- load_qp qp ;;
      if fill (recv q) <? num_wqes (recv q)
      then
        (* Allocate I/O buffer *)
        iobuf <- alloc_iob a IB_MAX_PAYLOAD_SIZE ;;
        if iobuf =? NULL then ret tt
        else
          (* Post I/O buffer *)
          rc <- ib_post_recv qp iobuf ;;
          if negb (rc =? 0)
          then extern (FreeIob iobuf) ;; ret tt
          else ib_refill_recv a fuel' qp
      else ret tt
  end.

(** The allocator behaves: a buffer it hands out is there, with room
    for the length asked for. *)
Definition alloc_iob_behaves (a : iob_allocator) : Prop :=
  forall (len : Z) (m : gmap Z io_buffer),
    fst (a len m) <> NULL ->
    exists b,
      snd (a len m) !! fst (a len m) = Some b /\ len <= iob_tailroom b.

(** The allocator never fails for the length asked for. *)
Definition alloc_iob_succeeds (a : iob_allocator) (len : Z) : Prop :=
  forall m : gmap Z io_buffer, fst (a len m) <> NULL.

(** The driver accepts every receive post on the queue pair. *)
Definition post_recv_accepted (qp : Z) : Prop :=
  forall (t : list call) (p : Z), answer t (OpPostRecv qp p) = 0.

(** *** Polling a completion queue *)

(** The loop of [ib_poll_cq] over the work queues on the completion
    queue.  Nothing in the body writes to a completion queue, so the
    list walked is the list read on entry. *)
Fixpoint refill_recv_queues (a : iob_allocator) (fuel : nat)
    (l : list wq_ref) : M unit :=
  match l with
  | [] => ret tt
  | w :: l' =>
      wq <- load_wq w ;;
      (if is_send wq =? 0 then ib_refill_recv a fuel (wq_qp wq)
       else ret tt) ;;
      refill_recv_queues a fuel l'
  end.

(** The driver's [poll_cq] operation works on driver data and calls
    back into this file; it is taken as a computation of its own. *)
Definition ib_poll_cq (op_poll_cq : Z -> M unit) (a : iob_allocator)
    (fuel : nat) (cq : Z) : M unit :=
  (* Poll completion queue *)
  op_poll_cq cq ;;
  (* Refill receive work queues *)
  c <- load_cq cq ;;
  refill_recv_queues a fuel (work_queues c).

(** A queue pair with its receive queue filled to capacity. *)
Definition recv_filled (q : ib_queue_pair) : ib_queue_pair :=
  set_recv (set_fill (num_wqes (recv q)) (recv q)) q.

(** A work queue on a completion queue's list is in order: its queue
    pair exists, its direction flag says what it is, and a receive
    queue points back to its queue pair and has a fill count within its
    capacity, which [fuel] turns of the refill loop can make up. *)
Definition wq_ready (s : state) (fuel : nat) (w : wq_ref) : Prop :=
  match w with
  | SendOf p => exists q, qp_at s !! p = Some q /\ is_send (send q) <> 0
  | RecvOf p =>
      exists q,
        qp_at s !! p = Some q /\
        is_send (recv q) = 0 /\ wq_qp (recv q) = p /\
        0 <= fill (recv q) <= num_wqes (recv q) /\
        num_wqes (recv q) < UINT_MODULUS /\
        (Z.to_nat (num_wqes (recv q)) < fuel)%nat
  end.

(** *** Completion queues *)

(** [sizeof ( struct ib_completion_queue )]. *)
Variable sizeof_cq : Z.

Definition set_cqs (l : list Z) (d : ib_device) : ib_device :=
  Build_ibdev (open_count d) (smi d) (gsi d) l (qps d).

Definition zero_cq : ib_completion_queue := Build_cq 0 0 [] (Build_cq_op 0 0).

Definition new_cq (p : Z) : M unit :=
  fun s => Done tt (set_cq_at (<[p := zero_cq]> (cq_at s)) s).

Definition release_cq (p : Z) : M unit :=
  fun s => Done tt (set_cq_at (delete p (cq_at s)) s).

(** The driver's [create_cq] and [destroy_cq] operations work on driver
    data; each is taken as a computation of its own. *)
Definition ib_create_cq (op_create_cq : Z -> M Z) (num_cqes0 : Z)
    (op0 : ib_completion_queue_operations) : M Z :=
  (* Allocate and initialise data structure *)
  cq <- extern (Zalloc sizeof_cq) ;;
  if cq =? NULL then ret NULL
  else
    new_cq cq ;;
    d <- load_dev ;;
    store_dev (set_cqs (cq :: cqs d) d) ;;
    c <- load_cq cq ;;
    store_cq cq (Build_cq (cqn c) num_cqes0 [] op0) ;;
    (* Perform device-specific initialisation and get CQN *)
    rc <- op_create_cq cq ;;
    if negb (rc =? 0)
    then
      d <- load_dev ;;
      store_dev (set_cqs (list_del cq (cqs d)) d) ;;
      extern (Free cq) ;;
      release_cq cq ;;
      ret NULL
    else ret cq.

Definition ib_destroy_cq (op_destroy_cq : Z -> M unit) (cq : Z) : M unit :=
  c <- load_cq cq ;;
  assert (bool_decide (work_queues c = [])) ;;
  op_destroy_cq cq ;;
  d <- load_dev ;;
  store_dev (set_cqs (list_del cq (cqs d)) d) ;;
  extern (Free cq) ;;
  release_cq cq.

(** A driver operation on a completion queue keeps to its own: it
    returns, it may make outside calls and store the number of the
    completion queue, and it leaves the device, the work queue list,
    capacity and handlers of the completion queue, the other completion
    queues, the queue pairs, the address vectors and the buffers as
    they are. *)
Definition driver_cq_op {A : Type} (f : Z -> M A) : Prop :=
  forall (cq : Z) (s : state),
    exists r s',
      f cq s = Done r s' /\
      ibdev s' = ibdev s /\ qp_at s' = qp_at s /\ av_at s' = av_at s /\
      iob_at s' = iob_at s /\
      (forall k, k <> cq -> cq_at s' !! k = cq_at s !! k) /\
      exists n, cq_at s' !! cq = set_cqn n <$> cq_at s !! cq.

(** No allocation made in state [s] returns the address of a
    completion queue of [s]. *)
Definition alloc_is_fresh_cq (s : state) : Prop :=
  forall size, cq_at s !! answer (trace s) (Zalloc size) = None.


(** From [s] to [s'] nothing has changed but the two fill counts of
    the queue pair at [qp], which was [q], and the trace. *)
Definition fills_changed (qp : Z) (q : ib_queue_pair) (s s' : state)
  : Prop :=
  ibdev s' = ibdev s /\ cq_at s' = cq_at s /\ av_at s' = av_at s /\
  iob_at s' = iob_at s /\
  exists f g, qp_at s' = <[qp := refilled f g q]> (qp_at s).


(** ** Properties *)

(** *** Running the memory accesses *)

Lemma bind_run {A B : Type} (m : M A) (k : A -> M B) (s s' : state) (a : A) :
  m s = Done a s' -> bind m k s = k a s'.
Proof. intros H. unfold bind. now rewrite H. Qed.

Lemma bind_inv {A B : Type} (m : M A) (k : A -> M B) (s s' : state) (b : B) :
  bind m k s = Done b s' ->
  exists a s1, m s = Done a s1 /\ k a s1 = Done b s'.
Proof.
  unfold bind. destruct (m s) as [a s1|]; [eauto | discriminate].
Qed.

Lemma load_qp_run (s : state) (p : Z) (q : ib_queue_pair) :
  qp_at s !! p = Some q -> load_qp p s = Done q s.
Proof. intros H. unfold load_qp. now rewrite H. Qed.

Lemma store_qp_run (s : state) (p : Z) (q0 q : ib_queue_pair) :
  qp_at s !! p = Some q0 ->
  store_qp p q s = Done tt (set_qp_at (<[p := q]> (qp_at s)) s).
Proof. intros H. unfold store_qp. now rewrite H. Qed.

Lemma load_cq_run (s : state) (p : Z) (c : ib_completion_queue) :
  cq_at s !! p = Some c -> load_cq p s = Done c s.
Proof. intros H. unfold load_cq. now rewrite H. Qed.

Lemma store_cq_run (s : state) (p : Z) (c0 c : ib_completion_queue) :
  cq_at s !! p = Some c0 ->
  store_cq p c s = Done tt (set_cq_at (<[p := c]> (cq_at s)) s).
Proof. intros H. unfold store_cq. now rewrite H. Qed.

Lemma load_iob_run (s : state) (p : Z) (b : io_buffer) :
  iob_at s !! p = Some b -> load_iob p s = Done b s.
Proof. intros H. unfold load_iob. now rewrite H. Qed.

Lemma load_av_ptr_target (s : state) (p : av_ptr) (v : ib_address_vector) :
  av_target s p = Some v -> load_av_ptr p s = Done v s.
Proof.
  destruct p as [|a|qp]; unfold av_target, load_av_ptr; intros H.
  - discriminate.
  - now rewrite H.
  - destruct (qp_at s !! qp) as [q|] eqn:E; [|discriminate].
    rewrite (bind_run _ _ _ _ _ (load_qp_run _ _ _ E)).
    unfold ret. cbn in H. congruence.
Qed.

(** Projections of updated states. *)
Ltac proj :=
  cbn [ibdev qp_at cq_at av_at iob_at trace
       set_ibdev set_qp_at set_cq_at set_av_at set_trace with_open_count
       open_count smi gsi cqs qps
       set_open_count set_smi set_gsi set_qps
       type qpn ext_qpn qkey send recv av mgids
       set_send set_recv set_qpn set_ext_qpn set_av set_mgids refilled
       wq_qp is_send wq_cq psn num_wqes fill iobufs set_fill
       av_dest av_sl rate av_qkey set_av_qkey set_rate
       cqn num_cqes work_queues op set_work_queues
       complete_send complete_recv mgid_at gid] in *.


(** *** [ib_post_send] *)

Lemma av_defaulted_steps (q : ib_queue_pair) (v : ib_address_vector) :
  let v1 := if av_qkey v =? 0 then set_av_qkey (qkey q) v else v in
  (if rate v1 =? 0 then set_rate IB_RATE_2_5 v1 else v1) = av_defaulted q v.
Proof.
  destruct v as [d sl r k]. unfold av_defaulted, set_rate, set_av_qkey.
  cbn. destruct (k =? 0); cbn; destruct (r =? 0); reflexivity.
Qed.

(** What one call of [ib_post_send] does, in full. *)
Lemma ib_post_send_run (s : state) (qp iobuf : Z) (q : ib_queue_pair)
    (v0 : av_ptr) (src : ib_address_vector) :
  qp_at s !! qp = Some q ->
  av_target s (match v0 with AvNull => AvOfQp qp | _ => v0 end) = Some src ->
  ib_post_send qp v0 iobuf s =
    if fill (send q) >=? num_wqes (send q) then Done (- ENOBUFS) s
    else
      let c := OpPostSend qp (av_defaulted q src) iobuf in
      let s1 := set_trace (trace s ++ [c]) s in
      if answer (trace s) c =? 0
      then Done 0
             (set_qp_at
                (<[qp := set_send (set_fill (uint (fill (send q) + 1))
                                     (send q)) q]> (qp_at s)) s1)
      else Done (answer (trace s) c) s1.
Proof.
  intros Hq Hsrc. unfold ib_post_send.
  rewrite (bind_run _ _ _ _ _ (load_qp_run _ _ _ Hq)).
  destruct (fill (send q) >=? num_wqes (send q)); [reflexivity|].
  rewrite (bind_run _ _ _ _ _ (load_av_ptr_target _ _ _ Hsrc)).
  rewrite <- (av_defaulted_steps q src). cbv zeta.
  unfold load_av, store_av, bind, ret, extern.
  destruct (av_qkey src =? 0); cbn beta iota;
    (destruct (rate _ =? 0); cbn beta iota;
     (destruct (answer _ _ =? 0); cbn [negb]; [|reflexivity]);
     (erewrite load_qp_run by (proj; exact Hq));
     (erewrite store_qp_run by (proj; exact Hq));
     reflexivity).
Qed.


(** *** [ib_post_recv], [ib_complete_send], [ib_complete_recv] *)

Lemma ib_post_recv_run (s : state) (qp iobuf : Z) (q : ib_queue_pair)
    (b : io_buffer) :
  qp_at s !! qp = Some q ->
  iob_at s !! iobuf = Some b ->
  ib_post_recv qp iobuf s =
    if iob_tailroom b <? IB_MAX_PAYLOAD_SIZE then Done (- EINVAL) s
    else if fill (recv q) >=? num_wqes (recv q) then Done (- ENOBUFS) s
    else
      let c := OpPostRecv qp iobuf in
      let s1 := set_trace (trace s ++ [c]) s in
      if answer (trace s) c =? 0
      then Done 0
             (set_qp_at
                (<[qp := set_recv (set_fill (uint (fill (recv q) + 1))
                                     (recv q)) q]> (qp_at s)) s1)
      else Done (answer (trace s) c) s1.
Proof.
  intros Hq Hb. unfold ib_post_recv.
  rewrite (bind_run _ _ _ _ _ (load_iob_run _ _ _ Hb)).
  destruct (iob_tailroom b <? IB_MAX_PAYLOAD_SIZE); [reflexivity|].
  rewrite (bind_run _ _ _ _ _ (load_qp_run _ _ _ Hq)).
  destruct (fill (recv q) >=? num_wqes (recv q)); [reflexivity|].
  cbv zeta. unfold bind, ret, extern.
  destruct (answer _ _ =? 0); cbn [negb]; [|reflexivity].
  erewrite load_qp_run by (proj; exact Hq).
  erewrite store_qp_run by (proj; exact Hq).
  reflexivity.
Qed.

Lemma ib_complete_send_run (s : state) (qp iobuf rc : Z)
    (q : ib_queue_pair) (c : ib_completion_queue) :
  qp_at s !! qp = Some q ->
  cq_at s !! wq_cq (send q) = Some c ->
  ib_complete_send qp iobuf rc s =
    Done tt
      (set_qp_at
         (<[qp := set_send (set_fill (uint (fill (send q) - 1)) (send q)) q]>
            (qp_at s))
         (set_trace (trace s ++ [send_completion c qp iobuf rc]) s)).
Proof.
  intros Hq Hc. unfold ib_complete_send.
  rewrite (bind_run _ _ _ _ _ (load_qp_run _ _ _ Hq)).
  rewrite (bind_run _ _ _ _ _ (load_cq_run _ _ _ Hc)).
  unfold send_completion, bind, ret, extern.
  destruct (complete_send (op c) =? NULL); cbn [negb];
    (erewrite load_qp_run by (proj; exact Hq));
    (erewrite store_qp_run by (proj; exact Hq));
    reflexivity.
Qed.

Lemma ib_complete_recv_run (s : state) (qp iobuf rc : Z) (v : av_ptr)
    (q : ib_queue_pair) (c : ib_completion_queue) :
  qp_at s !! qp = Some q ->
  cq_at s !! wq_cq (recv q) = Some c ->
  ib_complete_recv qp v iobuf rc s =
    Done tt
      (set_qp_at
         (<[qp := set_recv (set_fill (uint (fill (recv q) - 1)) (recv q)) q]>
            (qp_at s))
         (set_trace (trace s ++ [recv_completion c qp v iobuf rc]) s)).
Proof.
  intros Hq Hc. unfold ib_complete_recv.
  rewrite (bind_run _ _ _ _ _ (load_qp_run _ _ _ Hq)).
  rewrite (bind_run _ _ _ _ _ (load_cq_run _ _ _ Hc)).
  unfold recv_completion, bind, ret, extern.
  destruct (complete_recv (op c) =? NULL); cbn [negb];
    (erewrite load_qp_run by (proj; exact Hq));
    (erewrite store_qp_run by (proj; exact Hq));
    reflexivity.
Qed.


Lemma av_target_set_trace (s : state) (t : list call) (p : av_ptr) :
  av_target (set_trace t s) p = av_target s p.
Proof. now destruct p. Qed.

Lemma av_target_set_fill (s : state) (t : list call) (qp : Z)
    (q q' : ib_queue_pair) (p : av_ptr) :
  qp_at s !! qp = Some q ->
  av q' = av q ->
  av_target (set_qp_at (<[qp := q']> (qp_at s)) (set_trace t s)) p
  = av_target s p.
Proof.
  intros Hq Hav. destruct p as [|a|p]; try reflexivity.
  unfold av_target. proj. rewrite lookup_insert.
  destruct (decide (qp = p)) as [->|]; [|reflexivity].
  rewrite Hq. cbn. now rewrite Hav.
Qed.

(** C5, as amended: a post to a work queue whose fill count equals its
    capacity fails without reaching the driver and without changing
    anything, the fill count included.  [ib_post_send] returns
    [-ENOBUFS]; so does [ib_post_recv] when the buffer has room for
    [IB_MAX_PAYLOAD_SIZE] bytes, and for a smaller buffer it returns
    [-EINVAL], because it checks the buffer before the fill count. *)
Theorem full_queue_post_rejected (s : state) (qp : Z) (q : ib_queue_pair) :
  qp_at s !! qp = Some q ->
  (fill (send q) = num_wqes (send q) ->
   forall v iobuf, ib_post_send qp v iobuf s = Done (- ENOBUFS) s) /\
  (fill (recv q) = num_wqes (recv q) ->
   forall iobuf b,
     iob_at s !! iobuf = Some b ->
     ib_post_recv qp iobuf s =
       Done (if iob_tailroom b <? IB_MAX_PAYLOAD_SIZE
             then - EINVAL else - ENOBUFS) s).
Proof.
  intros Hq. split.
  - intros Hfull v iobuf. unfold ib_post_send.
    rewrite (bind_run _ _ _ _ _ (load_qp_run _ _ _ Hq)).
    replace (fill (send q) >=? num_wqes (send q)) with true; [reflexivity|].
    symmetry. apply Z.geb_le. lia.
  - intros Hfull iobuf b Hb.
    rewrite (ib_post_recv_run _ _ _ _ _ Hq Hb).
    destruct (iob_tailroom b <? IB_MAX_PAYLOAD_SIZE); [reflexivity|].
    replace (fill (recv q) >=? num_wqes (recv q)) with true; [reflexivity|].
    symmetry. apply Z.geb_le. lia.
Qed.

(** C9: [ib_post_send] changes no address vector that a pointer of a
    caller can designate, neither the one passed to it nor the default
    vector stored in a queue pair; the defaults go into the local copy,
    and the driver's post operation is handed that copy. *)
Theorem ib_post_send_keeps_callers_vector (s : state) (qp iobuf : Z)
    (q : ib_queue_pair) (v0 : av_ptr) (src : ib_address_vector) :
  qp_at s !! qp = Some q ->
  av_target s (match v0 with AvNull => AvOfQp qp | _ => v0 end) = Some src ->
  exists rc s',
    ib_post_send qp v0 iobuf s = Done rc s' /\
    (forall p, av_target s' p = av_target s p) /\
    (num_wqes (send q) <= fill (send q) -> trace s' = trace s) /\
    (fill (send q) < num_wqes (send q) ->
     trace s' = trace s ++ [OpPostSend qp (av_defaulted q src) iobuf]).
Proof.
  intros Hq Hsrc. rewrite (ib_post_send_run _ _ _ _ _ _ Hq Hsrc).
  destruct (fill (send q) >=? num_wqes (send q)) eqn:Efull.
  - apply Z.geb_le in Efull. do 2 eexists. split; [reflexivity|].
    repeat split; intros; try reflexivity; lia.
  - assert (fill (send q) < num_wqes (send q)) as Hlt.
    { destruct (Z.ltb_spec (fill (send q)) (num_wqes (send q))); [lia|].
      assert ((fill (send q) >=? num_wqes (send q)) = true)
        by (apply Z.geb_le; lia). congruence. }
    cbv zeta. destruct (answer _ _ =? 0); do 2 eexists;
      (split; [reflexivity|]); (split; [|split; intros; [lia|reflexivity]]);
      intros p.
    + now apply av_target_set_fill with (q := q).
    + apply av_target_set_trace.
Qed.

(** C10: when the caller passes a vector of its own and the queue is
    not full, the vector the driver's post operation receives has the
    queue pair's queue key wherever the caller's queue key is zero, and
    the baseline rate wherever the caller's rate is zero; a non-zero
    field is passed on as it is.  A queue key of zero can therefore not
    be asked for: it is read as no queue key given. *)
Theorem ib_post_send_zero_is_unset (s : state) (qp iobuf : Z)
    (q : ib_queue_pair) (v0 : av_ptr) (src : ib_address_vector) :
  qp_at s !! qp = Some q ->
  v0 <> AvNull ->
  av_target s v0 = Some src ->
  fill (send q) < num_wqes (send q) ->
  exists rc s' v,
    ib_post_send qp v0 iobuf s = Done rc s' /\
    trace s' = trace s ++ [OpPostSend qp v iobuf] /\
    (av_qkey src = 0 -> av_qkey v = qkey q) /\
    (rate src = 0 -> rate v = IB_RATE_2_5) /\
    (av_qkey src <> 0 -> av_qkey v = av_qkey src) /\
    (rate src <> 0 -> rate v = rate src) /\
    av_dest v = av_dest src /\ av_sl v = av_sl src.
Proof.
  intros Hq Hnn Hsrc Hlt.
  assert (av_target s (match v0 with AvNull => AvOfQp qp | _ => v0 end)
          = Some src) as Hsrc' by (destruct v0; [congruence | exact Hsrc ..]).
  rewrite (ib_post_send_run _ _ _ _ _ _ Hq Hsrc').
  replace (fill (send q) >=? num_wqes (send q)) with false.
  2: { symmetry. destruct (fill (send q) >=? num_wqes (send q)) eqn:E;
       [apply Z.geb_le in E; lia | reflexivity]. }
  cbv zeta.
  assert (Hfields :
    (av_qkey src = 0 -> av_qkey (av_defaulted q src) = qkey q) /\
    (rate src = 0 -> rate (av_defaulted q src) = IB_RATE_2_5) /\
    (av_qkey src <> 0 -> av_qkey (av_defaulted q src) = av_qkey src) /\
    (rate src <> 0 -> rate (av_defaulted q src) = rate src) /\
    av_dest (av_defaulted q src) = av_dest src /\
    av_sl (av_defaulted q src) = av_sl src).
  { unfold av_defaulted. proj.
    destruct (Z.eqb_spec (av_qkey src) 0), (Z.eqb_spec (rate src) 0);
      repeat split; intros; congruence. }
  destruct (answer _ _ =? 0); do 3 eexists;
    (split; [reflexivity|]); (split; [reflexivity|]); exact Hfields.
Qed.


(** *** The fill count of a work queue *)

Lemma uint_small (z : Z) : 0 <= z < UINT_MODULUS -> uint z = z.
Proof. intros H. unfold uint. now apply Z.mod_small. Qed.

Lemma ib_post_send_no_target (s : state) (qp iobuf : Z) (q : ib_queue_pair)
    (v0 : av_ptr) :
  qp_at s !! qp = Some q ->
  av_target s (match v0 with AvNull => AvOfQp qp | _ => v0 end) = None ->
  ib_post_send qp v0 iobuf s =
    if fill (send q) >=? num_wqes (send q) then Done (- ENOBUFS) s
    else Fault.
Proof.
  intros Hq Hnone. unfold ib_post_send.
  rewrite (bind_run _ _ _ _ _ (load_qp_run _ _ _ Hq)).
  destruct (fill (send q) >=? num_wqes (send q)); [reflexivity|].
  unfold bind at 1.
  replace (load_av_ptr _ s) with (@Fault ib_address_vector); [reflexivity|].
  destruct v0 as [|a|p]; unfold load_av_ptr, av_target in *.
  - rewrite Hq in Hnone. discriminate.
  - now rewrite Hnone.
  - unfold bind, load_qp. destruct (qp_at s !! p); [discriminate|reflexivity].
Qed.

(** What one call does to the fill count of the send ([snd = true]) or
    receive work queue of the queue pair. *)
Lemma run_wq_call_fill (snd : bool) (s s' : state) (qp : Z)
    (q : ib_queue_pair) (c : wq_call) (e : wq_event) :
  ENOBUFS <> 0 -> EINVAL <> 0 ->
  qp_at s !! qp = Some q ->
  run_wq_call qp c s = Done e s' ->
  exists q',
    qp_at s' !! qp = Some q' /\
    num_wqes (wq_of snd q') = num_wqes (wq_of snd q) /\
    match e with
    | Posted d rc =>
        if bool_decide (d = snd) && (rc =? 0)
        then fill (wq_of snd q) < num_wqes (wq_of snd q) /\
             fill (wq_of snd q') = uint (fill (wq_of snd q) + 1)
        else fill (wq_of snd q') = fill (wq_of snd q)
    | Completed d =>
        fill (wq_of snd q') =
          if bool_decide (d = snd) then uint (fill (wq_of snd q) - 1)
          else fill (wq_of snd q)
    end.
Proof.
  intros HB HI Hq Hrun. destruct c as [v iobuf|iobuf|iobuf rc|v iobuf rc];
    unfold run_wq_call in Hrun; apply bind_inv in Hrun;
    destruct Hrun as (r & s1 & Hcall & Hret); unfold ret in Hret;
    injection Hret as <- <-.
  - (* ib_post_send *)
    destruct (av_target s (match v with AvNull => AvOfQp qp | _ => v end))
      as [src|] eqn:Esrc.
    + rewrite (ib_post_send_run _ _ _ _ _ _ Hq Esrc) in Hcall.
      destruct (fill (send q) >=? num_wqes (send q)) eqn:Efull.
      * injection Hcall as <- <-. exists q. repeat split; [assumption|].
        replace (- ENOBUFS =? 0) with false
          by (symmetry; apply Z.eqb_neq; lia).
        now rewrite andb_false_r.
      * cbv zeta in Hcall. destruct (answer _ _ =? 0) eqn:Ea;
          injection Hcall as <- <-; proj.
        -- rewrite lookup_insert_eq. eexists. split; [reflexivity|].
           destruct snd; cbn; split; try reflexivity.
           split; [|reflexivity].
           destruct (Z.ltb_spec (fill (send q)) (num_wqes (send q)));
             [assumption|].
           assert ((fill (send q) >=? num_wqes (send q)) = true)
             by (apply Z.geb_le; lia). congruence.
        -- exists q. rewrite Ea, andb_false_r. now repeat split.
    + rewrite (ib_post_send_no_target _ _ _ _ _ Hq Esrc) in Hcall.
      destruct (fill (send q) >=? num_wqes (send q)); [|discriminate].
      injection Hcall as <- <-. exists q. repeat split; [assumption|].
      replace (- ENOBUFS =? 0) with false
        by (symmetry; apply Z.eqb_neq; lia).
      now rewrite andb_false_r.
  - (* ib_post_recv *)
    destruct (iob_at s !! iobuf) as [b|] eqn:Eb.
    2: { unfold ib_post_recv, bind, load_iob in Hcall.
         rewrite Eb in Hcall. discriminate. }
    rewrite (ib_post_recv_run _ _ _ _ _ Hq Eb) in Hcall.
    destruct (iob_tailroom b <? IB_MAX_PAYLOAD_SIZE).
    { injection Hcall as <- <-. exists q. repeat split; [assumption|].
      replace (- EINVAL =? 0) with false
        by (symmetry; apply Z.eqb_neq; lia).
      now rewrite andb_false_r. }
    destruct (fill (recv q) >=? num_wqes (recv q)) eqn:Efull.
    + injection Hcall as <- <-. exists q. repeat split; [assumption|].
      replace (- ENOBUFS =? 0) with false
        by (symmetry; apply Z.eqb_neq; lia).
      now rewrite andb_false_r.
    + cbv zeta in Hcall. destruct (answer _ _ =? 0) eqn:Ea;
        injection Hcall as <- <-; proj.
      * rewrite lookup_insert_eq. eexists. split; [reflexivity|].
        destruct snd; cbn; split; try reflexivity.
        split; [|reflexivity].
        destruct (Z.ltb_spec (fill (recv q)) (num_wqes (recv q)));
          [assumption|].
        assert ((fill (recv q) >=? num_wqes (recv q)) = true)
          by (apply Z.geb_le; lia). congruence.
      * exists q. rewrite Ea, andb_false_r. now repeat split.
  - (* ib_complete_send *)
    destruct (cq_at s !! wq_cq (send q)) as [c|] eqn:Ec.
    2: { unfold ib_complete_send in Hcall.
         rewrite (bind_run _ _ _ _ _ (load_qp_run _ _ _ Hq)) in Hcall.
         unfold bind, load_cq in Hcall. rewrite Ec in Hcall. discriminate. }
    rewrite (ib_complete_send_run _ _ _ _ _ _ Hq Ec) in Hcall.
    injection Hcall as <- <-. proj. rewrite lookup_insert_eq.
    eexists. split; [reflexivity|]. destruct snd; cbn; now split.
  - (* ib_complete_recv *)
    destruct (cq_at s !! wq_cq (recv q)) as [c|] eqn:Ec.
    2: { unfold ib_complete_recv in Hcall.
         rewrite (bind_run _ _ _ _ _ (load_qp_run _ _ _ Hq)) in Hcall.
         unfold bind, load_cq in Hcall. rewrite Ec in Hcall. discriminate. }
    rewrite (ib_complete_recv_run _ _ _ _ _ _ _ Hq Ec) in Hcall.
    injection Hcall as <- <-. proj. rewrite lookup_insert_eq.
    eexists. split; [reflexivity|]. destruct snd; cbn; now split.
Qed.


Lemma run_wq_calls_cons_inv (qp : Z) (c : wq_call) (l : list wq_call)
    (s s' : state) (es : list wq_event) :
  run_wq_calls qp (c :: l) s = Done es s' ->
  exists e es1 s1,
    es = e :: es1 /\
    run_wq_call qp c s = Done e s1 /\
    run_wq_calls qp l s1 = Done es1 s'.
Proof.
  cbn [run_wq_calls]. intros H.
  apply bind_inv in H. destruct H as (e & s1 & He & H).
  apply bind_inv in H. destruct H as (es1 & s2 & Hes & H).
  unfold ret in H. injection H as <- <-. eauto 6.
Qed.

(** A run of a sequence of calls contains the runs of its prefixes. *)
Lemma run_wq_calls_prefix (qp : Z) (l : list wq_call) :
  forall (s s' : state) (es : list wq_event) (k : nat),
    run_wq_calls qp l s = Done es s' ->
    exists sk, run_wq_calls qp (take k l) s = Done (take k es) sk.
Proof.
  induction l as [|c l IH]; intros s s' es k Hrun.
  - cbn in Hrun. unfold ret in Hrun. injection Hrun as <- <-.
    exists s. now destruct k.
  - apply run_wq_calls_cons_inv in Hrun.
    destruct Hrun as (e & es1 & s1 & -> & He & Hes).
    destruct k as [|k].
    + exists s. reflexivity.
    + destruct (IH _ _ _ k Hes) as (sk & Hk). exists sk.
      rewrite !firstn_cons. cbn [run_wq_calls].
      rewrite (bind_run _ _ _ _ _ He), (bind_run _ _ _ _ _ Hk).
      reflexivity.
Qed.

(** From any fill count within the capacity, and as long as no
    completion comes without an entry to complete, the fill count
    moves with the posts and completions and stays within the
    capacity. *)
Lemma fill_tracks (snd : bool) (qp : Z) (l : list wq_call) :
  ENOBUFS <> 0 -> EINVAL <> 0 ->
  forall (s s' : state) (q : ib_queue_pair) (es : list wq_event),
    qp_at s !! qp = Some q ->
    0 <= fill (wq_of snd q) <= num_wqes (wq_of snd q) ->
    num_wqes (wq_of snd q) < UINT_MODULUS ->
    run_wq_calls qp l s = Done es s' ->
    (forall k : nat,
       completions_delivered snd (take k es)
       <= fill (wq_of snd q) + posts_succeeded snd (take k es)) ->
    exists q',
      qp_at s' !! qp = Some q' /\
      num_wqes (wq_of snd q') = num_wqes (wq_of snd q) /\
      fill (wq_of snd q') =
        fill (wq_of snd q) + posts_succeeded snd es
        - completions_delivered snd es /\
      0 <= fill (wq_of snd q') <= num_wqes (wq_of snd q').
Proof.
  intros HB HI. induction l as [|c l IH]; intros s s' q es Hq Hf Hn Hrun Hm.
  - cbn in Hrun. unfold ret in Hrun. injection Hrun as <- <-.
    exists q. cbn. repeat split; try assumption; lia.
  - apply run_wq_calls_cons_inv in Hrun.
    destruct Hrun as (e & es1 & s1 & -> & He & Hes).
    destruct (run_wq_call_fill snd _ _ _ _ _ _ HB HI Hq He)
      as (q1 & Hq1 & Hn1 & Hstep).
    pose proof (Hm 1%nat) as Hm1. rewrite firstn_cons, take_0 in Hm1.
    assert (Hq1f :
      fill (wq_of snd q1) =
        fill (wq_of snd q) + posts_succeeded snd [e]
        - completions_delivered snd [e] /\
      0 <= fill (wq_of snd q1) <= num_wqes (wq_of snd q)).
    { destruct e as [d rc|d]; cbn [posts_succeeded completions_delivered]
        in *.
      - destruct (bool_decide (d = snd) && (rc =? 0)).
        + destruct Hstep as [Hlt ->]. rewrite uint_small by lia. lia.
        + rewrite Hstep. lia.
      - rewrite Hstep. destruct (bool_decide (d = snd)).
        + rewrite uint_small by lia. lia.
        + lia. }
    destruct Hq1f as [Hq1f Hq1r].
    destruct (IH s1 s' q1 es1 Hq1) as (q' & Hq' & Hn' & Hf' & Hr');
      try assumption; try lia.
    { intros k. pose proof (Hm (S k)) as Hk. rewrite firstn_cons in Hk.
      rewrite Hq1f.
      destruct e as [d rc|d]; cbn [posts_succeeded completions_delivered]
        in *; lia. }
    exists q'. repeat split; try lia; try assumption.
    rewrite Hf', Hq1f.
    destruct e as [d rc|d]; cbn [posts_succeeded completions_delivered];
      lia.
Qed.

(** C1: on a work queue that starts empty, whatever sequence of
    [ib_post_send], [ib_post_recv], [ib_complete_send] and
    [ib_complete_recv] calls is made on its queue pair, and as long as
    every completion on that queue matches a prior successful post,
    the fill count after each call of the sequence is the number of
    posts that have succeeded minus the number of completions that
    have been delivered, and lies between zero and [num_wqes]. *)
Theorem fill_is_posts_minus_completions (snd : bool) (qp : Z)
    (l : list wq_call) (s s' : state) (q : ib_queue_pair)
    (es : list wq_event) :
  ENOBUFS <> 0 -> EINVAL <> 0 ->
  qp_at s !! qp = Some q ->
  fill (wq_of snd q) = 0 ->
  0 <= num_wqes (wq_of snd q) < UINT_MODULUS ->
  run_wq_calls qp l s = Done es s' ->
  completions_matched snd es ->
  forall k : nat,
    exists sk qk,
      run_wq_calls qp (take k l) s = Done (take k es) sk /\
      qp_at sk !! qp = Some qk /\
      num_wqes (wq_of snd qk) = num_wqes (wq_of snd q) /\
      fill (wq_of snd qk) =
        posts_succeeded snd (take k es)
        - completions_delivered snd (take k es) /\
      0 <= fill (wq_of snd qk) <= num_wqes (wq_of snd qk).
Proof.
  intros HB HI Hq Hf Hn Hrun Hm k.
  destruct (run_wq_calls_prefix _ _ _ _ _ k Hrun) as (sk & Hk).
  destruct (fill_tracks snd qp (take k l) HB HI s sk q (take k es) Hq)
    as (qk & Hqk & Hnk & Hfk & Hrk); try assumption; try lia.
  { intros j. rewrite take_take, Hf. pose proof (Hm (j `min` k)%nat). lia. }
  exists sk, qk. repeat split; try assumption; try lia.
Qed.


(** *** [ib_destroy_qp] *)

Lemma refilled_same (q : ib_queue_pair) :
  refilled (fill (send q)) (fill (recv q)) q = q.
Proof. now destruct q as [? ? ? ? [] [] ? ?]. Qed.

Lemma fills_changed_refl (qp : Z) (q : ib_queue_pair) (s : state) :
  qp_at s !! qp = Some q -> fills_changed qp q s s.
Proof.
  intros Hq. repeat split. exists (fill (send q)), (fill (recv q)).
  rewrite refilled_same. symmetry. now apply insert_id.
Qed.

Lemma fills_changed_trans (qp : Z) (q : ib_queue_pair) (f g : Z)
    (s s1 s' : state) :
  fills_changed qp q s s1 ->
  fills_changed qp (refilled f g q) s1 s' ->
  fills_changed qp q s s'.
Proof.
  intros (Hd & Hc & Ha & Hi & f1 & g1 & Hq)
         (Hd' & Hc' & Ha' & Hi' & f2 & g2 & Hq').
  repeat split; try congruence.
  exists f2, g2. rewrite Hq', Hq, insert_insert_eq. reflexivity.
Qed.

Lemma occupied_cons (x : Z) (l : list Z) :
  occupied (x :: l) = if x =? NULL then occupied l else x :: occupied l.
Proof.
  unfold occupied. rewrite filter_cons.
  destruct (Z.eqb_spec x NULL); destruct (decide (x <> NULL));
    first [reflexivity | congruence | contradiction].
Qed.

Lemma cancel_send_loop_run (qp : Z) (c : ib_completion_queue) (n : nat) :
  forall (i : Z) (s : state) (q : ib_queue_pair),
    qp_at s !! qp = Some q ->
    cq_at s !! wq_cq (send q) = Some c ->
    0 <= i ->
    i + Z.of_nat n < UINT_MODULUS ->
    (Z.to_nat i + n <= length (iobufs (send q)))%nat ->
    exists s',
      cancel_send_loop qp n i s = Done tt s' /\
      fills_changed qp q s s' /\
      trace s' =
        trace s ++
        map (send_cancellation c qp)
          (occupied (take n (drop (Z.to_nat i) (iobufs (send q))))).
Proof.
  induction n as [|n IH]; intros i s q Hq Hc Hi Hmax Hlen.
  - exists s. split; [reflexivity|]. split; [now apply fills_changed_refl|].
    rewrite take_0. cbn. now rewrite app_nil_r.
  - cbn [cancel_send_loop].
    rewrite (bind_run _ _ _ _ _ (load_qp_run _ _ _ Hq)).
    destruct (lookup_lt_is_Some_2 (iobufs (send q)) (Z.to_nat i))
      as [iobuf Hslot]; [lia|].
    rewrite Hslot, (drop_S _ _ _ Hslot), firstn_cons, occupied_cons.
    assert (uint (i + 1) = i + 1) as -> by (apply uint_small; lia).
    assert (Z.to_nat (i + 1) = S (Z.to_nat i)) as Hsucc by lia.
    destruct (iobuf =? NULL); cbn [negb].
    + unfold bind at 1. unfold ret at 1.
      destruct (IH (i + 1) s q) as (s' & Hrun & Hch & Htr);
        try assumption; try lia.
      exists s'. rewrite Hsucc in Htr. auto.
    + pose proof (ib_complete_send_run s qp iobuf (- ECANCELED) q c Hq Hc)
        as Hone.
      set (q1 := set_send (set_fill (uint (fill (send q) - 1)) (send q)) q) in *.
      set (s1 := set_qp_at _ _) in Hone.
      assert (qp_at s1 !! qp = Some q1) as Hq1
        by (subst s1; proj; apply lookup_insert_eq).
      destruct (IH (i + 1) s1 q1 Hq1 Hc ltac:(lia) ltac:(lia)
                  ltac:(subst q1; proj; lia))
        as (s' & Hrun & Hch & Htr).
      exists s'. split; [now rewrite (bind_run _ _ _ _ _ Hone)|]. split.
      * apply fills_changed_trans
          with (f := uint (fill (send q) - 1)) (g := fill (recv q))
               (s1 := s1).
        -- repeat split. exists (uint (fill (send q) - 1)), (fill (recv q)).
           subst s1 q1. proj. f_equal. now destruct q as [? ? ? ? ? [] ? ?].
        -- replace (refilled _ _ q) with q1; [exact Hch|].
           subst q1. now destruct q as [? ? ? ? ? [] ? ?].
      * rewrite Htr, Hsucc. subst s1. proj. cbn [map].
        rewrite <- app_assoc. reflexivity.
Qed.

Lemma cancel_recv_loop_run (qp : Z) (c : ib_completion_queue) (n : nat) :
  forall (i : Z) (s : state) (q : ib_queue_pair),
    qp_at s !! qp = Some q ->
    cq_at s !! wq_cq (recv q) = Some c ->
    0 <= i ->
    i + Z.of_nat n < UINT_MODULUS ->
    (Z.to_nat i + n <= length (iobufs (recv q)))%nat ->
    exists s',
      cancel_recv_loop qp n i s = Done tt s' /\
      fills_changed qp q s s' /\
      trace s' =
        trace s ++
        map (recv_cancellation c qp)
          (occupied (take n (drop (Z.to_nat i) (iobufs (recv q))))).
Proof.
  induction n as [|n IH]; intros i s q Hq Hc Hi Hmax Hlen.
  - exists s. split; [reflexivity|]. split; [now apply fills_changed_refl|].
    rewrite take_0. cbn. now rewrite app_nil_r.
  - cbn [cancel_recv_loop].
    rewrite (bind_run _ _ _ _ _ (load_qp_run _ _ _ Hq)).
    destruct (lookup_lt_is_Some_2 (iobufs (recv q)) (Z.to_nat i))
      as [iobuf Hslot]; [lia|].
    rewrite Hslot, (drop_S _ _ _ Hslot), firstn_cons, occupied_cons.
    assert (uint (i + 1) = i + 1) as -> by (apply uint_small; lia).
    assert (Z.to_nat (i + 1) = S (Z.to_nat i)) as Hsucc by lia.
    destruct (iobuf =? NULL); cbn [negb].
    + unfold bind at 1. unfold ret at 1.
      destruct (IH (i + 1) s q) as (s' & Hrun & Hch & Htr);
        try assumption; try lia.
      exists s'. rewrite Hsucc in Htr. auto.
    + pose proof (ib_complete_recv_run s qp iobuf (- ECANCELED) AvNull q c Hq Hc)
        as Hone.
      set (q1 := set_recv (set_fill (uint (fill (recv q) - 1)) (recv q)) q) in *.
      set (s1 := set_qp_at _ _) in Hone.
      assert (qp_at s1 !! qp = Some q1) as Hq1
        by (subst s1; proj; apply lookup_insert_eq).
      destruct (IH (i + 1) s1 q1 Hq1 Hc ltac:(lia) ltac:(lia)
                  ltac:(subst q1; proj; lia))
        as (s' & Hrun & Hch & Htr).
      exists s'. split; [now rewrite (bind_run _ _ _ _ _ Hone)|]. split.
      * apply fills_changed_trans
          with (f := fill (send q)) (g := uint (fill (recv q) - 1))
               (s1 := s1).
        -- repeat split. exists (fill (send q)), (uint (fill (recv q) - 1)).
           subst s1 q1. proj. f_equal. now destruct q as [? ? ? ? [] ? ? ?].
        -- replace (refilled _ _ q) with q1; [exact Hch|].
           subst q1. now destruct q as [? ? ? ? [] ? ? ?].
      * rewrite Htr, Hsucc. subst s1. proj. cbn [map].
        rewrite <- app_assoc. reflexivity.
Qed.


Lemma list_del_subset {A : Type} `{EqDecision A} (x y : A) (l : list A) :
  y ∈ list_del x l -> y ∈ l.
Proof.
  induction l as [|z l IH]; cbn; [easy|].
  destruct (decide (x = z)); rewrite !elem_of_cons; tauto.
Qed.

Lemma list_del_gone {A : Type} `{EqDecision A} (x : A) (l : list A) :
  NoDup l -> x ∉ list_del x l.
Proof.
  induction l as [|z l IH]; cbn; intros Hnd; [apply not_elem_of_nil|].
  apply NoDup_cons in Hnd as [Hz Hnd].
  destruct (decide (x = z)) as [->|Hne]; [assumption|].
  rewrite elem_of_cons. intros [?|?]; [congruence | now apply IH].
Qed.

(** [ib_find_qp_qpn] returns null or a member of the list it walks. *)
Lemma find_qp_qpn_loop_run (n : Z) (s : state) (l : list Z) :
  (forall p, p ∈ l -> is_Some (qp_at s !! p)) ->
  exists r, find_qp_qpn_loop n l s = Done r s /\ (r = NULL \/ r ∈ l).
Proof.
  induction l as [|p l IH]; intros Hval; cbn [find_qp_qpn_loop].
  - exists NULL. split; [reflexivity | now left].
  - destruct (Hval p) as [q Hq]; [apply elem_of_cons; now left|].
    rewrite (bind_run _ _ _ _ _ (load_qp_run _ _ _ Hq)).
    destruct ((n =? qpn q) || (n =? ext_qpn q)).
    + exists p. split; [reflexivity|]. right. apply elem_of_cons. now left.
    + destruct IH as (r & Hr & Hin).
      { intros p' Hp'. apply Hval, elem_of_cons. now right. }
      exists r. split; [exact Hr|].
      destruct Hin; [now left | right; apply elem_of_cons; now right].
Qed.

(** C2: [ib_destroy_qp] first calls the driver's destroy operation,
    then completes every non-empty send slot and every non-empty
    receive slot exactly once, in slot order and with status
    [-ECANCELED] (through the completion handler, or by freeing the
    buffer when the completion queue has none), and only then frees
    the queue pair; afterwards [ib_find_qp_qpn] returns the queue pair
    for no number at all, its internal and external numbers included. *)
Theorem ib_destroy_qp_cancels_then_frees (s : state) (qp : Z)
    (q : ib_queue_pair) (cs cr : ib_completion_queue) :
  qp <> NULL ->
  qp_at s !! qp = Some q ->
  mgids q = [] ->
  cq_at s !! wq_cq (send q) = Some cs ->
  cq_at s !! wq_cq (recv q) = Some cr ->
  0 <= num_wqes (send q) < UINT_MODULUS ->
  0 <= num_wqes (recv q) < UINT_MODULUS ->
  length (iobufs (send q)) = Z.to_nat (num_wqes (send q)) ->
  length (iobufs (recv q)) = Z.to_nat (num_wqes (recv q)) ->
  NoDup (qps (ibdev s)) ->
  (forall p, p ∈ qps (ibdev s) -> is_Some (qp_at s !! p)) ->
  exists s',
    ib_destroy_qp qp s = Done tt s' /\
    trace s' =
      trace s ++ [OpDestroyQp qp]
      ++ map (send_cancellation cs qp) (occupied (iobufs (send q)))
      ++ map (recv_cancellation cr qp) (occupied (iobufs (recv q)))
      ++ [Free qp] /\
    qp_at s' = delete qp (qp_at s) /\
    qps (ibdev s') = list_del qp (qps (ibdev s)) /\
    forall n, exists r, ib_find_qp_qpn n s' = Done r s' /\ r <> qp.
Proof.
  intros Hnn Hq Hm Hcs Hcr Hns Hnr Hls Hlr Hnd Hval.
  unfold ib_destroy_qp.
  rewrite (bind_run _ _ _ _ _ (load_qp_run _ _ _ Hq)).
  rewrite Hm. cbn [bool_decide decide_rel]. unfold assert.
  rewrite bool_decide_eq_true_2 by reflexivity.
  unfold bind at 1. unfold ret at 1.
  unfold bind at 1. unfold extern at 1.
  set (s0 := set_trace (trace s ++ [OpDestroyQp qp]) s).
  assert (qp_at s0 !! qp = Some q) as Hq0 by exact Hq.
  rewrite (bind_run _ _ _ _ _ (load_qp_run _ _ _ Hq0)).
  destruct (cancel_send_loop_run qp cs (Z.to_nat (num_wqes (send q))) 0
              s0 q Hq0 Hcs ltac:(lia) ltac:(lia) ltac:(lia))
    as (s1 & Hrun1 & (Hd1 & Hc1 & _ & _ & f1 & g1 & Hq1) & Htr1).
  rewrite (bind_run _ _ _ _ _ Hrun1).
  assert (qp_at s1 !! qp = Some (refilled f1 g1 q)) as Hq1'
    by (rewrite Hq1; apply lookup_insert_eq).
  rewrite (bind_run _ _ _ _ _ (load_qp_run _ _ _ Hq1')).
  assert (cq_at s1 !! wq_cq (recv (refilled f1 g1 q)) = Some cr) as Hcr1
    by (rewrite Hc1; exact Hcr).
  destruct (cancel_recv_loop_run qp cr (Z.to_nat (num_wqes (recv q))) 0
              s1 (refilled f1 g1 q) Hq1' Hcr1 ltac:(lia) ltac:(lia)
              ltac:(proj; lia))
    as (s2 & Hrun2 & (Hd2 & Hc2 & _ & _ & f2 & g2 & Hq2) & Htr2).
  rewrite (bind_run _ _ _ _ _ Hrun2).
  assert (qp_at s2 !! qp = Some (refilled f2 g2 q)) as Hq2'
    by (rewrite Hq2; apply lookup_insert_eq).
  rewrite (bind_run _ _ _ _ _ (load_qp_run _ _ _ Hq2')).
  proj.
  (* the two work queues leave their completion queues *)
  assert (cq_at s2 !! wq_cq (send q) = Some cs) as Hcs2
    by (rewrite Hc2, Hc1; exact Hcs).
  unfold cq_list_del at 1.
  unfold bind at 1.
  rewrite (bind_run _ _ _ _ _ (load_cq_run _ _ _ Hcs2)).
  rewrite (store_cq_run _ _ _ _ Hcs2).
  set (s3 := set_cq_at _ s2).
  assert (exists c, cq_at s3 !! wq_cq (recv q) = Some c) as [c3 Hc3].
  { subst s3. proj. rewrite lookup_insert.
    destruct (decide (wq_cq (send q) = wq_cq (recv q))); [eauto|].
    rewrite Hc2, Hc1. eauto. }
  unfold cq_list_del at 1.
  unfold bind at 1.
  rewrite (bind_run _ _ _ _ _ (load_cq_run _ _ _ Hc3)).
  rewrite (store_cq_run _ _ _ _ Hc3).
  set (s4 := set_cq_at _ s3).
  unfold bind, load_dev, store_dev, extern, release_qp.
  eexists. split; [reflexivity|]. subst s4 s3. proj.
  assert (Htake : forall l : list Z, take (length l) (drop 0 l) = l)
    by (intros l; rewrite drop_0; apply firstn_all).
  rewrite <- Hls, <- Hlr in *. proj.
  rewrite Htake in Htr1, Htr2.
  assert (Htr : trace s2 =
    trace s ++ [OpDestroyQp qp]
    ++ map (send_cancellation cs qp) (occupied (iobufs (send q)))
    ++ map (recv_cancellation cr qp) (occupied (iobufs (recv q)))).
  { rewrite Htr2, Htr1. subst s0. proj. now rewrite <- !app_assoc. }
  split; [|split; [|split]].
  - rewrite Htr, <- !app_assoc. reflexivity.
  - rewrite Hq2, Hq1. subst s0. proj.
    now rewrite insert_insert_eq, delete_insert_eq.
  - now rewrite Hd2, Hd1.
  - intros n. unfold ib_find_qp_qpn, bind, load_dev. proj.
    assert (qps (ibdev s2) = qps (ibdev s)) as Hl
      by (now rewrite Hd2, Hd1).
    match goal with
    | |- exists r, find_qp_qpn_loop n ?l ?st = _ /\ _ =>
        destruct (find_qp_qpn_loop_run n st l) as (r & Hr & Hin)
    end.
    + intros p Hp. proj.
      rewrite Hl in Hp.
      assert (p <> qp) as Hne.
      { intros ->. now apply (list_del_gone qp (qps (ibdev s))). }
      rewrite lookup_delete_ne by congruence.
      rewrite Hq2, Hq1. subst s0. proj.
      rewrite !lookup_insert_ne by congruence.
      apply Hval. now apply list_del_subset in Hp.
    + exists r. split; [exact Hr|].
      destruct Hin as [->|Hin]; [congruence|].
      intros ->.
      rewrite Hl in Hin.
      now apply (list_del_gone qp (qps (ibdev s))).
Qed.


(** *** [ib_create_qp] and [ib_find_qp_qpn] *)

Ltac head_scrutinee t :=
  lazymatch t with
  | match ?x with _ => _ end => head_scrutinee x
  | (match ?x with _ => _ end) _ => head_scrutinee x
  | _ => t
  end.

(** Case analysis on the next thing a run [H : m s = Done _ _] depends
    on. *)
Ltac next_case H :=
  cbv beta iota in H; proj;
  first
    [ rewrite lookup_insert_eq in H
    | lazymatch type of H with
      | Done _ _ = _ => fail
      | ?lhs = _ =>
          let x := head_scrutinee lhs in
          destruct x eqn:?; try discriminate H
      end ].

(** A successful [ib_create_qp] puts the new queue pair at the head of
    the device's list, with the number the driver assigned and the
    external number its type calls for. *)
Lemma ib_create_qp_done (ty : ib_queue_pair_type)
    (num_send_wqes send_cq num_recv_wqes recv_cq qp : Z) (s s' : state) :
  ib_create_qp ty num_send_wqes send_cq num_recv_wqes recv_cq s
    = Done qp s' ->
  qp <> NULL ->
  qps (ibdev s') = qp :: qps (ibdev s) /\
  exists q,
    qp_at s' !! qp = Some q /\
    type q = ty /\
    ext_qpn q = match ty with
                | IB_QPT_SMI => IB_QPN_SMI
                | IB_QPT_GSI => IB_QPN_GSI
                | _ => qpn q
                end.
Proof.
  intros H Hnn.
  cbv [ib_create_qp err_dev_create_qp cq_list_add cq_list_del bind extern
       new_qp release_qp load_dev store_dev load_cq store_cq load_qp
       store_qp ret] in H.
  repeat next_case H.
  all: injection H as <- <-; try (exfalso; apply Hnn; reflexivity).
  proj. split; [reflexivity|].
  eexists. split; [apply lookup_insert_eq|].
  proj. split; [reflexivity|]. now destruct ty.
Qed.

(** The lookup stops at the first queue pair of the list that carries
    the number, as internal or as external number. *)
Lemma ib_find_qp_qpn_head (s : state) (qp n : Z) (l : list Z)
    (q : ib_queue_pair) :
  qps (ibdev s) = qp :: l ->
  qp_at s !! qp = Some q ->
  n = qpn q \/ n = ext_qpn q ->
  ib_find_qp_qpn n s = Done qp s.
Proof.
  intros Hl Hq Hn. unfold ib_find_qp_qpn, bind, load_dev.
  rewrite Hl. cbn [find_qp_qpn_loop].
  rewrite (bind_run _ _ _ _ _ (load_qp_run _ _ _ Hq)).
  replace ((n =? qpn q) || (n =? ext_qpn q)) with true; [reflexivity|].
  symmetry. apply orb_true_iff.
  destruct Hn as [->| ->]; [left | right]; apply Z.eqb_refl.
Qed.

(** C7, as amended: a queue pair just created with the
    subnet-management type has the well-known number [IB_QPN_SMI] as
    its external number, and [ib_find_qp_qpn] returns it for that
    number and for its internal number alike: the lookup accepts
    either number. *)
Theorem smi_found_by_both_qpns (s s' : state)
    (num_send_wqes send_cq num_recv_wqes recv_cq qp : Z) :
  ib_create_qp IB_QPT_SMI num_send_wqes send_cq num_recv_wqes recv_cq s
    = Done qp s' ->
  qp <> NULL ->
  exists q,
    qp_at s' !! qp = Some q /\
    ext_qpn q = IB_QPN_SMI /\
    ib_find_qp_qpn (ext_qpn q) s' = Done qp s' /\
    ib_find_qp_qpn (qpn q) s' = Done qp s'.
Proof.
  intros Hc Hnn.
  destruct (ib_create_qp_done _ _ _ _ _ _ _ _ Hc Hnn)
    as (Hl & q & Hq & _ & Hext).
  exists q. repeat split; try assumption.
  - eapply ib_find_qp_qpn_head; eauto.
  - eapply ib_find_qp_qpn_head; eauto.
Qed.


(** *** Multicast memberships *)

Lemma memcmp_eq (a b : Z) : (memcmp a b =? 0) = (a =? b).
Proof.
  unfold memcmp. destruct (Z.compare_spec a b) as [->|H|H].
  - now rewrite !Z.eqb_refl.
  - symmetry. apply Z.eqb_neq. lia.
  - symmetry. apply Z.eqb_neq. lia.
Qed.

(** What [ib_mcast_attach] does to the membership list. *)
Lemma ib_mcast_attach_run (s : state) (qp : Z) (g : ib_gid)
    (q : ib_queue_pair) :
  qp_at s !! qp = Some q ->
  exists rc s' q',
    ib_mcast_attach qp g s = Done rc s' /\
    qp_at s' !! qp = Some q' /\
    ((rc = 0 /\ exists a, mgids q' = Build_mgid a g :: mgids q) \/
     (mgids q' = mgids q /\ (rc <> 0 \/ rc = - ENOMEM))).
Proof.
  intros Hq. unfold ib_mcast_attach.
  unfold bind at 1. unfold extern at 1.
  set (mgid := answer (trace s) (Zalloc sizeof_mgid)).
  set (s1 := set_trace _ s).
  assert (qp_at s1 !! qp = Some q) as Hq1 by exact Hq.
  destruct (mgid =? NULL).
  { exists (- ENOMEM), s1, q. split; [reflexivity|]. split; [exact Hq1|].
    right. split; [reflexivity | now right]. }
  rewrite (bind_run _ _ _ _ _ (load_qp_run _ _ _ Hq1)).
  rewrite (bind_run _ _ _ _ _ (store_qp_run _ _ _ _ Hq1)).
  unfold bind at 1. unfold extern at 1. proj.
  set (rc := answer _ _).
  destruct (Z.eqb_spec rc 0) as [Hrc|Hrc]; cbn [negb].
  - do 3 eexists. split; [reflexivity|]. proj.
    split; [apply lookup_insert_eq|]. left. split; [reflexivity|].
    proj. eauto.
  - erewrite bind_run by (apply load_qp_run; proj; apply lookup_insert_eq).
    erewrite bind_run
      by (eapply store_qp_run; proj; apply lookup_insert_eq).
    unfold bind, extern, ret. do 3 eexists. split; [reflexivity|]. proj.
    split; [apply lookup_insert_eq|]. right. split; [|now left].
    proj. cbn [mgid_list_del mgid_at]. now rewrite Z.eqb_refl.
Qed.

(** What [ib_mcast_detach] does to the membership list. *)
Lemma ib_mcast_detach_run (s : state) (qp : Z) (g : ib_gid)
    (q : ib_queue_pair) :
  qp_at s !! qp = Some q ->
  exists s' q',
    ib_mcast_detach qp g s = Done tt s' /\
    qp_at s' !! qp = Some q' /\
    mgids q' = match mgid_scan g (mgids q) with
               | Some (_, rest) => rest
               | None => mgids q
               end /\
    (mgid_scan g (mgids q) = None -> qp_at s' = qp_at s).
Proof.
  intros Hq. unfold ib_mcast_detach.
  unfold bind at 1. unfold extern at 1.
  set (s1 := set_trace _ s).
  assert (qp_at s1 !! qp = Some q) as Hq1 by exact Hq.
  rewrite (bind_run _ _ _ _ _ (load_qp_run _ _ _ Hq1)).
  destruct (mgid_scan g (mgids q)) as [[hit rest]|].
  - rewrite (bind_run _ _ _ _ _ (store_qp_run _ _ _ _ Hq1)).
    unfold bind, extern, ret. do 2 eexists. split; [reflexivity|]. proj.
    split; [apply lookup_insert_eq|]. split; [reflexivity | discriminate].
  - exists s1, q. repeat split. exact Hq1.
Qed.

Lemma entries_for_cons (g : ib_gid) (m : ib_multicast_gid)
    (l : list ib_multicast_gid) :
  entries_for g (m :: l) =
    if gid m =? g then S (entries_for g l) else entries_for g l.
Proof.
  unfold entries_for. rewrite filter_cons.
  destruct (Z.eqb_spec (gid m) g); destruct (decide (gid m = g));
    first [reflexivity | contradiction].
Qed.

(** Removing the first node of group [g] takes one entry of [g] away
    and leaves the other groups alone; when there is none to remove,
    [g] has no entry. *)
Lemma mgid_scan_entries (g g' : ib_gid) (l : list ib_multicast_gid) :
  match mgid_scan g l with
  | Some (hit, rest) =>
      entries_for g' rest =
        if g =? g' then Nat.pred (entries_for g' l) else entries_for g' l
  | None => entries_for g l = 0%nat
  end.
Proof.
  induction l as [|m l IH]; cbn [mgid_scan]; [reflexivity|].
  rewrite memcmp_eq. destruct (Z.eqb_spec (gid m) g) as [Hm|Hm].
  - rewrite entries_for_cons. subst g.
    destruct (Z.eqb_spec (gid m) g'); reflexivity.
  - destruct (mgid_scan g l) as [[hit rest]|].
    + rewrite !entries_for_cons, IH.
      destruct (Z.eqb_spec g g') as [<-|Hg].
      * destruct (Z.eqb_spec (gid m) g); [contradiction | reflexivity].
      * reflexivity.
    + rewrite entries_for_cons.
      destruct (Z.eqb_spec (gid m) g); [contradiction | exact IH].
Qed.

(** C8: on a queue pair without memberships, a successful attach of a
    group followed by a detach of that group leaves the membership
    list empty; a second detach of the group returns as well, and
    leaves every queue pair, this one's membership list included, as
    it was. *)
Theorem attach_detach_detach (s s1 : state) (qp : Z) (g : ib_gid)
    (q : ib_queue_pair) :
  qp_at s !! qp = Some q ->
  mgids q = [] ->
  ib_mcast_attach qp g s = Done 0 s1 ->
  exists s2 s3 q2,
    ib_mcast_detach qp g s1 = Done tt s2 /\
    qp_at s2 !! qp = Some q2 /\
    mgids q2 = [] /\
    ib_mcast_detach qp g s2 = Done tt s3 /\
    qp_at s3 = qp_at s2.
Proof.
  intros Hq Hm Hatt.
  destruct (ib_mcast_attach_run s qp g q Hq)
    as (rc & s1' & q1 & Hrun & Hq1 & Hcase).
  rewrite Hatt in Hrun. injection Hrun as <- <-.
  destruct (ib_mcast_detach_run s1 qp g q1 Hq1)
    as (s2 & q2 & Hdet & Hq2 & Hm2 & _).
  assert (mgids q2 = []) as Hm2'.
  { rewrite Hm2. destruct Hcase as [[_ [a ->]]|[-> _]]; rewrite Hm.
    - cbn [mgid_scan gid]. now rewrite memcmp_eq, Z.eqb_refl.
    - reflexivity. }
  destruct (ib_mcast_detach_run s2 qp g q2 Hq2)
    as (s3 & q3 & Hdet' & Hq3 & Hm3 & Hsame).
  exists s2, s3, q2. repeat split; try assumption.
  apply Hsame. now rewrite Hm2'.
Qed.

Lemma run_mcast_calls_tracks (qp : Z) (l : list mcast_call) :
  ENOMEM <> 0 ->
  forall (s : state) (q : ib_queue_pair),
    qp_at s !! qp = Some q ->
    exists log s' q',
      run_mcast_calls qp l s = Done log s' /\
      map fst log = l /\
      qp_at s' !! qp = Some q' /\
      forall g,
        entries_for g (mgids q')
        = memberships_due g (entries_for g (mgids q)) log.
Proof.
  intros HM. induction l as [|c l IH]; intros s q Hq.
  - exists [], s, q. now repeat split.
  - cbn [run_mcast_calls]. destruct c as [g|g]; cbn [run_mcast_call].
    + destruct (ib_mcast_attach_run s qp g q Hq)
        as (rc & s1 & q1 & Hrun & Hq1 & Hcase).
      destruct (IH s1 q1 Hq1) as (log & s' & q' & Hl & Hfst & Hq' & Hent).
      exists ((Attach g, rc) :: log), s', q'.
      rewrite (bind_run _ _ _ _ _ Hrun), (bind_run _ _ _ _ _ Hl).
      split; [reflexivity|]. split; [cbn; now rewrite Hfst|].
      split; [exact Hq'|]. intros g'. rewrite Hent.
      cbn [memberships_due]. f_equal.
      destruct Hcase as [[-> [a ->]]|[-> Hrc]].
      * rewrite entries_for_cons. cbn [gid]. now rewrite andb_true_r.
      * replace (rc =? 0) with false; [now rewrite andb_false_r|].
        symmetry. apply Z.eqb_neq. lia.
    + destruct (ib_mcast_detach_run s qp g q Hq)
        as (s1 & q1 & Hrun & Hq1 & Hm1 & _).
      destruct (IH s1 q1 Hq1) as (log & s' & q' & Hl & Hfst & Hq' & Hent).
      exists ((Detach g, 0) :: log), s', q'.
      assert ((ib_mcast_detach qp g ;; ret 0) s = Done 0 s1) as Hcall
        by (now rewrite (bind_run _ _ _ _ _ Hrun)).
      rewrite (bind_run _ _ _ _ _ Hcall), (bind_run _ _ _ _ _ Hl).
      split; [reflexivity|]. split; [cbn; now rewrite Hfst|].
      split; [exact Hq'|]. intros g'. rewrite Hent.
      cbn [memberships_due]. f_equal. rewrite Hm1.
      pose proof (mgid_scan_entries g g' (mgids q)) as Hs.
      destruct (mgid_scan g (mgids q)) as [[hit rest]|]; [exact Hs|].
      destruct (Z.eqb_spec g g') as [<-|]; [|reflexivity].
      now rewrite Hs.
Qed.

(** C6, as amended: after any sequence of [ib_mcast_attach] and
    [ib_mcast_detach] calls on a queue pair that starts without
    memberships, the entries of the membership list for a group are as
    many as the successful attaches of that group that no later detach
    has taken away; nothing keeps that number at one. *)
Theorem memberships_follow_attaches (s : state) (qp : Z)
    (q : ib_queue_pair) (l : list mcast_call) :
  ENOMEM <> 0 ->
  qp_at s !! qp = Some q ->
  mgids q = [] ->
  exists log s' q',
    run_mcast_calls qp l s = Done log s' /\
    map fst log = l /\
    qp_at s' !! qp = Some q' /\
    forall g, entries_for g (mgids q') = memberships_due g 0 log.
Proof.
  intros HM Hq Hm.
  destruct (run_mcast_calls_tracks qp l HM s q Hq)
    as (log & s' & q' & Hl & Hfst & Hq' & Hent).
  exists log, s', q'. repeat split; try assumption.
  intros g. rewrite Hent, Hm. reflexivity.
Qed.


(** *** [ib_open] and [ib_close] *)

Lemma eqb_NULL_false (p : Z) : p <> NULL -> (p =? NULL) = false.
Proof. intros H. now apply Z.eqb_neq. Qed.

Lemma eqb_0_false (z : Z) : z <> 0 -> (z =? 0) = false.
Proof. intros H. now apply Z.eqb_neq. Qed.

Ltac go := cbv beta iota; proj.

Ltac unfold_open :=
  cbv [ib_open ib_close err_open err_create_gsi err_create_sma
       err_create_smi bind extern load_dev store_dev assert ret];
  proj.

(** C4: when a step of a first [ib_open] on a closed device fails, be
    it the creation of the subnet-management interface, of the
    subnet-management agent, of the general-services interface, or the
    driver's open operation, [ib_open] returns a non-zero status with
    the open count back at zero, and what it had created before the
    failing step has been torn down, last created first.  Nothing else
    of the state has changed. *)
Theorem failed_first_open_leaves_closed (s : state) (st : open_step)
    (smi0 gsi0 : Z) :
  ENOMEM <> 0 ->
  open_count (ibdev s) = 0 ->
  fails_at s st smi0 gsi0 ->
  exists rc s',
    ib_open s = Done rc s' /\
    rc <> 0 /\
    open_count (ibdev s') = 0 /\
    trace s' =
      trace s ++ map fst (created_before st smi0 gsi0)
      ++ [attempt st smi0]
      ++ rev (map snd (created_before st smi0 gsi0)) /\
    qps (ibdev s') = qps (ibdev s) /\ cqs (ibdev s') = cqs (ibdev s) /\
    qp_at s' = qp_at s /\ cq_at s' = cq_at s.
Proof.
  intros HM Hclosed Hfail.
  destruct st; unfold fails_at in Hfail; cbv zeta in Hfail.
  - do 2 eexists. split.
    { unfold_open. rewrite Hclosed. change (0 >? 0) with false. go.
      rewrite Hfail. change (NULL =? NULL) with true. go.
      change (uint (0 + 1) =? 1) with true. go. reflexivity. }
    proj. repeat split;
      first [lia | assumption | (rewrite <- ?app_assoc; reflexivity)].
  - destruct Hfail as (Hsmi & Hnn & Hsma).
    do 2 eexists. split.
    { unfold_open. rewrite Hclosed. change (0 >? 0) with false. go.
      rewrite Hsmi, (eqb_NULL_false _ Hnn). go.
      rewrite (eqb_0_false _ Hsma). cbn [negb]. go.
      change (uint (0 + 1) =? 1) with true. go. reflexivity. }
    proj. repeat split;
      first [lia | assumption | (rewrite <- ?app_assoc; reflexivity)].
  - destruct Hfail as (Hsmi & Hnn & Hsma & Hgsi).
    do 2 eexists. split.
    { unfold_open. rewrite Hclosed. change (0 >? 0) with false. go.
      rewrite Hsmi, (eqb_NULL_false _ Hnn). go.
      rewrite Hsma. change (negb (0 =? 0)) with false. go.
      rewrite Hgsi. change (NULL =? NULL) with true. go.
      change (uint (0 + 1) =? 1) with true. go. reflexivity. }
    proj. repeat split;
      first [lia | assumption | (rewrite <- ?app_assoc; reflexivity)].
  - destruct Hfail as (Hsmi & Hnn & Hsma & Hgsi & Hgnn & Hopen).
    do 2 eexists. split.
    { unfold_open. rewrite Hclosed. change (0 >? 0) with false. go.
      rewrite Hsmi, (eqb_NULL_false _ Hnn). go.
      rewrite Hsma. change (negb (0 =? 0)) with false. go.
      rewrite Hgsi, (eqb_NULL_false _ Hgnn). go.
      rewrite (eqb_0_false _ Hopen). cbn [negb]. go.
      change (uint (0 + 1) =? 1) with true. go. reflexivity. }
    proj. repeat split;
      first [lia | assumption | (rewrite <- ?app_assoc; reflexivity)].
Qed.


(** A first [ib_open], in full: the four steps in order, each with its
    unwinding. *)
Lemma ib_open_closed_run (s : state) :
  open_count (ibdev s) = 0 ->
  ib_open s =
    let t0 := trace s in
    let smi0 := answer t0 (CreateMi IB_QPT_SMI) in
    let t1 := t0 ++ [CreateMi IB_QPT_SMI] in
    let d1 := set_smi smi0 (set_open_count 1 (ibdev s)) in
    if smi0 =? NULL
    then Done (- ENOMEM) (set_trace t1 (set_ibdev (set_open_count 0 d1) s))
    else
      let rc_sma := answer t1 (CreateSma smi0) in
      let t2 := t1 ++ [CreateSma smi0] in
      if negb (rc_sma =? 0)
      then Done rc_sma
             (set_trace (t2 ++ [DestroyMi smi0])
                (set_ibdev (set_open_count 0 d1) s))
      else
        let gsi0 := answer t2 (CreateMi IB_QPT_GSI) in
        let t3 := t2 ++ [CreateMi IB_QPT_GSI] in
        let d2 := set_gsi gsi0 d1 in
        if gsi0 =? NULL
        then Done (- ENOMEM)
               (set_trace ((t3 ++ [DestroySma smi0]) ++ [DestroyMi smi0])
                  (set_ibdev (set_open_count 0 d2) s))
        else
          let rc := answer t3 OpOpen in
          let t4 := t3 ++ [OpOpen] in
          if negb (rc =? 0)
          then Done rc
                 (set_trace
                    (((t4 ++ [DestroyMi gsi0]) ++ [DestroySma smi0])
                     ++ [DestroyMi smi0])
                    (set_ibdev (set_open_count 0 d2) s))
          else Done 0 (set_trace t4 (set_ibdev d2 s)).
Proof.
  destruct s as [[oc smi0 gsi0 cqs0 qps0] m1 m2 m3 m4 t]. proj.
  intros ->. cbv zeta. unfold_open. change (0 >? 0) with false. go.
  destruct (answer t (CreateMi IB_QPT_SMI) =? NULL); go.
  { change (uint (0 + 1) =? 1) with true. go. reflexivity. }
  destruct (negb (answer _ (CreateSma _) =? 0)); go.
  { change (uint (0 + 1) =? 1) with true. go. reflexivity. }
  destruct (answer _ (CreateMi IB_QPT_GSI) =? NULL); go.
  { change (uint (0 + 1) =? 1) with true. go. reflexivity. }
  destruct (negb (answer _ OpOpen =? 0)); go.
  { change (uint (0 + 1) =? 1) with true. go. reflexivity. }
  change (uint (0 + 1) =? 1) with true. go. reflexivity.
Qed.

(** A first [ib_open] that returns success has taken all four steps. *)
Lemma ib_open_first_ok (s s1 : state) :
  ENOMEM <> 0 ->
  open_count (ibdev s) = 0 ->
  ib_open s = Done 0 s1 ->
  exists smi0 gsi0, s1 = after_first_open s smi0 gsi0.
Proof.
  intros HM Hclosed Hrun. rewrite (ib_open_closed_run s Hclosed) in Hrun.
  cbv zeta in Hrun.
  destruct (answer (trace s) (CreateMi IB_QPT_SMI) =? NULL).
  { injection Hrun as Hrc _. lia. }
  destruct (Z.eqb_spec (answer (trace s ++ [CreateMi IB_QPT_SMI])
              (CreateSma (answer (trace s) (CreateMi IB_QPT_SMI)))) 0)
    as [Hsma|Hsma]; cbn [negb] in Hrun.
  2: { injection Hrun as Hrc _. contradiction. }
  destruct (answer _ (CreateMi IB_QPT_GSI) =? NULL).
  { injection Hrun as Hrc _. lia. }
  destruct (Z.eqb_spec (answer
              (((trace s ++ [CreateMi IB_QPT_SMI]) ++
                [CreateSma (answer (trace s) (CreateMi IB_QPT_SMI))]) ++
               [CreateMi IB_QPT_GSI]) OpOpen) 0)
    as [Hopen|Hopen]; cbn [negb] in Hrun.
  2: { injection Hrun as Hrc _. contradiction. }
  injection Hrun as <-. do 2 eexists. unfold after_first_open.
  rewrite <- !app_assoc. reflexivity.
Qed.

(** On an open device [ib_open] only counts. *)
Lemma ib_open_again (s : state) :
  0 < open_count (ibdev s) ->
  ib_open s = Done 0 (with_open_count (uint (open_count (ibdev s) + 1)) s).
Proof.
  intros Hopen. unfold_open.
  replace (open_count (ibdev s) >? 0) with true; [reflexivity|].
  symmetry. apply Z.gtb_lt. exact Hopen.
Qed.

(** [ib_close] counts, and tears down when the count reaches zero. *)
Lemma ib_close_run (s : state) :
  ib_close s =
    Done tt
      (if uint (open_count (ibdev s) - 1) =? 0 then after_last_close s
       else with_open_count (uint (open_count (ibdev s) - 1)) s).
Proof.
  destruct s as [[oc smi0 gsi0 cqs0 qps0] m1 m2 m3 m4 t].
  unfold_open. unfold after_last_close, with_open_count. proj.
  destruct (Z.eqb_spec (uint (oc - 1)) 0) as [->|_]; go; [|reflexivity].
  rewrite <- !app_assoc. reflexivity.
Qed.


Lemma with_open_count_same (s : state) :
  with_open_count (open_count (ibdev s)) s = s.
Proof. now destruct s as [[] ? ? ? ? ?]. Qed.

(** Further opens of an open device: [j] more calls after [m] only
    move the count, as long as it does not wrap. *)
Lemma opens_more (m : M bool) (s0 st : state) (ok : bool) (j : N) :
  m s0 = Done ok st ->
  0 < open_count (ibdev st) < UINT_MODULUS ->
  open_count (ibdev st) + Z.of_N j <= UINT_MODULUS ->
  N.iter j and_open m s0 =
    Done ok (with_open_count (uint (open_count (ibdev st) + Z.of_N j)) st).
Proof.
  intros Hm Hpos. induction j as [|j IH] using N.peano_ind; intros Hmax.
  - cbn [N.iter]. rewrite Hm, Z.add_0_r, uint_small by lia.
    now rewrite with_open_count_same.
  - rewrite N.iter_succ. unfold and_open at 1.
    rewrite (bind_run _ _ _ _ _ (IH ltac:(lia))).
    rewrite uint_small by lia.
    set (st1 := with_open_count (open_count (ibdev st) + Z.of_N j) st).
    assert (0 < open_count (ibdev st1)) as Hpos1
      by (subst st1; proj; lia).
    rewrite (bind_run _ _ _ _ _ (ib_open_again st1 Hpos1)).
    unfold ret. rewrite andb_true_r. f_equal.
    subst st1. unfold with_open_count. proj.
    replace (open_count (ibdev st) + Z.of_N j + 1)
      with (open_count (ibdev st) + Z.of_N (N.succ j)) by lia.
    reflexivity.
Qed.

(** If the calls so far include a failed one, so do the calls after
    one more. *)
Lemma opens_flag (m : M bool) (s0 st : state) (j : N) :
  N.iter j and_open m s0 = Done true st ->
  exists st0, m s0 = Done true st0.
Proof.
  revert st. induction j as [|j IH] using N.peano_ind; intros st H.
  - eauto.
  - rewrite N.iter_succ in H. unfold and_open at 1 in H.
    apply bind_inv in H. destruct H as (ok & s1 & Hj & H).
    apply bind_inv in H. destruct H as (rc & s2 & _ & H).
    unfold ret in H. injection H as Hok _.
    apply andb_true_iff in Hok as [-> _]. eauto.
Qed.

Lemma uint_pred (z : Z) : uint (uint z - 1) = uint (z - 1).
Proof. unfold uint. apply Zminus_mod_idemp_l. Qed.

(** Closes that are not the last: from a count of [c], [j < c] calls
    only move the count. *)
Lemma closes_some (st : state) (c : Z) (j : N) :
  open_count (ibdev st) = uint c ->
  Z.of_N j < c <= UINT_MODULUS ->
  ib_close_times j st = Done tt (with_open_count (uint (c - Z.of_N j)) st).
Proof.
  intros Hc. unfold ib_close_times.
  induction j as [|j IH] using N.peano_ind; intros Hj.
  - cbn [N.iter]. rewrite Z.sub_0_r, <- Hc.
    now rewrite with_open_count_same.
  - rewrite N.iter_succ. unfold and_close at 1.
    rewrite (bind_run _ _ _ _ _ (IH ltac:(lia))).
    rewrite ib_close_run. proj. rewrite uint_pred.
    replace (c - Z.of_N j - 1) with (c - Z.of_N (N.succ j)) by lia.
    rewrite (uint_small (c - Z.of_N (N.succ j))) by lia.
    destruct (Z.eqb_spec (c - Z.of_N (N.succ j)) 0); [lia | reflexivity].
Qed.

(** The [c]-th close from a count of [c] is the last one. *)
Lemma closes_all (st : state) (c : Z) (k : N) :
  open_count (ibdev st) = uint c ->
  Z.of_N k = c -> 0 < c <= UINT_MODULUS ->
  ib_close_times k st = Done tt (after_last_close st).
Proof.
  intros Hc Hk Hr.
  destruct (N.eq_dec k 0) as [->|Hk0]; [lia|].
  rewrite <- (N.succ_pred k) by assumption.
  unfold ib_close_times. rewrite N.iter_succ. unfold and_close at 1.
  fold (ib_close_times (N.pred k)).
  rewrite (bind_run _ _ _ _ _ (closes_some st c (N.pred k) Hc ltac:(lia))).
  rewrite ib_close_run. proj. rewrite uint_pred.
  replace (c - Z.of_N (N.pred k) - 1) with 0 by lia.
  change (uint 0 =? 0) with true. cbv iota.
  unfold after_last_close, with_open_count. proj. reflexivity.
Qed.

Lemma hw_opens_app (t l : list call) :
  hw_opens (t ++ l) = (hw_opens t + hw_opens l)%nat.
Proof. unfold hw_opens. now rewrite filter_app, length_app. Qed.

Lemma hw_closes_app (t l : list call) :
  hw_closes (t ++ l) = (hw_closes t + hw_closes l)%nat.
Proof. unfold hw_closes. now rewrite filter_app, length_app. Qed.


Lemma and_open_first (s s1 : state) :
  and_open (ret true) s = Done true s1 -> ib_open s = Done 0 s1.
Proof.
  unfold and_open, bind, ret. destruct (ib_open s) as [rc st|]; [|easy].
  intros H. injection H as Hrc <-. cbn [andb] in Hrc.
  apply Z.eqb_eq in Hrc. now subst rc.
Qed.

Lemma ib_open_times_succ (j : N) :
  ib_open_times (N.succ j) = N.iter j and_open (and_open (ret true)).
Proof. unfold ib_open_times. apply N.iter_succ_r. Qed.

(** After a successful first [ib_open], up to [2^32] calls in all only
    move the count. *)
Lemma opens_after_first (s s1 : state) (j : N) :
  and_open (ret true) s = Done true s1 ->
  open_count (ibdev s1) = 1 ->
  (0 < j)%N -> Z.of_N j <= UINT_MODULUS ->
  ib_open_times j s = Done true (with_open_count (uint (Z.of_N j)) s1).
Proof.
  intros Hfirst Hone Hj Hmax. rewrite <- (N.succ_pred j) by lia.
  rewrite ib_open_times_succ.
  rewrite (opens_more _ _ _ _ (N.pred j) Hfirst).
  - rewrite Hone.
    replace (1 + Z.of_N (N.pred j)) with (Z.of_N (N.succ (N.pred j)))
      by lia.
    reflexivity.
  - rewrite Hone. unfold UINT_MODULUS. lia.
  - rewrite Hone. lia.
Qed.

(** Closes after the calls [m] are closes from the state [m] leaves. *)
Lemma closes_after (m : M unit) (s st : state) (j : N) :
  m s = Done tt st ->
  N.iter j and_close m s = ib_close_times j st.
Proof.
  intros Hm. unfold ib_close_times.
  induction j as [|j IH] using N.peano_ind.
  - cbn [N.iter]. exact Hm.
  - rewrite !N.iter_succ. unfold and_close at 1 3. unfold bind.
    now rewrite IH.
Qed.

(** One more open after [j], and one close before [j] more. *)
Lemma ib_open_times_last (j : N) (s st st' : state) (ok : bool) (rc : Z) :
  ib_open_times j s = Done ok st ->
  ib_open st = Done rc st' ->
  ib_open_times (N.succ j) s = Done (ok && (rc =? 0)) st'.
Proof.
  intros Hj Hopen. unfold ib_open_times in *. rewrite N.iter_succ.
  unfold and_open at 1.
  rewrite (bind_run _ _ _ _ _ Hj), (bind_run _ _ _ _ _ Hopen).
  reflexivity.
Qed.

Lemma ib_close_times_first (j : N) (s st : state) :
  ib_close s = Done tt st ->
  ib_close_times (N.succ j) s = ib_close_times j st.
Proof.
  intros Hclose. unfold ib_close_times at 1. rewrite N.iter_succ_r.
  apply closes_after. unfold and_close, bind, ret. exact Hclose.
Qed.

(** C3, as amended: on a closed device, [k] calls of [ib_open] that all
    succeed followed by [k] calls of [ib_close], for [k] from 1 up to
    [2^32] (the open count is a 32-bit counter), reach the hardware
    open operation once, in the first [ib_open], and the hardware
    close operation once, in the last [ib_close]; every other call
    changes the open count and nothing else. *)
Theorem open_close_reach_hardware_once (k : N) (s sk : state) :
  ENOMEM <> 0 ->
  open_count (ibdev s) = 0 ->
  (0 < k)%N ->
  Z.of_N k <= UINT_MODULUS ->
  ib_open_times k s = Done true sk ->
  exists smi0 gsi0,
    let s1 := after_first_open s smi0 gsi0 in
    ib_open s = Done 0 s1 /\
    (forall j, (0 < j <= k)%N ->
       ib_open_times j s = Done true (with_open_count (uint (Z.of_N j)) s1)) /\
    (forall j, (j < k)%N ->
       ib_close_times j sk =
         Done tt (with_open_count (uint (Z.of_N k - Z.of_N j)) s1)) /\
    ib_close_times k sk = Done tt (after_last_close s1) /\
    hw_opens (trace (after_last_close s1)) = S (hw_opens (trace s)) /\
    hw_closes (trace (after_last_close s1)) = S (hw_closes (trace s)).
Proof.
  intros HM Hclosed Hk Hmax Hrun.
  assert (exists s1, and_open (ret true) s = Done true s1) as [s1 Hfirst].
  { rewrite <- (N.succ_pred k) in Hrun by lia.
    rewrite ib_open_times_succ in Hrun.
    now apply opens_flag in Hrun. }
  pose proof (and_open_first _ _ Hfirst) as Hopen.
  destruct (ib_open_first_ok _ _ HM Hclosed Hopen) as (smi0 & gsi0 & ->).
  exists smi0, gsi0. cbv zeta.
  set (s1 := after_first_open s smi0 gsi0) in *.
  assert (Hopens : forall j, (0 < j <= k)%N ->
    ib_open_times j s = Done true (with_open_count (uint (Z.of_N j)) s1)).
  { intros j Hj. apply opens_after_first; try assumption;
      [reflexivity | lia..]. }
  assert (sk = with_open_count (uint (Z.of_N k)) s1) as ->.
  { rewrite (Hopens k) in Hrun by lia. now injection Hrun. }
  split; [exact Hopen|]. split; [exact Hopens|]. split; [|split].
  - intros j Hj.
    rewrite (closes_some _ (Z.of_N k) j) by (proj; lia || reflexivity).
    reflexivity.
  - rewrite (closes_all _ (Z.of_N k) k) by (proj; lia || reflexivity).
    reflexivity.
  - subst s1. unfold after_last_close, after_first_open. proj.
    rewrite !hw_opens_app, !hw_closes_app. split.
    + change (hw_opens [_; _; _; OpOpen]) with 1%nat.
      change (hw_opens [_; _; _; OpClose]) with 0%nat. lia.
    + change (hw_closes [_; _; _; OpOpen]) with 0%nat.
      change (hw_closes [_; _; _; OpClose]) with 1%nat. lia.
Qed.



(** *** Looking up queue pairs *)

Lemma find_qp_qpn_loop_first (n : Z) (s : state) (l : list Z) :
  (forall p, p ∈ l -> is_Some (qp_at s !! p)) ->
  (find_qp_qpn_loop n l s = Done NULL s /\
   forall p q, p ∈ l -> qp_at s !! p = Some q -> has_qpn n q = false) \/
  (exists l1 r l2 q,
     l = l1 ++ r :: l2 /\
     find_qp_qpn_loop n l s = Done r s /\
     qp_at s !! r = Some q /\ has_qpn n q = true /\
     forall p q', p ∈ l1 -> qp_at s !! p = Some q' -> has_qpn n q' = false).
Proof.
  induction l as [|p l IH]; intros Hval.
  - left. split; [reflexivity|]. intros p q Hin. inversion Hin.
  - destruct (Hval p) as [q Hq]; [apply elem_of_cons; now left|].
    cbn [find_qp_qpn_loop].
    rewrite (bind_run _ _ _ _ _ (load_qp_run _ _ _ Hq)).
    destruct ((n =? qpn q) || (n =? ext_qpn q)) eqn:E.
    + right. exists [], p, l, q.
      repeat split; try assumption; try reflexivity.
      intros p' q' Hin. inversion Hin.
    + destruct IH as [[Hrun Hno]|(l1 & r & l2 & q' & -> & Hrun & Hq' & Hhas & Hno)].
      { intros p' Hin. apply Hval, elem_of_cons. now right. }
      * left. split; [exact Hrun|].
        intros p' q' Hin Hq'. apply elem_of_cons in Hin as [->|Hin].
        -- rewrite Hq in Hq'. injection Hq' as <-. exact E.
        -- now apply (Hno p').
      * right. exists (p :: l1), r, l2, q'.
        repeat split; try assumption; try reflexivity.
        intros p' q0 Hin Hq0. apply elem_of_cons in Hin as [->|Hin].
        -- rewrite Hq in Hq0. injection Hq0 as <-. exact E.
        -- now apply (Hno p').
Qed.

(** X1: [ib_find_qp_qpn] walks the device's queue pairs from the head and
    returns the first one whose internal or external number is the one
    asked for; it returns the null pointer exactly when the loop has
    found no such queue pair.  It changes nothing. *)
Theorem ib_find_qp_qpn_first_match (n : Z) (s : state) :
  (forall p, p ∈ qps (ibdev s) -> is_Some (qp_at s !! p)) ->
  (ib_find_qp_qpn n s = Done NULL s /\
   forall p q,
     p ∈ qps (ibdev s) -> qp_at s !! p = Some q -> has_qpn n q = false) \/
  (exists l1 r l2 q,
     qps (ibdev s) = l1 ++ r :: l2 /\
     ib_find_qp_qpn n s = Done r s /\
     qp_at s !! r = Some q /\ has_qpn n q = true /\
     forall p q', p ∈ l1 -> qp_at s !! p = Some q' -> has_qpn n q' = false).
Proof.
  intros Hval. unfold ib_find_qp_qpn, bind, load_dev.
  exact (find_qp_qpn_loop_first n s (qps (ibdev s)) Hval).
Qed.

Lemma mgid_member_elem (g : ib_gid) (l : list ib_multicast_gid) :
  mgid_member g l = true <-> g ∈ map gid l.
Proof.
  induction l as [|m l IH]; cbn [mgid_member map].
  - split; [discriminate|]. intros H. inversion H.
  - rewrite memcmp_eq, elem_of_cons. destruct (Z.eqb_spec (gid m) g) as [E|E].
    + split; [now left | reflexivity].
    + rewrite IH. split; [now right|]. intros [H|H]; [congruence | exact H].
Qed.

Lemma mgid_member_not_elem (g : ib_gid) (l : list ib_multicast_gid) :
  mgid_member g l = false <-> g ∉ map gid l.
Proof.
  rewrite <- mgid_member_elem. destruct (mgid_member g l); split;
    congruence.
Qed.

Lemma find_qp_mgid_loop_first (g : ib_gid) (s : state) (l : list Z) :
  (forall p, p ∈ l -> is_Some (qp_at s !! p)) ->
  (find_qp_mgid_loop g l s = Done NULL s /\
   forall p q, p ∈ l -> qp_at s !! p = Some q -> g ∉ map gid (mgids q)) \/
  (exists l1 r l2 q,
     l = l1 ++ r :: l2 /\
     find_qp_mgid_loop g l s = Done r s /\
     qp_at s !! r = Some q /\ g ∈ map gid (mgids q) /\
     forall p q', p ∈ l1 -> qp_at s !! p = Some q' -> g ∉ map gid (mgids q')).
Proof.
  induction l as [|p l IH]; intros Hval.
  - left. split; [reflexivity|]. intros p q Hin. inversion Hin.
  - destruct (Hval p) as [q Hq]; [apply elem_of_cons; now left|].
    cbn [find_qp_mgid_loop].
    rewrite (bind_run _ _ _ _ _ (load_qp_run _ _ _ Hq)).
    destruct (mgid_member g (mgids q)) eqn:E.
    + right. exists [], p, l, q. apply mgid_member_elem in E.
      repeat split; try assumption; try reflexivity.
      intros p' q' Hin. inversion Hin.
    + apply mgid_member_not_elem in E.
      destruct IH as [[Hrun Hno]|(l1 & r & l2 & q' & -> & Hrun & Hq' & Hhas & Hno)].
      { intros p' Hin. apply Hval, elem_of_cons. now right. }
      * left. split; [exact Hrun|].
        intros p' q' Hin Hq'. apply elem_of_cons in Hin as [->|Hin].
        -- rewrite Hq in Hq'. injection Hq' as <-. exact E.
        -- now apply (Hno p').
      * right. exists (p :: l1), r, l2, q'.
        repeat split; try assumption; try reflexivity.
        intros p' q0 Hin Hq0. apply elem_of_cons in Hin as [->|Hin].
        -- rewrite Hq in Hq0. injection Hq0 as <-. exact E.
        -- now apply (Hno p').
Qed.

(** X2: [ib_find_qp_mgid] returns the first queue pair of the device's list
    that has a membership of the group, and the null pointer exactly
    when the loop has found none.  It changes nothing. *)
Theorem ib_find_qp_mgid_first_match (g : ib_gid) (s : state) :
  (forall p, p ∈ qps (ibdev s) -> is_Some (qp_at s !! p)) ->
  (ib_find_qp_mgid g s = Done NULL s /\
   forall p q,
     p ∈ qps (ibdev s) -> qp_at s !! p = Some q ->
     g ∉ map gid (mgids q)) \/
  (exists l1 r l2 q,
     qps (ibdev s) = l1 ++ r :: l2 /\
     ib_find_qp_mgid g s = Done r s /\
     qp_at s !! r = Some q /\ g ∈ map gid (mgids q) /\
     forall p q', p ∈ l1 -> qp_at s !! p = Some q' ->
       g ∉ map gid (mgids q')).
Proof.
  intros Hval. unfold ib_find_qp_mgid, bind, load_dev.
  exact (find_qp_mgid_loop_first g s (qps (ibdev s)) Hval).
Qed.

(** *** Multicast memberships, in full *)

Lemma set_mgids_same (q : ib_queue_pair) : set_mgids (mgids q) q = q.
Proof. now destruct q. Qed.

Lemma set_qp_at_same (s : state) (p : Z) (q : ib_queue_pair) :
  qp_at s !! p = Some q -> set_qp_at (<[p := q]> (qp_at s)) s = s.
Proof.
  intros H. rewrite (insert_id _ _ _ H). now destruct s.
Qed.

Lemma ib_mcast_attach_state (s : state) (qp : Z) (g : ib_gid)
    (q : ib_queue_pair) :
  qp_at s !! qp = Some q ->
  ib_mcast_attach qp g s =
    let mgid := answer (trace s) (Zalloc sizeof_mgid) in
    let t0 := trace s ++ [Zalloc sizeof_mgid] in
    if mgid =? NULL then Done (- ENOMEM) (set_trace t0 s)
    else
      let rc := answer t0 (OpMcastAttach qp g) in
      let t1 := t0 ++ [OpMcastAttach qp g] in
      if rc =? 0
      then Done 0
             (set_qp_at
                (<[qp := set_mgids (Build_mgid mgid g :: mgids q) q]>
                   (qp_at s))
                (set_trace t1 s))
      else Done rc (set_trace (t1 ++ [Free mgid]) s).
Proof.
  intros Hq. cbv zeta. unfold ib_mcast_attach.
  unfold bind at 1. unfold extern at 1.
  set (mgid := answer (trace s) (Zalloc sizeof_mgid)).
  set (s1 := set_trace _ s).
  assert (qp_at s1 !! qp = Some q) as Hq1 by exact Hq.
  destruct (mgid =? NULL); [reflexivity|].
  rewrite (bind_run _ _ _ _ _ (load_qp_run _ _ _ Hq1)).
  rewrite (bind_run _ _ _ _ _ (store_qp_run _ _ _ _ Hq1)).
  unfold bind at 1. unfold extern at 1. proj.
  set (rc := answer _ _).
  destruct (rc =? 0); cbn [negb]; [reflexivity|].
  erewrite bind_run by (apply load_qp_run; proj; apply lookup_insert_eq).
  erewrite bind_run
    by (eapply store_qp_run; proj; apply lookup_insert_eq).
  unfold bind, extern, ret. proj. cbn [mgid_list_del mgid_at].
  rewrite Z.eqb_refl.
  change (set_mgids (mgids q) (set_mgids _ q)) with (set_mgids (mgids q) q).
  rewrite set_mgids_same, insert_insert_eq.
  subst s1. proj. rewrite (insert_id _ _ _ Hq).
  now destruct s.
Qed.

(** X3: [ib_mcast_attach] adds the membership or leaves none behind.  When
    it returns zero, a new node for the group stands at the head of the
    queue pair's list and the driver has been asked once.  When it
    returns anything else, every queue pair is as it was, and the node,
    if one was allocated, has been freed again.  In both cases the
    device, the completion queues, the address vectors and the buffers
    are untouched. *)
Theorem ib_mcast_attach_all_or_nothing (s : state) (qp : Z) (g : ib_gid)
    (q : ib_queue_pair) :
  ENOMEM <> 0 ->
  qp_at s !! qp = Some q ->
  exists rc s',
    ib_mcast_attach qp g s = Done rc s' /\
    ibdev s' = ibdev s /\ cq_at s' = cq_at s /\ av_at s' = av_at s /\
    iob_at s' = iob_at s /\
    (rc = 0 ->
     exists a,
       a <> NULL /\
       qp_at s' = <[qp := set_mgids (Build_mgid a g :: mgids q) q]> (qp_at s) /\
       trace s' = trace s ++ [Zalloc sizeof_mgid; OpMcastAttach qp g]) /\
    (rc <> 0 ->
     qp_at s' = qp_at s /\
     (trace s' = trace s ++ [Zalloc sizeof_mgid] \/
      exists a,
        a <> NULL /\
        trace s' =
          trace s ++ [Zalloc sizeof_mgid; OpMcastAttach qp g; Free a])).
Proof.
  intros Hnz Hq. rewrite (ib_mcast_attach_state s qp g q Hq). cbv zeta.
  set (mgid := answer (trace s) (Zalloc sizeof_mgid)).
  destruct (Z.eqb_spec mgid NULL) as [Hnull|Hnull].
  { do 2 eexists. split; [reflexivity|]. proj.
    do 4 (split; [reflexivity|]). split; [intros H0; lia|].
    intros _. split; [reflexivity | now left]. }
  destruct (Z.eqb_spec (answer (trace s ++ [Zalloc sizeof_mgid])
                          (OpMcastAttach qp g)) 0) as [Hrc|Hrc].
  - do 2 eexists. split; [reflexivity|]. proj.
    do 4 (split; [reflexivity|]). split; [|congruence].
    intros _. exists mgid. split; [exact Hnull|].
    split; [reflexivity|]. now rewrite <- app_assoc.
  - do 2 eexists. split; [reflexivity|]. proj.
    do 4 (split; [reflexivity|]). split; [congruence|].
    intros _. split; [reflexivity|].
    right. exists mgid. split; [exact Hnull|].
    now rewrite <- !app_assoc.
Qed.

Lemma mgid_scan_first (g : ib_gid) (l1 : list ib_multicast_gid)
    (m : ib_multicast_gid) (l2 : list ib_multicast_gid) :
  g ∉ map gid l1 -> gid m = g ->
  mgid_scan g (l1 ++ m :: l2) = Some (m, l1 ++ l2).
Proof.
  intros Hno Hm. induction l1 as [|m1 l1 IH]; cbn [app mgid_scan].
  - now rewrite memcmp_eq, Hm, Z.eqb_refl.
  - cbn [map] in Hno. apply not_elem_of_cons in Hno as [Hne Hno].
    rewrite memcmp_eq. destruct (Z.eqb_spec (gid m1) g); [congruence|].
    now rewrite (IH Hno).
Qed.

Lemma mgid_scan_none (g : ib_gid) (l : list ib_multicast_gid) :
  g ∉ map gid l -> mgid_scan g l = None.
Proof.
  induction l as [|m l IH]; cbn [map mgid_scan]; [reflexivity|].
  intros Hno. apply not_elem_of_cons in Hno as [Hne Hno].
  rewrite memcmp_eq. destruct (Z.eqb_spec (gid m) g); [congruence|].
  now rewrite (IH Hno).
Qed.

Lemma ib_mcast_detach_state (s : state) (qp : Z) (g : ib_gid)
    (q : ib_queue_pair) :
  qp_at s !! qp = Some q ->
  ib_mcast_detach qp g s =
    match mgid_scan g (mgids q) with
    | Some (hit, rest) =>
        Done tt
          (set_qp_at (<[qp := set_mgids rest q]> (qp_at s))
             (set_trace
                (trace s ++ [OpMcastDetach qp g; Free (mgid_at hit)]) s))
    | None => Done tt (set_trace (trace s ++ [OpMcastDetach qp g]) s)
    end.
Proof.
  intros Hq. unfold ib_mcast_detach.
  unfold bind at 1. unfold extern at 1.
  set (s1 := set_trace _ s).
  assert (qp_at s1 !! qp = Some q) as Hq1 by exact Hq.
  rewrite (bind_run _ _ _ _ _ (load_qp_run _ _ _ Hq1)).
  destruct (mgid_scan g (mgids q)) as [[hit rest]|]; [|reflexivity].
  rewrite (bind_run _ _ _ _ _ (store_qp_run _ _ _ _ Hq1)).
  unfold bind, extern, ret. subst s1. proj. now rewrite <- app_assoc.
Qed.

(** X4: [ib_mcast_detach] asks the driver to detach, then unlinks and frees
    the first node of the queue pair's list that holds the group: the
    nodes before and after it, other memberships of the same group
    among them, stay in their order. *)
Theorem ib_mcast_detach_removes_first (s : state) (qp : Z) (g : ib_gid)
    (q : ib_queue_pair) (l1 l2 : list ib_multicast_gid)
    (m : ib_multicast_gid) :
  qp_at s !! qp = Some q ->
  mgids q = l1 ++ m :: l2 ->
  gid m = g ->
  g ∉ map gid l1 ->
  ib_mcast_detach qp g s =
    Done tt
      (set_qp_at (<[qp := set_mgids (l1 ++ l2) q]> (qp_at s))
         (set_trace (trace s ++ [OpMcastDetach qp g; Free (mgid_at m)]) s)).
Proof.
  intros Hq Hl Hm Hno. rewrite (ib_mcast_detach_state s qp g q Hq), Hl.
  now rewrite (mgid_scan_first g l1 m l2 Hno Hm).
Qed.

(** X5: A detach of a group the queue pair is no member of still reaches
    the driver, and does nothing else. *)
Theorem ib_mcast_detach_nonmember (s : state) (qp : Z) (g : ib_gid)
    (q : ib_queue_pair) :
  qp_at s !! qp = Some q ->
  g ∉ map gid (mgids q) ->
  ib_mcast_detach qp g s =
    Done tt (set_trace (trace s ++ [OpMcastDetach qp g]) s).
Proof.
  intros Hq Hno. rewrite (ib_mcast_detach_state s qp g q Hq).
  now rewrite (mgid_scan_none g (mgids q) Hno).
Qed.

(** X6: After a successful attach, [ib_find_qp_mgid] finds a member of the
    group: the queue pair just attached, when no queue pair of the
    device was a member before. *)
Theorem attached_group_is_found (s s1 : state) (qp : Z) (g : ib_gid) :
  ENOMEM <> 0 ->
  qp ∈ qps (ibdev s) ->
  (forall p, p ∈ qps (ibdev s) -> is_Some (qp_at s !! p)) ->
  ib_mcast_attach qp g s = Done 0 s1 ->
  exists r q',
    ib_find_qp_mgid g s1 = Done r s1 /\
    r ∈ qps (ibdev s1) /\
    qp_at s1 !! r = Some q' /\ g ∈ map gid (mgids q') /\
    ((forall p q0, p ∈ qps (ibdev s) -> qp_at s !! p = Some q0 ->
        g ∉ map gid (mgids q0)) ->
     r = qp).
Proof.
  intros Hnz Hin Hval Hatt.
  destruct (Hval qp Hin) as [q Hq].
  rewrite (ib_mcast_attach_state s qp g q Hq) in Hatt. cbv zeta in Hatt.
  destruct (answer (trace s) (Zalloc sizeof_mgid) =? NULL).
  { injection Hatt as Hrc _. lia. }
  destruct (Z.eqb_spec (answer (trace s ++ [Zalloc sizeof_mgid])
                          (OpMcastAttach qp g)) 0) as [Hrc|Hrc];
    [|injection Hatt as Hrc' _; congruence].
  injection Hatt as <-.
  set (s1 := set_qp_at _ _).
  assert (Hval1 : forall p, p ∈ qps (ibdev s1) -> is_Some (qp_at s1 !! p)).
  { intros p Hp. subst s1. proj. rewrite lookup_insert.
    destruct (decide (qp = p)); [eauto | now apply Hval]. }
  assert (Hq1 : qp_at s1 !! qp
                = Some (set_mgids (Build_mgid
                          (answer (trace s) (Zalloc sizeof_mgid)) g
                          :: mgids q) q))
    by (subst s1; proj; apply lookup_insert_eq).
  unfold ib_find_qp_mgid, bind, load_dev.
  destruct (find_qp_mgid_loop_first g s1 (qps (ibdev s1)) Hval1)
    as [[_ Hno]|(l1 & r & l2 & q' & Hl & Hrun & Hr & Hmem & _)].
  - exfalso. apply (Hno qp _ Hin Hq1). proj. cbn [map gid].
    apply elem_of_cons. now left.
  - exists r, q'. repeat split; try assumption.
    + rewrite Hl. apply elem_of_app. right. apply elem_of_cons. now left.
    + intros Hnone. destruct (decide (r = qp)) as [|Hne]; [assumption|].
      exfalso. subst s1. proj. rewrite lookup_insert_ne in Hr by congruence.
      apply (Hnone r q'); [|exact Hr|exact Hmem].
      rewrite Hl.
      apply elem_of_app. right. apply elem_of_cons. now left.
Qed.

(** *** Posts that fail, completions that match no post *)

Lemma same_objects_refl (s : state) : same_objects s s.
Proof. now repeat split. Qed.

Lemma same_objects_set_trace (s : state) (t : list call) :
  same_objects s (set_trace t s).
Proof. now repeat split. Qed.

Lemma ib_post_recv_short_run (s : state) (qp iobuf : Z) (b : io_buffer) :
  iob_at s !! iobuf = Some b ->
  iob_tailroom b < IB_MAX_PAYLOAD_SIZE ->
  ib_post_recv qp iobuf s = Done (- EINVAL) s.
Proof.
  intros Hb Hshort. unfold ib_post_recv.
  rewrite (bind_run _ _ _ _ _ (load_iob_run _ _ _ Hb)).
  replace (iob_tailroom b <? IB_MAX_PAYLOAD_SIZE) with true; [reflexivity|].
  symmetry. now apply Z.ltb_lt.
Qed.

(** X7: [ib_post_recv] checks the buffer before anything else: a buffer
    with less room than [IB_MAX_PAYLOAD_SIZE] is refused with [-EINVAL]
    whatever the fill level is, without a driver call and without a
    look at the queue pair, which need not even exist. *)
Theorem ib_post_recv_short_buffer (s : state) (qp iobuf : Z)
    (b : io_buffer) :
  iob_at s !! iobuf = Some b ->
  iob_tailroom b < IB_MAX_PAYLOAD_SIZE ->
  ib_post_recv qp iobuf s = Done (- EINVAL) s.
Proof. exact (ib_post_recv_short_run s qp iobuf b). Qed.

(** X8: A post that returns a non-zero status has changed no object: the
    fill counts, the slot arrays, the address vectors and the buffers
    are as before, and at most one driver call has been made. *)
Theorem rejected_post_changes_nothing (s s' : state) (qp iobuf : Z)
    (v0 : av_ptr) (rc : Z) :
  ib_post_send qp v0 iobuf s = Done rc s' \/
  ib_post_recv qp iobuf s = Done rc s' ->
  rc <> 0 ->
  same_objects s s' /\
  (trace s' = trace s \/ exists c, trace s' = trace s ++ [c]).
Proof.
  intros [Hrun|Hrun] Hrc.
  - destruct (qp_at s !! qp) as [q|] eqn:Hq;
      [|unfold ib_post_send, bind, load_qp in Hrun; now rewrite Hq in Hrun].
    destruct (av_target s (match v0 with AvNull => AvOfQp qp | _ => v0 end))
      as [src|] eqn:Hsrc.
    + rewrite (ib_post_send_run _ _ _ _ _ _ Hq Hsrc) in Hrun.
      destruct (fill (send q) >=? num_wqes (send q)).
      { injection Hrun as _ <-. split; [apply same_objects_refl | now left]. }
      cbv zeta in Hrun.
      destruct (answer _ _ =? 0); injection Hrun as Hrc' <-; [congruence|].
      split; [apply same_objects_set_trace | right; eauto].
    + rewrite (ib_post_send_no_target _ _ _ _ _ Hq Hsrc) in Hrun.
      destruct (fill (send q) >=? num_wqes (send q)); [|discriminate].
      injection Hrun as _ <-. split; [apply same_objects_refl | now left].
  - destruct (iob_at s !! iobuf) as [b|] eqn:Hb;
      [|unfold ib_post_recv, bind, load_iob in Hrun; now rewrite Hb in Hrun].
    destruct (Z.ltb_spec (iob_tailroom b) IB_MAX_PAYLOAD_SIZE) as [Hs|Hs].
    { rewrite (ib_post_recv_short_run _ _ _ _ Hb Hs) in Hrun.
      injection Hrun as _ <-. split; [apply same_objects_refl | now left]. }
    destruct (qp_at s !! qp) as [q|] eqn:Hq.
    + rewrite (ib_post_recv_run _ _ _ _ _ Hq Hb) in Hrun.
      destruct (iob_tailroom b <? IB_MAX_PAYLOAD_SIZE).
      { injection Hrun as _ <-. split; [apply same_objects_refl | now left]. }
      destruct (fill (recv q) >=? num_wqes (recv q)).
      { injection Hrun as _ <-. split; [apply same_objects_refl | now left]. }
      cbv zeta in Hrun.
      destruct (answer _ _ =? 0); injection Hrun as Hrc' <-; [congruence|].
      split; [apply same_objects_set_trace | right; eauto].
    + unfold ib_post_recv in Hrun.
      rewrite (bind_run _ _ _ _ _ (load_iob_run _ _ _ Hb)) in Hrun.
      replace (iob_tailroom b <? IB_MAX_PAYLOAD_SIZE) with false in Hrun
        by (symmetry; apply Z.ltb_ge; lia).
      unfold bind, load_qp in Hrun. now rewrite Hq in Hrun.
Qed.

Lemma uint_minus_one : uint (0 - 1) = UINT_MODULUS - 1.
Proof. reflexivity. Qed.

(** X9: A send completion that matches no post, on an empty send queue,
    wraps the fill count round to [2^32 - 1]: from then on every
    [ib_post_send] is refused with [-ENOBUFS], without a driver
    call. *)
Theorem unmatched_send_completion_blocks_queue (s : state)
    (qp iobuf rc : Z) (q : ib_queue_pair) (c : ib_completion_queue) :
  qp_at s !! qp = Some q ->
  cq_at s !! wq_cq (send q) = Some c ->
  fill (send q) = 0 ->
  num_wqes (send q) < UINT_MODULUS ->
  exists s1 q1,
    ib_complete_send qp iobuf rc s = Done tt s1 /\
    qp_at s1 !! qp = Some q1 /\
    fill (send q1) = UINT_MODULUS - 1 /\
    forall v iobuf', ib_post_send qp v iobuf' s1 = Done (- ENOBUFS) s1.
Proof.
  intros Hq Hc Hf Hn.
  rewrite (ib_complete_send_run _ _ _ _ _ _ Hq Hc), Hf, uint_minus_one.
  do 2 eexists. split; [reflexivity|]. proj.
  split; [apply lookup_insert_eq|]. proj. split; [reflexivity|].
  intros v iobuf'. unfold ib_post_send.
  erewrite bind_run by (apply load_qp_run; proj; apply lookup_insert_eq).
  proj.
  replace (UINT_MODULUS - 1 >=? num_wqes (send q)) with true; [reflexivity|].
  symmetry. apply Z.geb_le. lia.
Qed.

(** X10: A receive completion that matches no post, on an empty receive
    queue, wraps the fill count round to [2^32 - 1]: from then on every
    [ib_post_recv] of a full-size buffer is refused with [-ENOBUFS],
    without a driver call. *)
Theorem unmatched_recv_completion_blocks_queue (s : state)
    (qp iobuf rc : Z) (v : av_ptr) (q : ib_queue_pair)
    (c : ib_completion_queue) :
  qp_at s !! qp = Some q ->
  cq_at s !! wq_cq (recv q) = Some c ->
  fill (recv q) = 0 ->
  num_wqes (recv q) < UINT_MODULUS ->
  exists s1 q1,
    ib_complete_recv qp v iobuf rc s = Done tt s1 /\
    qp_at s1 !! qp = Some q1 /\
    fill (recv q1) = UINT_MODULUS - 1 /\
    forall iobuf' b,
      iob_at s1 !! iobuf' = Some b ->
      IB_MAX_PAYLOAD_SIZE <= iob_tailroom b ->
      ib_post_recv qp iobuf' s1 = Done (- ENOBUFS) s1.
Proof.
  intros Hq Hc Hf Hn.
  rewrite (ib_complete_recv_run _ _ _ _ _ _ _ Hq Hc), Hf, uint_minus_one.
  do 2 eexists. split; [reflexivity|]. proj.
  split; [apply lookup_insert_eq|]. proj. split; [reflexivity|].
  intros iobuf' b Hb Hroom.
  erewrite ib_post_recv_run by (proj; first [apply lookup_insert_eq | exact Hb]).
  proj.
  replace (iob_tailroom b <? IB_MAX_PAYLOAD_SIZE) with false
    by (symmetry; apply Z.ltb_ge; lia).
  replace (UINT_MODULUS - 1 >=? num_wqes (recv q)) with true; [reflexivity|].
  symmetry. apply Z.geb_le. lia.
Qed.

(** *** Opening and closing, further *)

(** X11: On a device that is open, and whose count is not at its maximum,
    [ib_open] followed by [ib_close] gives back the very state it
    started from: only the count moves, up and down again, and nothing
    outside the file is called. *)
Theorem nested_open_close_is_identity (s : state) :
  0 < open_count (ibdev s) < UINT_MODULUS - 1 ->
  (rc <- ib_open ;; ib_close ;; ret rc) s = Done 0 s.
Proof.
  intros Hc. rewrite (bind_run _ _ _ _ _ (ib_open_again s ltac:(lia))).
  rewrite (bind_run _ _ _ _ _ (ib_close_run _)).
  unfold ret, with_open_count at 1 3 4. proj.
  rewrite (uint_small (open_count (ibdev s) + 1)) by lia.
  replace (open_count (ibdev s) + 1 - 1) with (open_count (ibdev s)) by lia.
  rewrite (uint_small (open_count (ibdev s))) by lia.
  replace (open_count (ibdev s) =? 0) with false
    by (symmetry; apply Z.eqb_neq; lia).
  f_equal. now destruct s as [[] ? ? ? ? ?].
Qed.

(** X12: The last [ib_close] destroys what the first [ib_open] created: the
    general-services interface, the subnet-management agent and the
    subnet-management interface, each under the handle the open got
    for it, and then closes the hardware.  Queue pairs and completion
    queues are untouched. *)
Theorem first_open_last_close_pair_up (s s1 : state) :
  ENOMEM <> 0 ->
  open_count (ibdev s) = 0 ->
  ib_open s = Done 0 s1 ->
  exists smi0 gsi0 s2,
    ib_close s1 = Done tt s2 /\
    open_count (ibdev s2) = 0 /\
    trace s2 =
      trace s ++
      [CreateMi IB_QPT_SMI; CreateSma smi0; CreateMi IB_QPT_GSI; OpOpen;
       DestroyMi gsi0; DestroySma smi0; DestroyMi smi0; OpClose] /\
    qps (ibdev s2) = qps (ibdev s) /\ cqs (ibdev s2) = cqs (ibdev s) /\
    qp_at s2 = qp_at s /\ cq_at s2 = cq_at s.
Proof.
  intros Hnz Hc Hopen.
  destruct (ib_open_first_ok s s1 Hnz Hc Hopen) as (smi0 & gsi0 & ->).
  exists smi0, gsi0. eexists. split; [apply ib_close_run|].
  unfold after_first_open. proj.
  change (uint (1 - 1) =? 0) with true. cbv iota.
  unfold after_last_close, with_open_count. proj.
  repeat split. now rewrite <- app_assoc.
Qed.

(** X13: An [ib_close] too many, on a closed device, calls nothing but
    wraps the count round to [2^32 - 1]; the [ib_open] after it then
    returns success with the count back at zero, and creates and opens
    nothing. *)
Theorem unbalanced_close_then_open (s : state) :
  open_count (ibdev s) = 0 ->
  exists s1,
    ib_close s = Done tt s1 /\
    trace s1 = trace s /\
    open_count (ibdev s1) = UINT_MODULUS - 1 /\
    exists s2,
      ib_open s1 = Done 0 s2 /\
      trace s2 = trace s /\
      open_count (ibdev s2) = 0.
Proof.
  intros Hc. eexists. split; [apply ib_close_run|].
  rewrite Hc, uint_minus_one.
  change (UINT_MODULUS - 1 =? 0) with false. cbv iota.
  unfold with_open_count at 1 2. proj. do 2 (split; [reflexivity|]).
  eexists. split; [apply ib_open_again; unfold with_open_count; proj;
                   reflexivity|].
  unfold with_open_count. proj. split; reflexivity.
Qed.

(** *** Creating and destroying queue pairs, in full *)

Lemma set_work_queues_same (c : ib_completion_queue) :
  set_work_queues (work_queues c) c = c.
Proof. now destruct c. Qed.

Lemma cq_list_add_run (s : state) (w : wq_ref) (cq : Z)
    (c : ib_completion_queue) :
  cq_at s !! cq = Some c ->
  cq_list_add w cq s = Done tt (set_cq_at (cq_added w cq (cq_at s)) s).
Proof.
  intros Hc. unfold cq_list_add, cq_added.
  rewrite (bind_run _ _ _ _ _ (load_cq_run _ _ _ Hc)).
  now rewrite (store_cq_run _ _ _ _ Hc), Hc.
Qed.

Lemma cq_list_del_run (s : state) (w : wq_ref) (cq : Z)
    (c : ib_completion_queue) :
  cq_at s !! cq = Some c ->
  cq_list_del w cq s = Done tt (set_cq_at (cq_removed w cq (cq_at s)) s).
Proof.
  intros Hc. unfold cq_list_del, cq_removed.
  rewrite (bind_run _ _ _ _ _ (load_cq_run _ _ _ Hc)).
  now rewrite (store_cq_run _ _ _ _ Hc), Hc.
Qed.

Lemma cq_added_lookup (w : wq_ref) (cq k : Z)
    (m : gmap Z ib_completion_queue) :
  cq_added w cq m !! k =
    if decide (cq = k)
    then (fun c => set_work_queues (w :: work_queues c) c) <$> m !! k
    else m !! k.
Proof.
  unfold cq_added. destruct (decide (cq = k)) as [->|Hne].
  - destruct (m !! k) as [c|] eqn:E;
      [now rewrite lookup_insert_eq | now rewrite E].
  - destruct (m !! cq); [now rewrite lookup_insert_ne | reflexivity].
Qed.

Lemma cq_removed_lookup (w : wq_ref) (cq k : Z)
    (m : gmap Z ib_completion_queue) :
  cq_removed w cq m !! k =
    if decide (cq = k)
    then (fun c => set_work_queues (list_del w (work_queues c)) c) <$> m !! k
    else m !! k.
Proof.
  unfold cq_removed. destruct (decide (cq = k)) as [->|Hne].
  - destruct (m !! k) as [c|] eqn:E;
      [now rewrite lookup_insert_eq | now rewrite E].
  - destruct (m !! cq); [now rewrite lookup_insert_ne | reflexivity].
Qed.

(** Taking the two work queues of a queue pair off the completion
    queues they were put on restores the completion queues. *)
Lemma cq_removed_added (p send_cq recv_cq : Z)
    (m : gmap Z ib_completion_queue) :
  cq_removed (RecvOf p) recv_cq
    (cq_removed (SendOf p) send_cq
       (cq_added (RecvOf p) recv_cq (cq_added (SendOf p) send_cq m))) = m.
Proof.
  apply map_eq. intros k.
  rewrite !cq_removed_lookup, !cq_added_lookup.
  destruct (m !! k) as [c|]; cbn [fmap option_fmap option_map];
    destruct (decide (recv_cq = k)); destruct (decide (send_cq = k));
    cbn [fmap option_fmap option_map]; try reflexivity;
    destruct c as [n1 n2 l o]; unfold set_work_queues; proj;
    repeat (cbn [list_del]; destruct (decide _); try congruence).
Qed.

(** What [ib_create_qp] does, in full, when both completion queues
    exist. *)
Lemma ib_create_qp_state (ty : ib_queue_pair_type)
    (num_send_wqes send_cq num_recv_wqes recv_cq : Z) (s : state)
    (cs cr : ib_completion_queue) :
  cq_at s !! send_cq = Some cs ->
  cq_at s !! recv_cq = Some cr ->
  ib_create_qp ty num_send_wqes send_cq num_recv_wqes recv_cq s =
    let size :=
      size_t (sizeof_qp + size_t (num_send_wqes * sizeof_iobuf_ptr)
              + size_t (num_recv_wqes * sizeof_iobuf_ptr)) in
    let qp := answer (trace s) (Zalloc size) in
    let t1 := trace s ++ [Zalloc size] in
    if qp =? NULL then Done NULL (set_trace t1 s)
    else
      let r_send := answer t1 Random in
      let t2 := t1 ++ [Random] in
      let r_recv := answer t2 Random in
      let t3 := t2 ++ [Random] in
      let rc := answer t3 (OpCreateQp qp) in
      let t4 := t3 ++ [OpCreateQp qp] in
      let q0 :=
        Build_qp ty (assigned_qpn t3) 0 0
          (Build_wq qp 1 send_cq (Z.land r_send 0xffffff) num_send_wqes 0
             (replicate (Z.to_nat num_send_wqes) NULL))
          (Build_wq qp 0 recv_cq (Z.land r_recv 0xffffff) num_recv_wqes 0
             (replicate (Z.to_nat num_recv_wqes) NULL))
          (Build_av 0 0 0 0) [] in
      if rc =? 0
      then
        Done qp
          (Build_state (set_qps (qp :: qps (ibdev s)) (ibdev s))
             (<[qp := set_ext_qpn
                        match ty with
                        | IB_QPT_SMI => IB_QPN_SMI
                        | IB_QPT_GSI => IB_QPN_GSI
                        | _ => qpn q0
                        end q0]> (qp_at s))
             (cq_added (RecvOf qp) recv_cq
                (cq_added (SendOf qp) send_cq (cq_at s)))
             (av_at s) (iob_at s) t4)
      else
        Done NULL
          (Build_state (ibdev s) (delete qp (qp_at s)) (cq_at s)
             (av_at s) (iob_at s) (t4 ++ [Free qp])).
Proof.
  intros Hcs Hcr. cbv zeta. unfold ib_create_qp. cbv zeta.
  set (size := size_t _).
  unfold bind at 1. unfold extern at 1.
  set (qp := answer (trace s) (Zalloc size)).
  destruct (qp =? NULL); [reflexivity|].
  cbv [bind new_qp load_dev store_dev extern ret]. proj.
  erewrite cq_list_add_run by (proj; exact Hcs). proj.
  assert (exists c, cq_added (SendOf qp) send_cq (cq_at s) !! recv_cq = Some c)
    as [cr1 Hcr1].
  { rewrite cq_added_lookup, Hcr. destruct (decide _); cbn; eauto. }
  erewrite cq_list_add_run by (proj; exact Hcr1). proj.
  erewrite store_qp_run by (proj; apply lookup_insert_eq). go.
  erewrite load_qp_run by (proj; apply lookup_insert_eq). go.
  erewrite store_qp_run by (proj; apply lookup_insert_eq). go.
  set (t3 := ((trace s ++ [Zalloc size]) ++ [Random]) ++ [Random]).
  destruct (answer t3 (OpCreateQp qp) =? 0); cbn [negb].
  - erewrite load_qp_run by (proj; apply lookup_insert_eq). go.
    erewrite store_qp_run by (proj; apply lookup_insert_eq). go.
    rewrite !insert_insert_eq. reflexivity.
  - unfold err_dev_create_qp.
    erewrite bind_run by (apply load_qp_run; proj; apply lookup_insert_eq).
    proj.
    assert (exists c, cq_added (RecvOf qp) recv_cq
                        (cq_added (SendOf qp) send_cq (cq_at s)) !! send_cq
                      = Some c) as [cs2 Hcs2].
    { rewrite !cq_added_lookup, Hcs.
      repeat (destruct (decide _)); cbn; eauto. }
    erewrite bind_run by (eapply cq_list_del_run; proj; exact Hcs2).
    proj.
    assert (exists c, cq_removed (SendOf qp) send_cq
                        (cq_added (RecvOf qp) recv_cq
                           (cq_added (SendOf qp) send_cq (cq_at s)))
                        !! recv_cq = Some c) as [cr2 Hcr2].
    { rewrite cq_removed_lookup, !cq_added_lookup, Hcr.
      repeat (destruct (decide _)); cbn; eauto. }
    erewrite bind_run by (eapply cq_list_del_run; proj; exact Hcr2).
    cbv [bind load_dev store_dev extern release_qp ret]. proj.
    rewrite cq_removed_added, !insert_insert_eq, delete_insert_eq.
    cbn [list_del]. destruct (decide (qp = qp)); [|congruence].
    f_equal. destruct s as [[] ? ? ? ? ?]. reflexivity.
Qed.



(** X14: A failed [ib_create_qp] leaves no trace in the data structures:
    when it returns the null pointer, the device's list, both
    completion queues and every queue pair are as they were, and the
    memory, if any was allocated, has been freed. *)
Theorem ib_create_qp_failure_undone (ty : ib_queue_pair_type)
    (num_send_wqes send_cq num_recv_wqes recv_cq : Z) (s s' : state)
    (cs cr : ib_completion_queue) :
  cq_at s !! send_cq = Some cs ->
  cq_at s !! recv_cq = Some cr ->
  alloc_is_fresh s ->
  ib_create_qp ty num_send_wqes send_cq num_recv_wqes recv_cq s
    = Done NULL s' ->
  same_objects s s' /\
  exists size,
    trace s' = trace s ++ [Zalloc size] \/
    exists p,
      p <> NULL /\
      trace s' =
        trace s ++ [Zalloc size; Random; Random; OpCreateQp p; Free p].
Proof.
  intros Hcs Hcr Hfresh Hrun.
  rewrite (ib_create_qp_state _ _ _ _ _ _ _ _ Hcs Hcr) in Hrun.
  cbv zeta in Hrun.
  set (size := size_t _) in Hrun.
  pose proof (Hfresh size) as Hnew.
  destruct (Z.eqb_spec (answer (trace s) (Zalloc size)) NULL) as [Hp|Hp].
  { injection Hrun as <-. split; [apply same_objects_set_trace|].
    exists size. now left. }
  destruct (answer _ (OpCreateQp _) =? 0).
  { injection Hrun as Hp' _. congruence. }
  injection Hrun as <-. split.
  - unfold same_objects. proj. repeat split.
    now apply delete_id.
  - exists size. right. exists (answer (trace s) (Zalloc size)).
    split; [exact Hp|]. proj. now rewrite <- !app_assoc.
Qed.




(** *** Looking up work queues *)

Lemma load_wq_run (s : state) (w : wq_ref) (wq : ib_work_queue) :
  wq_at s w = Some wq -> load_wq w s = Done wq s.
Proof.
  destruct w as [p|p]; unfold wq_at, load_wq; intros H;
    (destruct (qp_at s !! p) as [q|] eqn:E; [|discriminate]);
    rewrite (bind_run _ _ _ _ _ (load_qp_run _ _ _ E));
    cbn in H; unfold ret; congruence.
Qed.

Lemma find_wq_loop_step (s : state) (n is_send0 : Z) (w : wq_ref)
    (l : list wq_ref) :
  wq_valid s w ->
  find_wq_loop n is_send0 (w :: l) s =
    if wq_matches s n is_send0 w then Done (Some w) s
    else find_wq_loop n is_send0 l s.
Proof.
  intros (wq & Hwq & q & Hq). cbn [find_wq_loop].
  rewrite (bind_run _ _ _ _ _ (load_wq_run _ _ _ Hwq)).
  rewrite (bind_run _ _ _ _ _ (load_qp_run _ _ _ Hq)).
  unfold wq_matches. rewrite Hwq, Hq.
  now destruct ((qpn q =? n) && (is_send wq =? is_send0)).
Qed.

Lemma find_wq_loop_first (s : state) (n is_send0 : Z) (l : list wq_ref) :
  (forall w, w ∈ l -> wq_valid s w) ->
  (find_wq_loop n is_send0 l s = Done None s /\
   forall w, w ∈ l -> wq_matches s n is_send0 w = false) \/
  (exists l1 w l2,
     l = l1 ++ w :: l2 /\
     find_wq_loop n is_send0 l s = Done (Some w) s /\
     wq_matches s n is_send0 w = true /\
     forall w', w' ∈ l1 -> wq_matches s n is_send0 w' = false).
Proof.
  induction l as [|w l IH]; intros Hval.
  - left. split; [reflexivity|]. intros w Hin. inversion Hin.
  - rewrite find_wq_loop_step by (apply Hval, elem_of_cons; now left).
    destruct (wq_matches s n is_send0 w) eqn:E.
    + right. exists [], w, l. repeat split; try assumption.
      intros w' Hin. inversion Hin.
    + destruct IH as [[Hrun Hno]|(l1 & w1 & l2 & -> & Hrun & Hm & Hno)].
      { intros w' Hin. apply Hval, elem_of_cons. now right. }
      * left. split; [exact Hrun|].
        intros w' Hin. apply elem_of_cons in Hin as [->|Hin];
          [exact E | now apply Hno].
      * right. exists (w :: l1), w1, l2. repeat split; try assumption.
        intros w' Hin. apply elem_of_cons in Hin as [->|Hin];
          [exact E | now apply Hno].
Qed.

(** X17: [ib_find_wq] returns the first work queue on the completion
    queue's list whose queue pair has the internal number asked for and
    whose direction flag equals the one asked for, and the null pointer
    exactly when the loop has found none.  The external number of a
    queue pair plays no part.  It changes nothing. *)
Theorem ib_find_wq_first_match (s : state) (cq n is_send0 : Z)
    (c : ib_completion_queue) :
  cq_at s !! cq = Some c ->
  (forall w, w ∈ work_queues c -> wq_valid s w) ->
  (ib_find_wq cq n is_send0 s = Done None s /\
   forall w, w ∈ work_queues c -> wq_matches s n is_send0 w = false) \/
  (exists l1 w l2,
     work_queues c = l1 ++ w :: l2 /\
     ib_find_wq cq n is_send0 s = Done (Some w) s /\
     wq_matches s n is_send0 w = true /\
     forall w', w' ∈ l1 -> wq_matches s n is_send0 w' = false).
Proof.
  intros Hc Hval. unfold ib_find_wq.
  rewrite (bind_run _ _ _ _ _ (load_cq_run _ _ _ Hc)).
  exact (find_wq_loop_first s n is_send0 (work_queues c) Hval).
Qed.

(** X18: The two work queues of a queue pair that [ib_create_qp] has just
    returned are found on their completion queues under the number the
    driver assigned, the send queue with flag 1 and the receive queue
    with flag 0, also when both are on the same completion queue. *)
Theorem new_work_queues_are_found (ty : ib_queue_pair_type)
    (num_send_wqes send_cq num_recv_wqes recv_cq qp : Z) (s s' : state)
    (cs cr : ib_completion_queue) :
  cq_at s !! send_cq = Some cs ->
  cq_at s !! recv_cq = Some cr ->
  ib_create_qp ty num_send_wqes send_cq num_recv_wqes recv_cq s
    = Done qp s' ->
  qp <> NULL ->
  exists q,
    qp_at s' !! qp = Some q /\
    ib_find_wq send_cq (qpn q) 1 s' = Done (Some (SendOf qp)) s' /\
    ib_find_wq recv_cq (qpn q) 0 s' = Done (Some (RecvOf qp)) s'.
Proof.
  intros Hcs Hcr Hrun Hnn.
  rewrite (ib_create_qp_state _ _ _ _ _ _ _ _ Hcs Hcr) in Hrun.
  cbv zeta in Hrun.
  destruct (_ =? NULL); [injection Hrun as Hp _; congruence|].
  destruct (answer _ (OpCreateQp _) =? 0);
    [|injection Hrun as Hp _; congruence].
  injection Hrun as Hqp <-. rewrite Hqp.
  set (q1 := set_ext_qpn _ _).
  set (s1 := Build_state _ _ _ _ _ _).
  assert (Hq1 : qp_at s1 !! qp = Some q1) by apply lookup_insert_eq.
  assert (Hs : wq_at s1 (SendOf qp) = Some (send q1))
    by (unfold wq_at; now rewrite Hq1).
  assert (Hr : wq_at s1 (RecvOf qp) = Some (recv q1))
    by (unfold wq_at; now rewrite Hq1).
  assert (Hvs : wq_valid s1 (SendOf qp)) by (eexists; split; eauto).
  assert (Hvr : wq_valid s1 (RecvOf qp)) by (eexists; split; eauto).
  assert (Hms : forall f, wq_matches s1 (qpn q1) f (SendOf qp) = (1 =? f)).
  { intros f. unfold wq_matches. rewrite Hs.
    change (wq_qp (send q1)) with qp. rewrite Hq1.
    now rewrite Z.eqb_refl. }
  assert (Hmr : forall f, wq_matches s1 (qpn q1) f (RecvOf qp) = (0 =? f)).
  { intros f. unfold wq_matches. rewrite Hr.
    change (wq_qp (recv q1)) with qp. rewrite Hq1.
    now rewrite Z.eqb_refl. }
  assert (Hsend : exists c' l,
            cq_at s1 !! send_cq = Some c' /\
            (work_queues c' = SendOf qp :: l \/
             work_queues c' = RecvOf qp :: SendOf qp :: l)).
  { unfold s1. proj. rewrite !cq_added_lookup, Hcs.
    destruct (decide (send_cq = send_cq)); [|congruence].
    destruct (decide (recv_cq = send_cq)); cbn [fmap option_fmap option_map];
      do 2 eexists; (split; [reflexivity|]); proj; eauto. }
  assert (Hrecv : exists c' l,
            cq_at s1 !! recv_cq = Some c' /\
            work_queues c' = RecvOf qp :: l).
  { unfold s1. proj. rewrite !cq_added_lookup, Hcr.
    destruct (decide (recv_cq = recv_cq)); [|congruence].
    destruct (decide (send_cq = recv_cq)); cbn [fmap option_fmap option_map];
      do 2 eexists; (split; [reflexivity|]); proj; eauto. }
  exists q1. split; [exact Hq1|].
  unfold ib_find_wq. split.
  - destruct Hsend as (c1 & l & Hc1 & [Hl|Hl]);
      rewrite (bind_run _ _ _ _ _ (load_cq_run _ _ _ Hc1)), Hl.
    + now rewrite (find_wq_loop_step _ _ _ _ _ Hvs), Hms.
    + rewrite (find_wq_loop_step _ _ _ _ _ Hvr), Hmr.
      change (0 =? 1) with false. cbv iota.
      now rewrite (find_wq_loop_step _ _ _ _ _ Hvs), Hms.
  - destruct Hrecv as (c1 & l & Hc1 & Hl).
    rewrite (bind_run _ _ _ _ _ (load_cq_run _ _ _ Hc1)), Hl.
    now rewrite (find_wq_loop_step _ _ _ _ _ Hvr), Hmr.
Qed.

(** *** Refilling the receive queue *)

Lemma set_recv_fill_same (q : ib_queue_pair) :
  set_recv (set_fill (fill (recv q)) (recv q)) q = q.
Proof. now destruct q as [? ? ? ? ? [] ? ?]. Qed.

(** What a run of [ib_refill_recv] does: it posts fresh buffers as long
    as there is room, the allocator delivers and the driver accepts. *)
Lemma ib_refill_recv_run (a : iob_allocator) (qp : Z) :
  alloc_iob_behaves a ->
  forall (fuel : nat) (s : state) (q : ib_queue_pair),
    qp_at s !! qp = Some q ->
    0 <= fill (recv q) <= num_wqes (recv q) ->
    num_wqes (recv q) < UINT_MODULUS ->
    (Z.to_nat (num_wqes (recv q) - fill (recv q)) < fuel)%nat ->
    exists s' ps tail,
      ib_refill_recv a fuel qp s = Done tt s' /\
      qp_at s' =
        <[qp := set_recv
                  (set_fill (fill (recv q) + Z.of_nat (length ps)) (recv q))
                  q]> (qp_at s) /\
      ibdev s' = ibdev s /\ cq_at s' = cq_at s /\ av_at s' = av_at s /\
      trace s' = trace s ++ map (OpPostRecv qp) ps ++ tail /\
      fill (recv q) + Z.of_nat (length ps) <= num_wqes (recv q) /\
      (tail = [] \/
       exists p, p <> NULL /\ tail = [OpPostRecv qp p; FreeIob p]) /\
      (alloc_iob_succeeds a IB_MAX_PAYLOAD_SIZE ->
       post_recv_accepted qp ->
       fill (recv q) + Z.of_nat (length ps) = num_wqes (recv q) /\
       tail = []).
Proof.
  intros Hal fuel. induction fuel as [|fuel IH]; intros s q Hq Hf Hn Hfuel;
    [lia|].
  cbn [ib_refill_recv].
  rewrite (bind_run _ _ _ _ _ (load_qp_run _ _ _ Hq)).
  destruct (Z.ltb_spec (fill (recv q)) (num_wqes (recv q))) as [Hlt|Hge].
  2:{ exists s, [], []. split; [reflexivity|]. cbn [length map app].
      rewrite Z.add_0_r, set_recv_fill_same, (insert_id _ _ _ Hq), app_nil_r.
      do 5 (split; [reflexivity|]). split; [lia|]. split; [now left|].
      intros _ _. split; [lia | reflexivity]. }
  unfold bind at 1. unfold alloc_iob at 1.
  pose proof (Hal IB_MAX_PAYLOAD_SIZE (iob_at s)) as Hbuf.
  set (p := fst (a IB_MAX_PAYLOAD_SIZE (iob_at s))) in *.
  set (s1 := set_iob_at _ s).
  destruct (Z.eqb_spec p NULL) as [Hp|Hp].
  { exists s1, [], []. split; [reflexivity|]. cbn [length map app].
    rewrite Z.add_0_r, set_recv_fill_same, app_nil_r.
    split; [exact (eq_sym (insert_id _ _ _ Hq))|].
    do 4 (split; [reflexivity|]).
    split; [lia|]. split; [now left|].
    intros Hok _. exfalso. exact (Hok (iob_at s) Hp). }
  destruct (Hbuf Hp) as (b & Hb & Hroom).
  assert (qp_at s1 !! qp = Some q) as Hq1 by exact Hq.
  assert (iob_at s1 !! p = Some b) as Hb1 by exact Hb.
  pose proof (ib_post_recv_run _ _ _ _ _ Hq1 Hb1) as Hpost.
  replace (iob_tailroom b <? IB_MAX_PAYLOAD_SIZE) with false in Hpost
    by (symmetry; apply Z.ltb_ge; lia).
  replace (fill (recv q) >=? num_wqes (recv q)) with false in Hpost
    by (symmetry; rewrite Z.geb_leb; apply Z.leb_gt; lia).
  cbv zeta in Hpost.
  destruct (Z.eqb_spec (answer (trace s1) (OpPostRecv qp p)) 0) as [Hrc|Hrc];
    rewrite (bind_run _ _ _ _ _ Hpost).
  - change (negb (0 =? 0)) with false. cbv iota.
    rewrite (uint_small (fill (recv q) + 1)) by lia.
    set (q1 := set_recv (set_fill (fill (recv q) + 1) (recv q)) q).
    set (s2 := set_qp_at _ _).
    destruct (IH s2 q1) as (s' & ps & tail & Hrec & Hqs & Hds & Hcs & Has
                            & Hts & Hle & Htail & Hgood).
    + apply lookup_insert_eq.
    + unfold q1. proj. lia.
    + unfold q1. proj. lia.
    + unfold q1. proj. lia.
    + exists s', (p :: ps), tail. split; [exact Hrec|].
      cbn [length map].
      rewrite Nat2Z.inj_succ.
      replace (fill (recv q) + Z.succ (Z.of_nat (length ps)))
        with (fill (recv q) + 1 + Z.of_nat (length ps)) by lia.
      rewrite Hqs, Hds, Hcs, Has, Hts.
      split.
      { unfold s2, q1. proj. now rewrite insert_insert_eq. }
      do 3 (split; [reflexivity|]).
      split; [unfold s2, s1; proj; now rewrite <- !app_assoc|].
      split; [exact Hle|]. split; [exact Htail|].
      intros Hok Hacc. destruct (Hgood Hok Hacc) as [Hfull ->].
      split; [exact Hfull | reflexivity].
  - replace (negb (answer (trace s1) (OpPostRecv qp p) =? 0)) with true
      by (symmetry; apply negb_true_iff, Z.eqb_neq; exact Hrc).
    cbv [bind extern ret].
    eexists _, [], [OpPostRecv qp p; FreeIob p].
    split; [reflexivity|]. cbn [length map app].
    rewrite Z.add_0_r, set_recv_fill_same.
    split; [exact (eq_sym (insert_id _ _ _ Hq))|].
    do 3 (split; [reflexivity|]).
    split; [unfold s1; proj; now rewrite <- app_assoc|].
    split; [lia|]. split; [right; exists p; now split|].
    intros _ Hacc. exfalso. apply Hrc, Hacc.
Qed.

(** X19: When the allocator always delivers and the driver accepts every
    post, [ib_refill_recv] returns with the receive queue full: it has
    posted exactly as many fresh buffers as there were free entries,
    has freed none, and has changed nothing else of the queue pair. *)
Theorem ib_refill_recv_fills_queue (a : iob_allocator) (qp : Z)
    (fuel : nat) (s : state) (q : ib_queue_pair) :
  alloc_iob_behaves a ->
  alloc_iob_succeeds a IB_MAX_PAYLOAD_SIZE ->
  post_recv_accepted qp ->
  qp_at s !! qp = Some q ->
  0 <= fill (recv q) <= num_wqes (recv q) ->
  num_wqes (recv q) < UINT_MODULUS ->
  (Z.to_nat (num_wqes (recv q) - fill (recv q)) < fuel)%nat ->
  exists s' ps,
    ib_refill_recv a fuel qp s = Done tt s' /\
    qp_at s' =
      <[qp := set_recv (set_fill (num_wqes (recv q)) (recv q)) q]> (qp_at s) /\
    trace s' = trace s ++ map (OpPostRecv qp) ps /\
    Z.of_nat (length ps) = num_wqes (recv q) - fill (recv q).
Proof.
  intros Hal Hok Hacc Hq Hf Hn Hfuel.
  destruct (ib_refill_recv_run a qp Hal fuel s q Hq Hf Hn Hfuel)
    as (s' & ps & tail & Hrun & Hqs & _ & _ & _ & Hts & _ & _ & Hgood).
  destruct (Hgood Hok Hacc) as [Hfull ->].
  rewrite Hfull in Hqs. rewrite app_nil_r in Hts.
  exists s', ps. repeat split; try assumption. lia.
Qed.


(** *** Polling a completion queue *)

Lemma recv_filled_twice (q : ib_queue_pair) :
  recv_filled (recv_filled q) = recv_filled q.
Proof. reflexivity. Qed.

Lemma wq_ready_filled (s s1 : state) (fuel : nat) (p : Z)
    (q : ib_queue_pair) (w : wq_ref) :
  qp_at s !! p = Some q ->
  qp_at s1 = <[p := recv_filled q]> (qp_at s) ->
  wq_ready s fuel w -> wq_ready s1 fuel w.
Proof.
  intros Hq Hs1. destruct w as [p0|p0]; cbn [wq_ready];
    intros (q0 & Hq0 & Hrest); rewrite Hs1, lookup_insert;
    destruct (decide (p = p0)) as [->|Hne].
  - rewrite Hq in Hq0. injection Hq0 as <-. exists (recv_filled q).
    split; [reflexivity | exact Hrest].
  - exists q0. split; [exact Hq0 | exact Hrest].
  - rewrite Hq in Hq0. injection Hq0 as <-. exists (recv_filled q).
    split; [reflexivity|].
    destruct Hrest as (Hi & Hp & Hf & Hn & Hfuel).
    unfold recv_filled. proj. repeat split; try assumption; lia.
  - exists q0. split; [exact Hq0 | exact Hrest].
Qed.

Lemma refill_recv_queues_run (a : iob_allocator) (fuel : nat)
    (l : list wq_ref) :
  alloc_iob_behaves a ->
  alloc_iob_succeeds a IB_MAX_PAYLOAD_SIZE ->
  (forall qp, post_recv_accepted qp) ->
  forall s : state,
    (forall w, w ∈ l -> wq_ready s fuel w) ->
    exists s',
      refill_recv_queues a fuel l s = Done tt s' /\
      ibdev s' = ibdev s /\ cq_at s' = cq_at s /\ av_at s' = av_at s /\
      forall p,
        qp_at s' !! p =
          (fun q => if decide (RecvOf p ∈ l) then recv_filled q else q)
            <$> qp_at s !! p.
Proof.
  intros Hal Hok Hacc. induction l as [|w l IH]; intros s Hready.
  - exists s. split; [reflexivity|]. do 3 (split; [reflexivity|]).
    intros p. destruct (qp_at s !! p) as [q|]; [|reflexivity].
    cbn. destruct (decide _) as [Hin|_]; [inversion Hin | reflexivity].
  - cbn [refill_recv_queues].
    assert (Hw : wq_ready s fuel w) by (apply Hready, elem_of_cons; now left).
    assert (Hl : forall w', w' ∈ l -> wq_ready s fuel w')
      by (intros w' Hin; apply Hready, elem_of_cons; now right).
    destruct w as [p0|p0]; cbn [wq_ready] in Hw.
    + destruct Hw as (q0 & Hq0 & Hsend).
      assert (Hwq : load_wq (SendOf p0) s = Done (send q0) s)
        by (apply load_wq_run; unfold wq_at; now rewrite Hq0).
      rewrite (bind_run _ _ _ _ _ Hwq).
      replace (is_send (send q0) =? 0) with false
        by (symmetry; now apply Z.eqb_neq).
      unfold bind at 1. unfold ret at 1.
      destruct (IH s Hl) as (s' & Hrun & Hd & Hc & Ha & Hqs).
      exists s'. split; [exact Hrun|]. do 3 (split; [assumption|]).
      intros p. rewrite Hqs. destruct (qp_at s !! p) as [q|]; [|reflexivity].
      cbn. destruct (decide (RecvOf p ∈ l)) as [Hin|Hin];
        destruct (decide (RecvOf p ∈ SendOf p0 :: l)) as [Hin'|Hin'];
        try reflexivity; exfalso.
      * apply Hin', elem_of_cons. now right.
      * apply elem_of_cons in Hin' as [Heq|Hin']; [discriminate | auto].
    + destruct Hw as (q0 & Hq0 & Hflag & Hback & Hf & Hn & Hfuel).
      assert (Hwq : load_wq (RecvOf p0) s = Done (recv q0) s)
        by (apply load_wq_run; unfold wq_at; now rewrite Hq0).
      rewrite (bind_run _ _ _ _ _ Hwq). rewrite Hflag, Hback.
      change (0 =? 0) with true. cbv iota.
      destruct (ib_refill_recv_run a p0 Hal fuel s q0 Hq0 Hf Hn ltac:(lia))
        as (s1 & ps & tail & Hrun1 & Hq1 & Hd1 & Hc1 & Ha1 & _ & _ & _ & Hgood).
      destruct (Hgood Hok (Hacc p0)) as [Hfull _].
      rewrite Hfull in Hq1. change (set_recv _ q0) with (recv_filled q0) in Hq1.
      rewrite (bind_run _ _ _ _ _ Hrun1).
      destruct (IH s1) as (s' & Hrun & Hd & Hc & Ha & Hqs).
      { intros w' Hin. apply (wq_ready_filled s s1 fuel p0 q0 w' Hq0 Hq1).
        now apply Hl. }
      exists s'. split; [exact Hrun|].
      split; [congruence|]. split; [congruence|]. split; [congruence|].
      intros p. rewrite Hqs, Hq1, lookup_insert.
      destruct (decide (p0 = p)) as [->|Hne].
      * rewrite Hq0. cbn.
        destruct (decide (RecvOf p ∈ RecvOf p :: l)) as [_|Hin'];
          [|exfalso; apply Hin', elem_of_cons; now left].
        now destruct (decide (RecvOf p ∈ l)).
      * destruct (qp_at s !! p) as [q|]; [|reflexivity]. cbn.
        destruct (decide (RecvOf p ∈ l)) as [Hin|Hin];
          destruct (decide (RecvOf p ∈ RecvOf p0 :: l)) as [Hin'|Hin'];
          try reflexivity; exfalso.
        -- apply Hin', elem_of_cons. now right.
        -- apply elem_of_cons in Hin' as [Heq|Hin']; [congruence | auto].
Qed.

(** X21: After the driver's poll, [ib_poll_cq] refills every receive queue
    on the completion queue: when the allocator always delivers and the
    driver accepts every post, each of them ends filled to capacity,
    while the send queues, the queue pairs that have no receive queue
    on this completion queue, the completion queues and the device
    stay as the driver's poll left them. *)
Theorem ib_poll_cq_refills (op_poll_cq : Z -> M unit) (a : iob_allocator)
    (fuel : nat) (cq : Z) (s s0 : state) (c : ib_completion_queue) :
  alloc_iob_behaves a ->
  alloc_iob_succeeds a IB_MAX_PAYLOAD_SIZE ->
  (forall qp, post_recv_accepted qp) ->
  op_poll_cq cq s = Done tt s0 ->
  cq_at s0 !! cq = Some c ->
  (forall w, w ∈ work_queues c -> wq_ready s0 fuel w) ->
  exists s',
    ib_poll_cq op_poll_cq a fuel cq s = Done tt s' /\
    ibdev s' = ibdev s0 /\ cq_at s' = cq_at s0 /\ av_at s' = av_at s0 /\
    (forall p,
       RecvOf p ∈ work_queues c ->
       exists q,
         qp_at s0 !! p = Some q /\
         qp_at s' !! p = Some (recv_filled q)) /\
    (forall p,
       RecvOf p ∉ work_queues c -> qp_at s' !! p = qp_at s0 !! p).
Proof.
  intros Hal Hok Hacc Hpoll Hc Hready. unfold ib_poll_cq.
  rewrite (bind_run _ _ _ _ _ Hpoll).
  rewrite (bind_run _ _ _ _ _ (load_cq_run _ _ _ Hc)).
  destruct (refill_recv_queues_run a fuel (work_queues c) Hal Hok Hacc
              s0 Hready) as (s' & Hrun & Hd & Hcq & Ha & Hqs).
  exists s'. split; [exact Hrun|]. do 3 (split; [assumption|]). split.
  - intros p Hin. destruct (Hready _ Hin) as (q & Hq & _).
    exists q. split; [exact Hq|]. rewrite Hqs, Hq. cbn.
    now destruct (decide (RecvOf p ∈ work_queues c)).
  - intros p Hin. rewrite Hqs.
    destruct (qp_at s0 !! p) as [q|]; [|reflexivity]. cbn.
    now destruct (decide (RecvOf p ∈ work_queues c)).
Qed.

(** *** Completion queues *)

Lemma set_cqs_del_add (cq : Z) (d : ib_device) :
  set_cqs (list_del cq (cq :: cqs d)) (set_cqs (cq :: cqs d) d) = d.
Proof.
  cbn [list_del]. destruct (decide (cq = cq)); [|congruence].
  now destruct d.
Qed.

(** What [ib_create_cq] does, with a driver that keeps to its own. *)
Lemma ib_create_cq_run (op_create_cq : Z -> M Z) (num_cqes0 : Z)
    (op0 : ib_completion_queue_operations) (s : state) :
  driver_cq_op op_create_cq ->
  let cq := answer (trace s) (Zalloc sizeof_cq) in
  exists r s',
    ib_create_cq op_create_cq num_cqes0 op0 s = Done r s' /\
    qp_at s' = qp_at s /\ av_at s' = av_at s /\ iob_at s' = iob_at s /\
    ((r = NULL /\ ibdev s' = ibdev s /\
      (cq_at s' = cq_at s \/ cq_at s' = delete cq (cq_at s))) \/
     (r = cq /\ cq <> NULL /\
      ibdev s' = set_cqs (cq :: cqs (ibdev s)) (ibdev s) /\
      exists n, cq_at s' = <[cq := Build_cq n num_cqes0 [] op0]> (cq_at s))).
Proof.
  intros Hop cq. unfold ib_create_cq.
  unfold bind at 1. unfold extern at 1. fold cq.
  destruct (Z.eqb_spec cq NULL) as [Hnull|Hnull].
  { do 2 eexists. split; [reflexivity|]. do 3 (split; [reflexivity|]).
    left. repeat split. now left. }
  cbv [bind new_cq load_dev store_dev ret]. proj.
  erewrite load_cq_run by (proj; apply lookup_insert_eq). go.
  erewrite store_cq_run by (proj; apply lookup_insert_eq). go.
  rewrite insert_insert_eq.
  match goal with
  | |- context [op_create_cq cq ?st] =>
      destruct (Hop cq st)
        as (rc & s2 & Hrun & Hd & Hq & Ha & Hb & Hk & n & Hcq);
      rewrite Hrun
  end.
  proj. rewrite lookup_insert_eq in Hcq. cbn [fmap option_fmap option_map] in Hcq.
  unfold set_cqn, zero_cq in Hcq. proj.
  destruct (rc =? 0); cbn [negb].
  - do 2 eexists. split; [reflexivity|]. do 3 (split; [assumption|]).
    right. do 3 (split; [first [reflexivity | assumption]|]).
    exists n. apply map_eq. intros k. rewrite lookup_insert.
    destruct (decide (cq = k)) as [<-|Hne]; [exact Hcq|].
    rewrite Hk by congruence. now rewrite lookup_insert_ne.
  - cbv [extern release_cq]. proj.
    do 2 eexists. split; [reflexivity|]. proj.
    do 3 (split; [assumption|]).
    left. split; [reflexivity|]. split.
    + rewrite Hd. proj. apply set_cqs_del_add.
    + right. apply map_eq. intros k. rewrite !lookup_delete.
      destruct (decide (cq = k)) as [<-|Hne]; [reflexivity|].
      rewrite Hk by congruence. now rewrite lookup_insert_ne.
Qed.

(** X22: The completion queue a successful [ib_create_cq] returns stands at
    the head of the device's list, with the capacity and the handlers
    asked for and no work queue on it.  The other completion queues and
    the queue pairs are untouched. *)
Theorem ib_create_cq_new_queue (op_create_cq : Z -> M Z) (num_cqes0 : Z)
    (op0 : ib_completion_queue_operations) (s s' : state) (cq : Z) :
  driver_cq_op op_create_cq ->
  ib_create_cq op_create_cq num_cqes0 op0 s = Done cq s' ->
  cq <> NULL ->
  cqs (ibdev s') = cq :: cqs (ibdev s) /\
  qps (ibdev s') = qps (ibdev s) /\
  qp_at s' = qp_at s /\
  (forall k, k <> cq -> cq_at s' !! k = cq_at s !! k) /\
  exists c,
    cq_at s' !! cq = Some c /\
    num_cqes c = num_cqes0 /\ op c = op0 /\ work_queues c = [].
Proof.
  intros Hop Hrun Hnn.
  destruct (ib_create_cq_run op_create_cq num_cqes0 op0 s Hop)
    as (r & s1 & Hrun1 & Hq & _ & _ & Hcase).
  rewrite Hrun in Hrun1. injection Hrun1 as <- <-.
  destruct Hcase as [(Hr & _)|(Hr & _ & Hd & n & Hc)]; [congruence|].
  rewrite Hd, Hc, <- Hr. proj. repeat split; try assumption.
  - intros k Hk. now rewrite lookup_insert_ne by congruence.
  - eexists. split; [apply lookup_insert_eq|]. now repeat split.
Qed.

(** X23: A failed [ib_create_cq] leaves no trace in the data structures:
    when it returns the null pointer, the device's list and every
    completion queue are as they were. *)
Theorem ib_create_cq_failure_undone (op_create_cq : Z -> M Z)
    (num_cqes0 : Z) (op0 : ib_completion_queue_operations)
    (s s' : state) :
  driver_cq_op op_create_cq ->
  alloc_is_fresh_cq s ->
  ib_create_cq op_create_cq num_cqes0 op0 s = Done NULL s' ->
  same_objects s s'.
Proof.
  intros Hop Hfresh Hrun.
  destruct (ib_create_cq_run op_create_cq num_cqes0 op0 s Hop)
    as (r & s1 & Hrun1 & Hq & Ha & Hb & Hcase).
  rewrite Hrun in Hrun1. injection Hrun1 as <- <-.
  destruct Hcase as [(_ & Hd & Hc)|(Hr & Hnn & _)]; [|congruence].
  unfold same_objects. repeat split; try assumption.
  destruct Hc as [Hc|Hc]; [exact Hc|].
  rewrite Hc. apply delete_id, Hfresh.
Qed.

(** X24: A completion queue created and destroyed again, with no queue pair
    created on it in between, leaves the device and every completion
    queue as they were before the creation. *)
Theorem create_cq_then_destroy_restores (op_create_cq : Z -> M Z)
    (op_destroy_cq : Z -> M unit) (num_cqes0 : Z)
    (op0 : ib_completion_queue_operations) (s s1 : state) (cq : Z) :
  driver_cq_op op_create_cq ->
  driver_cq_op op_destroy_cq ->
  alloc_is_fresh_cq s ->
  ib_create_cq op_create_cq num_cqes0 op0 s = Done cq s1 ->
  cq <> NULL ->
  exists s2,
    ib_destroy_cq op_destroy_cq cq s1 = Done tt s2 /\
    same_objects s s2.
Proof.
  intros Hopc Hopd Hfresh Hrun Hnn.
  destruct (ib_create_cq_run op_create_cq num_cqes0 op0 s Hopc)
    as (r & s1' & Hrun1 & Hq & Ha & Hb & Hcase).
  rewrite Hrun in Hrun1. injection Hrun1 as <- <-.
  destruct Hcase as [(Hr & _)|(Hr & _ & Hd & n & Hc)]; [congruence|].
  rewrite <- Hr in Hd, Hc.
  unfold ib_destroy_cq.
  erewrite bind_run by (apply load_cq_run; rewrite Hc; apply lookup_insert_eq).
  proj. cbn [bool_decide decide_rel]. unfold assert.
  rewrite bool_decide_eq_true_2 by reflexivity.
  unfold bind at 1. unfold ret at 1.
  destruct (Hopd cq s1)
    as ([] & s2 & Hrun2 & Hd2 & Hq2 & Ha2 & Hb2 & Hk2 & _).
  rewrite (bind_run _ _ _ _ _ Hrun2).
  cbv [bind load_dev store_dev extern release_cq ret]. proj.
  eexists. split; [reflexivity|].
  unfold same_objects. proj.
  rewrite Hd2, Hd, Hq2, Hq, Ha2, Ha, Hb2, Hb.
  repeat split.
  - apply set_cqs_del_add.
  - apply map_eq. intros k. rewrite lookup_delete.
    destruct (decide (cq = k)) as [<-|Hne];
      [symmetry; rewrite Hr; apply Hfresh|].
    rewrite Hk2 by congruence. rewrite Hc.
    now rewrite lookup_insert_ne.
Qed.

(** *** The device registry *)

Lemma sint_small (z : Z) : - 2 ^ 31 <= z < 2 ^ 31 -> sint z = z.
Proof.
  intros H. unfold sint. rewrite Z.mod_small; lia.
Qed.

Lemma ports_of_cons (d : Z) (p : ib_port) (l : list ib_port) :
  ports_of d (p :: l) =
    if dev p =? d then p :: ports_of d l else ports_of d l.
Proof.
  unfold ports_of. rewrite filter_cons.
  destruct (Z.eqb_spec (dev p) d); destruct (decide (dev p = d));
    first [reflexivity | contradiction].
Qed.

Lemma hca_info_loop_run (d : Z) (l : list ib_port) :
  forall (n g : Z),
    0 <= n ->
    n + Z.of_nat (length l) < 2 ^ 31 ->
    hca_info_loop d l n g =
      (n + Z.of_nat (length (ports_of d l)),
       if n =? 0
       then match ports_of d l with
            | [] => g
            | p :: _ => gid_half_1 p
            end
       else g).
Proof.
  induction l as [|p l IH]; intros n g Hn Hlen; cbn [hca_info_loop].
  - cbn. rewrite Z.add_0_r. now destruct (n =? 0).
  - cbn [length] in Hlen. rewrite ports_of_cons.
    destruct (dev p =? d); cbn [negb].
    + rewrite sint_small by lia. rewrite IH by lia.
      cbn [length]. f_equal; [lia|].
      replace (n + 1 =? 0) with false by (symmetry; apply Z.eqb_neq; lia).
      reflexivity.
    + rewrite IH by lia. reflexivity.
Qed.

(** X25: [ib_get_hca_info] returns the number of registered ports that sit
    on the same physical device as the one asked about, and gives the
    GUID of the first of them in registration order; when there is
    none, it returns zero and leaves the caller's buffer alone. *)
Theorem ib_get_hca_info_counts_ports (ib_devices : list ib_port)
    (ibdev0 : ib_port) (hca_guid : Z) :
  Z.of_nat (length ib_devices) < 2 ^ 31 ->
  ib_get_hca_info ib_devices ibdev0 hca_guid =
    (Z.of_nat (length (ports_of (dev ibdev0) ib_devices)),
     match ports_of (dev ibdev0) ib_devices with
     | [] => hca_guid
     | p :: _ => gid_half_1 p
     end).
Proof.
  intros Hlen. unfold ib_get_hca_info.
  now rewrite hca_info_loop_run by lia.
Qed.

End Infiniband.

(** ** The statements on the concrete device *)

(** Three posts on a send queue of two entries, a completion, and a post
    and its completion on the receive queue. *)
Lemma fill_is_posts_minus_completions_witness :
  exists es s',
    run_wq_calls 105 22 2 2048 answer_ok 0x500
      [PostSend AvNull 1; PostSend AvNull 2; PostSend AvNull 3;
       CompleteSend 1 0; PostRecv 0x800; CompleteRecv AvNull 0x800 0]
      (sample_state qp_empty) = Done es s' /\
    es = [Posted true 0; Posted true 0; Posted true (-105);
          Completed true; Posted false 0; Completed false] /\
    forall k : nat,
      exists sk qk,
        run_wq_calls 105 22 2 2048 answer_ok 0x500
          (take k
             [PostSend AvNull 1; PostSend AvNull 2; PostSend AvNull 3;
              CompleteSend 1 0; PostRecv 0x800; CompleteRecv AvNull 0x800 0])
          (sample_state qp_empty) = Done (take k es) sk /\
        qp_at sk !! 0x500 = Some qk /\
        num_wqes (wq_of true qk) = num_wqes (wq_of true qp_empty) /\
        fill (wq_of true qk) =
          posts_succeeded true (take k es)
          - completions_delivered true (take k es) /\
        0 <= fill (wq_of true qk) <= num_wqes (wq_of true qk).
Proof.
  eexists. eexists. split; [vm_compute; reflexivity|].
  split; [reflexivity|].
  eapply (fill_is_posts_minus_completions 105 22 2 2048 answer_ok true 0x500
            _ (sample_state qp_empty) _ qp_empty).
  - lia.
  - lia.
  - reflexivity.
  - reflexivity.
  - cbn. unfold UINT_MODULUS. lia.
  - vm_compute. reflexivity.
  - intros k.
    do 6 (destruct k as [|k]; [apply Z.leb_le; vm_compute; reflexivity|]).
    destruct k; apply Z.leb_le; vm_compute; reflexivity.
Defined.

(** A queue pair destroyed with two buffers left on its send queue and
    one on its receive queue; the completion queue has a send handler
    and no receive handler. *)
Lemma ib_destroy_qp_cancels_then_frees_witness :
  exists s',
    ib_destroy_qp 125 answer_ok 0x500 (sample_state qp_busy) = Done tt s' /\
    trace s' =
      [OpDestroyQp 0x500; CqCompleteSend 0xc000 0x500 5 (-125);
       CqCompleteSend 0xc000 0x500 6 (-125); FreeIob 7; Free 0x500] /\
    qp_at s' = ∅ /\
    qps (ibdev s') = [] /\
    forall n, exists r, ib_find_qp_qpn n s' = Done r s' /\ r <> 0x500.
Proof.
  destruct (ib_destroy_qp_cancels_then_frees 125 answer_ok
              (sample_state qp_busy) 0x500 qp_busy sample_cq sample_cq)
    as (s' & Hrun & Htrace & Hqp & Hqps & Hfind).
  - unfold NULL. lia.
  - reflexivity.
  - reflexivity.
  - reflexivity.
  - reflexivity.
  - cbn. unfold UINT_MODULUS. lia.
  - cbn. unfold UINT_MODULUS. lia.
  - reflexivity.
  - reflexivity.
  - apply NoDup_singleton.
  - intros p Hp. apply list_elem_of_singleton in Hp. subst p.
    eexists. reflexivity.
  - exists s'. repeat split; assumption.
Defined.

(** Three opens and three closes. *)
Lemma open_close_reach_hardware_once_witness :
  exists sk,
    ib_open_times 12 answer_ok 3 (sample_state qp_empty) = Done true sk /\
    ib_close_times answer_ok 3 sk =
      Done tt
        (after_last_close
           (after_first_open (sample_state qp_empty) 0x1000 0x2000)) /\
    hw_opens
      (trace (after_last_close
                (after_first_open (sample_state qp_empty) 0x1000 0x2000)))
    = 1%nat /\
    hw_closes
      (trace (after_last_close
                (after_first_open (sample_state qp_empty) 0x1000 0x2000)))
    = 1%nat.
Proof.
  eexists. split; [vm_compute; reflexivity|].
  edestruct (open_close_reach_hardware_once 12 answer_ok 3
               (sample_state qp_empty))
    as (smi0 & gsi0 & Hfirst & Hopens & Hcloses & Hlast & Ho & Hc).
  - lia.
  - reflexivity.
  - lia.
  - unfold UINT_MODULUS. lia.
  - vm_compute. reflexivity.
  - assert (smi0 = 0x1000 /\ gsi0 = 0x2000) as [-> ->].
    { vm_compute in Hfirst. injection Hfirst as <- <-. now split. }
    repeat split; assumption.
Defined.

(** A first open in which the driver's open operation fails. *)
Lemma failed_first_open_leaves_closed_witness :
  exists rc s',
    ib_open 12 answer_open_fails (sample_state qp_empty) = Done rc s' /\
    rc <> 0 /\
    open_count (ibdev s') = 0 /\
    trace s' =
      [CreateMi IB_QPT_SMI; CreateSma 0x1000; CreateMi IB_QPT_GSI; OpOpen;
       DestroyMi 0x2000; DestroySma 0x1000; DestroyMi 0x1000].
Proof.
  destruct (failed_first_open_leaves_closed 12 answer_open_fails
              (sample_state qp_empty) StepHw 0x1000 0x2000)
    as (rc & s' & Hrun & Hrc & Hcount & Htrace & _).
  - lia.
  - reflexivity.
  - vm_compute. repeat split; discriminate.
  - exists rc, s'. repeat split; assumption.
Defined.

(** Posts to the two full work queues: a send, a receive with a
    full-size buffer, and a receive with a short buffer. *)
Lemma full_queue_post_rejected_witness :
  ib_post_send 105 2 answer_ok 0x500 AvNull 0x800 (sample_state qp_full)
    = Done (-105) (sample_state qp_full) /\
  ib_post_recv 105 22 2048 answer_ok 0x500 0x800 (sample_state qp_full)
    = Done (-105) (sample_state qp_full) /\
  ib_post_recv 105 22 2048 answer_ok 0x500 0x900 (sample_state qp_full)
    = Done (-22) (sample_state qp_full).
Proof.
  destruct (full_queue_post_rejected 105 22 2 2048 answer_ok
              (sample_state qp_full) 0x500 qp_full)
    as [Hsend Hrecv]; [reflexivity|].
  split; [apply Hsend; reflexivity|].
  split.
  - apply (Hrecv eq_refl 0x800 (Build_iob 0 2048)). reflexivity.
  - apply (Hrecv eq_refl 0x900 (Build_iob 0 100)). reflexivity.
Defined.

(** Two attaches of group 5, then a detach of group 5 and one of group
    6: one membership of group 5 is left. *)
Lemma memberships_follow_attaches_witness :
  exists log s' q',
    run_mcast_calls 12 24 answer_ok 0x500
      [Attach 5; Attach 5; Detach 5; Detach 6] (sample_state qp_empty)
      = Done log s' /\
    map fst log = [Attach 5; Attach 5; Detach 5; Detach 6] /\
    qp_at s' !! 0x500 = Some q' /\
    forall g, entries_for g (mgids q') = memberships_due g 0 log.
Proof.
  apply (memberships_follow_attaches 12 24 answer_ok
           (sample_state qp_empty) 0x500 qp_empty).
  - lia.
  - reflexivity.
  - reflexivity.
Defined.

(** A subnet-management queue pair created on the device: the driver
    numbers it 0x43, its external number is 0, and both find it. *)
Lemma smi_found_by_both_qpns_witness :
  exists s' q,
    ib_create_qp 0 1 120 4 answer_ok qpn_from_0x40 IB_QPT_SMI
      2 0x600 3 0x600 (sample_state qp_empty) = Done 0x8000 s' /\
    qp_at s' !! 0x8000 = Some q /\
    qpn q = 0x43 /\
    ext_qpn q = 0 /\
    ib_find_qp_qpn (ext_qpn q) s' = Done 0x8000 s' /\
    ib_find_qp_qpn (qpn q) s' = Done 0x8000 s'.
Proof.
  assert (exists s',
            ib_create_qp 0 1 120 4 answer_ok qpn_from_0x40 IB_QPT_SMI
              2 0x600 3 0x600 (sample_state qp_empty) = Done 0x8000 s' /\
            (qpn <$> qp_at s' !! 0x8000) = Some 0x43)
    as (s' & Hcreate & Hnum)
    by (eexists; split; vm_compute; reflexivity).
  destruct (smi_found_by_both_qpns 0 1 120 4 answer_ok qpn_from_0x40
              (sample_state qp_empty) s' 2 0x600 3 0x600 0x8000)
    as (q & Hq & Hext & Hfe & Hfi).
  - exact Hcreate.
  - unfold NULL. lia.
  - exists s', q. rewrite Hq in Hnum. injection Hnum as Hnum.
    repeat split; assumption.
Defined.

(** Group 5 attached, detached, and detached again. *)
Lemma attach_detach_detach_witness :
  exists s1 s2 s3 q2,
    ib_mcast_attach 12 24 answer_ok 0x500 5 (sample_state qp_empty)
      = Done 0 s1 /\
    ib_mcast_detach answer_ok 0x500 5 s1 = Done tt s2 /\
    qp_at s2 !! 0x500 = Some q2 /\
    mgids q2 = [] /\
    ib_mcast_detach answer_ok 0x500 5 s2 = Done tt s3 /\
    qp_at s3 = qp_at s2.
Proof.
  assert (exists s1,
            ib_mcast_attach 12 24 answer_ok 0x500 5 (sample_state qp_empty)
            = Done 0 s1)
    as (s1 & Hattach) by (eexists; vm_compute; reflexivity).
  destruct (attach_detach_detach 12 24 answer_ok (sample_state qp_empty)
              s1 0x500 5 qp_empty)
    as (s2 & s3 & q2 & H).
  - reflexivity.
  - reflexivity.
  - exact Hattach.
  - exists s1, s2, s3, q2. split; [exact Hattach | exact H].
Defined.

(** A send with the caller's vector at 0x700. *)
Lemma ib_post_send_keeps_callers_vector_witness :
  exists rc s',
    ib_post_send 105 2 answer_ok 0x500 (AvAt 0x700) 0x800
      (sample_state qp_empty) = Done rc s' /\
    av_target s' (AvAt 0x700) = Some (Build_av 5 1 0 0) /\
    av_target s' (AvOfQp 0x500) = Some (Build_av 9 0 3 0) /\
    trace s' = [OpPostSend 0x500 (Build_av 5 1 2 0x1234) 0x800].
Proof.
  destruct (ib_post_send_keeps_callers_vector 105 2 answer_ok
              (sample_state qp_empty) 0x500 0x800 qp_empty (AvAt 0x700)
              (Build_av 5 1 0 0))
    as (rc & s' & Hrun & Hsame & _ & Hsent).
  - reflexivity.
  - reflexivity.
  - exists rc, s'. split; [exact Hrun|].
    split; [apply Hsame|]. split; [apply Hsame|].
    apply Hsent. cbn. lia.
Defined.

(** The same send: queue key and rate, zero in the caller's vector,
    reach the driver as the queue pair's queue key and the baseline
    rate. *)
Lemma ib_post_send_zero_is_unset_witness :
  exists rc s' v,
    ib_post_send 105 2 answer_ok 0x500 (AvAt 0x700) 0x800
      (sample_state qp_empty) = Done rc s' /\
    trace s' = [OpPostSend 0x500 v 0x800] /\
    av_qkey v = 0x1234 /\ rate v = 2.
Proof.
  destruct (ib_post_send_zero_is_unset 105 2 answer_ok
              (sample_state qp_empty) 0x500 0x800 qp_empty (AvAt 0x700)
              (Build_av 5 1 0 0))
    as (rc & s' & v & Hrun & Htrace & Hk & Hr & _).
  - reflexivity.
  - discriminate.
  - reflexivity.
  - cbn. lia.
  - exists rc, s', v. split; [exact Hrun|]. split; [exact Htrace|].
    split; [apply Hk | apply Hr]; reflexivity.
Defined.

(** ** Where the code departs from the specification's wording *)

(** C5, as the specification words it, fails: [ib_post_recv] on the full
    receive queue with the short buffer at 0x900 returns [-EINVAL], not
    [-ENOBUFS]. *)
Lemma full_recv_queue_short_buffer_is_EINVAL :
  ~ full_queue_post_is_ENOBUFS 105 22 2 2048 answer_ok.
Proof.
  intros H.
  destruct (H (sample_state qp_full) 0x500 qp_full eq_refl) as [_ Hrecv].
  assert (is_Some (iob_at (sample_state qp_full) !! 0x900)) as Hbuf
    by (eexists; reflexivity).
  specialize (Hrecv eq_refl 0x900 Hbuf).
  vm_compute in Hrecv. discriminate Hrecv.
Qed.


(** C7, as the specification words it, fails: the subnet-management
    queue pair the driver numbers 0x43 is found under 0x43 as well. *)
Lemma smi_found_by_internal_qpn :
  ~ smi_found_by_external_qpn_only 0 1 120 4 answer_ok qpn_from_0x40.
Proof.
  intros H.
  assert (exists s',
            ib_create_qp 0 1 120 4 answer_ok qpn_from_0x40 IB_QPT_SMI
              2 0x600 3 0x600 (sample_state qp_empty) = Done 0x8000 s' /\
            (ext_qpn <$> qp_at s' !! 0x8000) = Some 0 /\
            (qpn <$> qp_at s' !! 0x8000) = Some 0x43 /\
            ib_find_qp_qpn 0x43 s' = Done 0x8000 s')
    as (s' & Hcreate & Hext & Hint & Hfind).
  { eexists. split; [vm_compute; reflexivity|].
    split; [vm_compute; reflexivity|].
    split; vm_compute; reflexivity. }
  destruct (qp_at s' !! 0x8000) as [q|] eqn:Hq; [|discriminate Hext].
  injection Hext as Hext. injection Hint as Hint.
  destruct (H (sample_state qp_empty) s' 2 0x600 3 0x600 0x8000 q)
    as [_ Hnot]; try assumption.
  - unfold NULL. lia.
  - rewrite Hext, Hint. lia.
  - apply Hnot. rewrite Hint. exact Hfind.
Qed.

(** C6, as the specification words it, fails: two attaches of group 5
    leave two entries for group 5. *)
Lemma two_attaches_two_memberships :
  ~ one_membership_per_group 12 24 answer_ok.
Proof.
  intros H.
  assert (exists log s',
            run_mcast_calls 12 24 answer_ok 0x500 [Attach 5; Attach 5]
              (sample_state qp_empty) = Done log s' /\
            (entries_for 5 <$> (mgids <$> qp_at s' !! 0x500)) = Some 2%nat)
    as (log & s' & Hrun & Htwo).
  { do 2 eexists. split; vm_compute; reflexivity. }
  destruct (qp_at s' !! 0x500) as [q'|] eqn:Hq'; [|discriminate Htwo].
  injection Htwo as Htwo.
  destruct (H (sample_state qp_empty) s' 0x500 qp_empty q'
              [Attach 5; Attach 5] log eq_refl eq_refl Hrun Hq' 5)
    as [Hle _].
  rewrite Htwo in Hle. lia.
Qed.

(** C3, as the specification words it, fails for [k = 2^32 + 1]: the
    open count is back at zero after [2^32] opens, so that the next
    open is a first open again, and the first close a last one. *)
Lemma open_count_wraps_after_2_32_opens :
  ~ one_hw_open_and_close_for_every_k 12 answer_ok.
Proof.
  intros H.
  pose (s := sample_state qp_empty).
  pose (s1 := after_first_open s 0x1000 0x2000).
  pose (s2 := after_first_open (with_open_count 0 s1) 0x1000 0x2000).
  pose (s3 := after_last_close s2).
  pose (s4 := after_last_close s3).
  assert (and_open 12 answer_ok (ret true) s = Done true s1) as Hfirst
    by (vm_compute; reflexivity).
  assert (open_count (ibdev s1) = 1) as Hone by reflexivity.
  assert (Z.of_N 4294967296 <= UINT_MODULUS) as Hmax
    by (unfold UINT_MODULUS; lia).
  pose proof (opens_after_first 12 answer_ok s s1 4294967296 Hfirst Hone
                ltac:(lia) Hmax) as Hopens.
  change (uint (Z.of_N 4294967296)) with 0 in Hopens.
  assert (ib_open 12 answer_ok (with_open_count 0 s1) = Done 0 s2) as Hagain
    by (vm_compute; reflexivity).
  pose proof (ib_open_times_last 12 answer_ok 4294967296 s _ s2 true 0
                Hopens Hagain) as Hk.
  change (true && (0 =? 0)) with true in Hk.
  assert (ib_close answer_ok s2 = Done tt s3) as Hclose1
    by (vm_compute; reflexivity).
  assert (open_count (ibdev s3) = uint 4294967296) as Hzero by reflexivity.
  pose proof (closes_all answer_ok s3 4294967296 4294967296 Hzero eq_refl
                ltac:(unfold UINT_MODULUS; lia)) as Hrest.
  pose proof (eq_trans
                (ib_close_times_first answer_ok 4294967296 s2 s3 Hclose1)
                Hrest) as Hc.
  destruct (H (N.succ 4294967296) s s2 s4 ltac:(lia) eq_refl Hk Hc)
    as [Ho _].
  vm_compute in Ho. discriminate Ho.
Qed.

(** ** Further properties on the concrete device *)

Lemma two_qp_state_valid (p : Z) :
  p ∈ qps (ibdev two_qp_state) -> is_Some (qp_at two_qp_state !! p).
Proof.
  intros Hp. apply elem_of_cons in Hp as [->|Hp]; [eexists; reflexivity|].
  apply list_elem_of_singleton in Hp as ->. eexists. reflexivity.
Qed.

Lemma alloc_iob_ok_behaves : alloc_iob_behaves alloc_iob_ok.
Proof.
  intros len m. unfold alloc_iob_ok.
  destruct ((0 <=? len) && (len <? 2 ^ 32)) eqn:E; cbn [fst snd];
    [|intros H; now contradiction H].
  intros _. eexists. split; [apply lookup_insert_eq|].
  apply andb_true_iff in E as [E1 E2].
  apply Z.leb_le in E1. apply Z.ltb_lt in E2.
  unfold iob_tailroom, size_t. cbn [iob_end iob_tail].
  rewrite Z.sub_0_r, Z.mod_small; lia.
Qed.


Lemma alloc_iob_ok_succeeds : alloc_iob_succeeds alloc_iob_ok 2048.
Proof.
  intros m. unfold alloc_iob_ok.
  change ((0 <=? 2048) && (2048 <? 2 ^ 32)) with true. cbn [fst].
  unfold NULL. lia.
Qed.

(** Number 0x42 is carried by the second queue pair of the list. *)
Lemma ib_find_qp_qpn_first_match_witness :
  ib_find_qp_qpn 0x42 two_qp_state = Done 0x540 two_qp_state /\
  ((ib_find_qp_qpn 0x42 two_qp_state = Done NULL two_qp_state /\
    forall p q,
      p ∈ qps (ibdev two_qp_state) -> qp_at two_qp_state !! p = Some q ->
      has_qpn 0x42 q = false) \/
   (exists l1 r l2 q,
      qps (ibdev two_qp_state) = l1 ++ r :: l2 /\
      ib_find_qp_qpn 0x42 two_qp_state = Done r two_qp_state /\
      qp_at two_qp_state !! r = Some q /\ has_qpn 0x42 q = true /\
      forall p q', p ∈ l1 -> qp_at two_qp_state !! p = Some q' ->
        has_qpn 0x42 q' = false)).
Proof.
  split; [reflexivity|].
  apply (ib_find_qp_qpn_first_match 0x42 two_qp_state).
  exact two_qp_state_valid.
Defined.

(** Group 6 has a member, the second queue pair of the list. *)
Lemma ib_find_qp_mgid_first_match_witness :
  ib_find_qp_mgid 6 two_qp_state = Done 0x540 two_qp_state /\
  ((ib_find_qp_mgid 6 two_qp_state = Done NULL two_qp_state /\
    forall p q,
      p ∈ qps (ibdev two_qp_state) -> qp_at two_qp_state !! p = Some q ->
      6 ∉ map gid (mgids q)) \/
   (exists l1 r l2 q,
      qps (ibdev two_qp_state) = l1 ++ r :: l2 /\
      ib_find_qp_mgid 6 two_qp_state = Done r two_qp_state /\
      qp_at two_qp_state !! r = Some q /\ 6 ∈ map gid (mgids q) /\
      forall p q', p ∈ l1 -> qp_at two_qp_state !! p = Some q' ->
        6 ∉ map gid (mgids q'))).
Proof.
  split; [reflexivity|].
  apply (ib_find_qp_mgid_first_match 6 two_qp_state).
  exact two_qp_state_valid.
Defined.

Lemma two_qp_state_wq_valid (w : wq_ref) :
  w ∈ [SendOf 0x540; RecvOf 0x540; SendOf 0x500; RecvOf 0x500] ->
  wq_valid two_qp_state w.
Proof.
  intros Hw. repeat (apply elem_of_cons in Hw as [->|Hw];
    [eexists; split; [reflexivity | eexists; reflexivity]|]).
  inversion Hw.
Qed.

(** The receive queue of queue pair 0x41 is the fourth work queue on
    the completion queue. *)
Lemma ib_find_wq_first_match_witness :
  ib_find_wq 0x600 0x41 0 two_qp_state
    = Done (Some (RecvOf 0x500)) two_qp_state /\
  ((ib_find_wq 0x600 0x41 0 two_qp_state = Done None two_qp_state /\
    forall w,
      w ∈ [SendOf 0x540; RecvOf 0x540; SendOf 0x500; RecvOf 0x500] ->
      wq_matches two_qp_state 0x41 0 w = false) \/
   (exists l1 w l2,
      [SendOf 0x540; RecvOf 0x540; SendOf 0x500; RecvOf 0x500]
        = l1 ++ w :: l2 /\
      ib_find_wq 0x600 0x41 0 two_qp_state = Done (Some w) two_qp_state /\
      wq_matches two_qp_state 0x41 0 w = true /\
      forall w', w' ∈ l1 -> wq_matches two_qp_state 0x41 0 w' = false)).
Proof.
  split; [reflexivity|].
  apply (ib_find_wq_first_match two_qp_state 0x600 0x41 0
           (Build_cq 7 8
              [SendOf 0x540; RecvOf 0x540; SendOf 0x500; RecvOf 0x500]
              (Build_cq_op 0xc000 0))).
  - reflexivity.
  - exact two_qp_state_wq_valid.
Defined.


(** The work queues of that queue pair, looked up under the number
    0x43 the driver gave it. *)
Lemma new_work_queues_are_found_witness :
  exists s' q,
    ib_create_qp 0 1 120 4 answer_ok qpn_from_0x40 IB_QPT_GENERIC
      2 0x600 3 0x600 (sample_state qp_empty) = Done 0x8000 s' /\
    qp_at s' !! 0x8000 = Some q /\
    ib_find_wq 0x600 (qpn q) 1 s' = Done (Some (SendOf 0x8000)) s' /\
    ib_find_wq 0x600 (qpn q) 0 s' = Done (Some (RecvOf 0x8000)) s'.
Proof.
  assert (exists s',
            ib_create_qp 0 1 120 4 answer_ok qpn_from_0x40 IB_QPT_GENERIC
              2 0x600 3 0x600 (sample_state qp_empty) = Done 0x8000 s')
    as (s' & Hcreate) by (eexists; vm_compute; reflexivity).
  destruct (new_work_queues_are_found 0 1 120 4 answer_ok qpn_from_0x40
              IB_QPT_GENERIC 2 0x600 3 0x600 0x8000
              (sample_state qp_empty) s' sample_cq sample_cq)
    as (q & Hq & Hs & Hr).
  - reflexivity.
  - reflexivity.
  - exact Hcreate.
  - unfold NULL. lia.
  - exists s', q. repeat split; assumption.
Defined.

(** The driver rejects the creation. *)
Lemma ib_create_qp_failure_undone_witness :
  exists s',
    ib_create_qp 0 1 120 4 answer_driver_rejects qpn_from_0x40
      IB_QPT_GENERIC 2 0x600 3 0x600 (sample_state qp_empty)
      = Done NULL s' /\
    same_objects (sample_state qp_empty) s' /\
    exists size,
      trace s' = trace (sample_state qp_empty) ++ [Zalloc size] \/
      exists p,
        p <> NULL /\
        trace s' =
          trace (sample_state qp_empty)
          ++ [Zalloc size; Random; Random; OpCreateQp p; Free p].
Proof.
  assert (exists s',
            ib_create_qp 0 1 120 4 answer_driver_rejects qpn_from_0x40
              IB_QPT_GENERIC 2 0x600 3 0x600 (sample_state qp_empty)
            = Done NULL s')
    as (s' & Hcreate) by (eexists; vm_compute; reflexivity).
  exists s'. split; [exact Hcreate|].
  apply (ib_create_qp_failure_undone 0 1 120 4 answer_driver_rejects
           qpn_from_0x40 IB_QPT_GENERIC 2 0x600 3 0x600
           (sample_state qp_empty) s' sample_cq sample_cq).
  - reflexivity.
  - reflexivity.
  - intros size. reflexivity.
  - exact Hcreate.
Defined.


(** An attach of group 5 that the driver accepts, and one that it
    rejects. *)
Lemma ib_mcast_attach_all_or_nothing_witness :
  (exists s',
     ib_mcast_attach 12 24 answer_ok 0x500 5 (sample_state qp_empty)
       = Done 0 s' /\
     (mgids <$> qp_at s' !! 0x500) = Some [Build_mgid 0x8000 5] /\
     trace s' = [Zalloc 24; OpMcastAttach 0x500 5]) /\
  (exists s',
     ib_mcast_attach 12 24 answer_driver_rejects 0x500 5
       (sample_state qp_empty) = Done (-5) s' /\
     qp_at s' = qp_at (sample_state qp_empty) /\
     trace s' = [Zalloc 24; OpMcastAttach 0x500 5; Free 0x8000]).
Proof.
  split.
  - destruct (ib_mcast_attach_all_or_nothing 12 24 answer_ok
                (sample_state qp_empty) 0x500 5 qp_empty)
      as (rc & s' & Hrun & _ & _ & _ & _ & _ & _); [lia | reflexivity|].
    exists s'.
    assert (Hrun' := Hrun). vm_compute in Hrun'.
    injection Hrun' as <- <-. split; [exact Hrun|].
    split; reflexivity.
  - destruct (ib_mcast_attach_all_or_nothing 12 24 answer_driver_rejects
                (sample_state qp_empty) 0x500 5 qp_empty)
      as (rc & s' & Hrun & _ & _ & _ & _ & _ & Hfail); [lia | reflexivity|].
    exists s'.
    assert (Hrun' := Hrun). vm_compute in Hrun'.
    injection Hrun' as <- <-. split; [exact Hrun|].
    split; reflexivity.
Defined.

(** The second queue pair leaves group 6, of which it holds two
    memberships: the first of them goes, the membership of group 5
    before it and the second one of group 6 stay. *)
Lemma ib_mcast_detach_removes_first_witness :
  ib_mcast_detach answer_ok 0x540 6 two_qp_state =
    Done tt
      (set_qp_at
         (<[0x540 := set_mgids [Build_mgid 0x3000 5; Build_mgid 0x3020 6]
                       qp_joined]> (qp_at two_qp_state))
         (set_trace [OpMcastDetach 0x540 6; Free 0x3010] two_qp_state)).
Proof.
  apply (ib_mcast_detach_removes_first answer_ok two_qp_state 0x540 6
           qp_joined [Build_mgid 0x3000 5] [Build_mgid 0x3020 6]
           (Build_mgid 0x3010 6)).
  - reflexivity.
  - reflexivity.
  - reflexivity.
  - cbn. intros H. apply list_elem_of_singleton in H. discriminate H.
Defined.

(** The first queue pair, which has joined no group, leaves group 6. *)
Lemma ib_mcast_detach_nonmember_witness :
  ib_mcast_detach answer_ok 0x500 6 two_qp_state =
    Done tt (set_trace [OpMcastDetach 0x500 6] two_qp_state).
Proof.
  apply (ib_mcast_detach_nonmember answer_ok two_qp_state 0x500 6 qp_empty).
  - reflexivity.
  - cbn. apply not_elem_of_nil.
Defined.

(** The first queue pair joins group 7, which had no member. *)
Lemma attached_group_is_found_witness :
  exists s1,
    ib_mcast_attach 12 24 answer_ok 0x500 7 two_qp_state = Done 0 s1 /\
    ib_find_qp_mgid 7 s1 = Done 0x500 s1.
Proof.
  assert (exists s1,
            ib_mcast_attach 12 24 answer_ok 0x500 7 two_qp_state
            = Done 0 s1)
    as (s1 & Hattach) by (eexists; vm_compute; reflexivity).
  destruct (attached_group_is_found 12 24 answer_ok two_qp_state s1 0x500 7)
    as (r & q' & Hfind & _ & _ & _ & Honly).
  - lia.
  - apply elem_of_cons. now left.
  - exact two_qp_state_valid.
  - exact Hattach.
  - exists s1. split; [exact Hattach|].
    rewrite <- Honly; [exact Hfind|].
    intros p q0 Hp Hq0.
    apply elem_of_cons in Hp as [->|Hp].
    + injection Hq0 as <-. cbn. apply not_elem_of_nil.
    + apply list_elem_of_singleton in Hp as ->. injection Hq0 as <-.
      cbn. intros H.
      repeat (apply elem_of_cons in H as [H|H]; [discriminate H|]).
      inversion H.
Defined.

(** The short buffer at 0x900 is refused even for a queue pair that
    does not exist. *)
Lemma ib_post_recv_short_buffer_witness :
  ib_post_recv 105 22 2048 answer_ok 0x999 0x900 (sample_state qp_empty)
    = Done (-22) (sample_state qp_empty).
Proof.
  apply (ib_post_recv_short_buffer 105 22 2048 answer_ok
           (sample_state qp_empty) 0x999 0x900 (Build_iob 0 100)).
  - reflexivity.
  - vm_compute. reflexivity.
Defined.

(** A send that the driver rejects. *)
Lemma rejected_post_changes_nothing_witness :
  exists s',
    ib_post_send 105 2 answer_driver_rejects 0x500 AvNull 0x800
      (sample_state qp_empty) = Done (-5) s' /\
    same_objects (sample_state qp_empty) s' /\
    (trace s' = trace (sample_state qp_empty) \/
     exists c, trace s' = trace (sample_state qp_empty) ++ [c]).
Proof.
  assert (exists s',
            ib_post_send 105 2 answer_driver_rejects 0x500 AvNull 0x800
              (sample_state qp_empty) = Done (-5) s')
    as (s' & Hpost) by (eexists; vm_compute; reflexivity).
  exists s'. split; [exact Hpost|].
  apply (rejected_post_changes_nothing 105 22 2 2048 answer_driver_rejects
           (sample_state qp_empty) s' 0x500 0x800 AvNull (-5)).
  - left. exact Hpost.
  - lia.
Defined.

(** A send completion on the empty send queue. *)
Lemma unmatched_send_completion_blocks_queue_witness :
  exists s1 q1,
    ib_complete_send answer_ok 0x500 1 0 (sample_state qp_empty)
      = Done tt s1 /\
    qp_at s1 !! 0x500 = Some q1 /\
    fill (send q1) = 4294967295 /\
    forall v iobuf', ib_post_send 105 2 answer_ok 0x500 v iobuf' s1
                     = Done (-105) s1.
Proof.
  apply (unmatched_send_completion_blocks_queue 105 2 answer_ok
           (sample_state qp_empty) 0x500 1 0 qp_empty sample_cq).
  - reflexivity.
  - reflexivity.
  - reflexivity.
  - vm_compute. reflexivity.
Defined.

(** A receive completion on the empty receive queue. *)
Lemma unmatched_recv_completion_blocks_queue_witness :
  exists s1 q1,
    ib_complete_recv answer_ok 0x500 AvNull 1 0 (sample_state qp_empty)
      = Done tt s1 /\
    qp_at s1 !! 0x500 = Some q1 /\
    fill (recv q1) = 4294967295 /\
    forall iobuf' b,
      iob_at s1 !! iobuf' = Some b ->
      2048 <= iob_tailroom b ->
      ib_post_recv 105 22 2048 answer_ok 0x500 iobuf' s1 = Done (-105) s1.
Proof.
  apply (unmatched_recv_completion_blocks_queue 105 22 2048 answer_ok
           (sample_state qp_empty) 0x500 1 0 AvNull qp_empty sample_cq).
  - reflexivity.
  - reflexivity.
  - reflexivity.
  - vm_compute. reflexivity.
Defined.

(** One more open, and its close, on the device opened once. *)
Lemma nested_open_close_is_identity_witness :
  (rc <- ib_open 12 answer_ok ;; ib_close answer_ok ;; ret rc)%ib
    two_qp_state = Done 0 two_qp_state.
Proof.
  apply (nested_open_close_is_identity 12 answer_ok two_qp_state).
  vm_compute. split; reflexivity.
Defined.

(** The closed device opened and closed. *)
Lemma first_open_last_close_pair_up_witness :
  exists s1 s2,
    ib_open 12 answer_ok (sample_state qp_empty) = Done 0 s1 /\
    ib_close answer_ok s1 = Done tt s2 /\
    open_count (ibdev s2) = 0 /\
    trace s2 =
      [CreateMi IB_QPT_SMI; CreateSma 0x1000; CreateMi IB_QPT_GSI; OpOpen;
       DestroyMi 0x2000; DestroySma 0x1000; DestroyMi 0x1000; OpClose].
Proof.
  assert (exists s1,
            ib_open 12 answer_ok (sample_state qp_empty) = Done 0 s1)
    as (s1 & Hopen) by (eexists; vm_compute; reflexivity).
  destruct (first_open_last_close_pair_up 12 answer_ok
              (sample_state qp_empty) s1)
    as (smi0 & gsi0 & s2 & Hclose & Hcount & Htrace & _).
  - lia.
  - reflexivity.
  - exact Hopen.
  - exists s1, s2. split; [exact Hopen|]. split; [exact Hclose|].
    split; [exact Hcount|].
    assert (Hopen' := Hopen). vm_compute in Hopen'.
    injection Hopen' as <-.
    assert (Hclose' := Hclose). vm_compute in Hclose'.
    injection Hclose' as <-. reflexivity.
Defined.

(** The closed device closed once more, and then opened. *)
Lemma unbalanced_close_then_open_witness :
  exists s1,
    ib_close answer_ok (sample_state qp_empty) = Done tt s1 /\
    trace s1 = [] /\
    open_count (ibdev s1) = 4294967295 /\
    exists s2,
      ib_open 12 answer_ok s1 = Done 0 s2 /\
      trace s2 = [] /\
      open_count (ibdev s2) = 0.
Proof.
  apply (unbalanced_close_then_open 12 answer_ok (sample_state qp_empty)).
  reflexivity.
Defined.

(** The empty receive queue of two entries refilled. *)
Lemma ib_refill_recv_fills_queue_witness :
  exists s' ps,
    ib_refill_recv 105 22 2048 answer_ok alloc_iob_ok 5 0x500
      (sample_state qp_empty) = Done tt s' /\
    qp_at s' =
      <[0x500 := set_recv (set_fill 2 (recv qp_empty)) qp_empty]>
        (qp_at (sample_state qp_empty)) /\
    trace s' = map (OpPostRecv 0x500) ps /\
    Z.of_nat (length ps) = 2.
Proof.
  apply (ib_refill_recv_fills_queue 105 22 2048 answer_ok alloc_iob_ok
           0x500 5 (sample_state qp_empty) qp_empty).
  - exact alloc_iob_ok_behaves.
  - exact alloc_iob_ok_succeeds.
  - intros t p. reflexivity.
  - reflexivity.
  - vm_compute. split; discriminate.
  - vm_compute. reflexivity.
  - vm_compute. lia.
Defined.


(** A poll of the completion queue: the driver finds no completion,
    and the receive queue, which holds one buffer of two, is filled
    up. *)
Lemma ib_poll_cq_refills_witness :
  exists s',
    ib_poll_cq 105 22 2048 answer_ok op_poll_cq_idle alloc_iob_ok 5 0x600
      (sample_state qp_busy) = Done tt s' /\
    qp_at s' !! 0x500 = Some (recv_filled qp_busy).
Proof.
  destruct (ib_poll_cq_refills 105 22 2048 answer_ok op_poll_cq_idle
              alloc_iob_ok 5 0x600 (sample_state qp_busy)
              (sample_state qp_busy) sample_cq)
    as (s' & Hrun & _ & _ & _ & Hfull & _).
  - exact alloc_iob_ok_behaves.
  - exact alloc_iob_ok_succeeds.
  - intros qp t p. reflexivity.
  - reflexivity.
  - reflexivity.
  - intros w Hw. apply elem_of_cons in Hw as [->|Hw].
    + exists qp_busy. split; [reflexivity|]. cbn. lia.
    + apply list_elem_of_singleton in Hw as ->.
      exists qp_busy. split; [reflexivity|]. cbn.
      unfold UINT_MODULUS. repeat split; lia.
  - exists s'. split; [exact Hrun|].
    destruct (Hfull 0x500) as (q & Hq & Hq').
    + apply elem_of_cons. right. apply elem_of_cons. now left.
    + injection Hq as <-. exact Hq'.
Defined.

Lemma op_create_cq_ok_keeps_to_its_own : driver_cq_op op_create_cq_ok.
Proof.
  intros cq s. unfold op_create_cq_ok.
  do 2 eexists. split; [reflexivity|]. cbn [ibdev qp_at av_at iob_at cq_at set_cq_at].
  do 4 (split; [reflexivity|]). split.
  - intros k Hk. destruct (cq_at s !! cq); [|reflexivity].
    now rewrite lookup_insert_ne by congruence.
  - exists 9. destruct (cq_at s !! cq) as [c|] eqn:E.
    + now rewrite lookup_insert_eq.
    + now rewrite E.
Qed.

Lemma op_create_cq_fails_keeps_to_its_own : driver_cq_op op_create_cq_fails.
Proof.
  intros cq s. exists (-5), s. repeat split.
  destruct (cq_at s !! cq) as [c|]; [|now exists 0].
  exists (cqn c). now destruct c.
Qed.

Lemma op_destroy_cq_ok_keeps_to_its_own : driver_cq_op op_destroy_cq_ok.
Proof.
  intros cq s. exists tt, s. repeat split.
  destruct (cq_at s !! cq) as [c|]; [|now exists 0].
  exists (cqn c). now destruct c.
Qed.

(** A completion queue of sixteen entries created on the device. *)
Lemma ib_create_cq_new_queue_witness :
  exists s' c,
    ib_create_cq answer_ok 40 op_create_cq_ok 16 (Build_cq_op 0xc000 0xc100)
      (sample_state qp_empty) = Done 0x8000 s' /\
    cqs (ibdev s') = [0x8000; 0x600] /\
    cq_at s' !! 0x600 = Some sample_cq /\
    cq_at s' !! 0x8000 = Some c /\
    num_cqes c = 16 /\ op c = Build_cq_op 0xc000 0xc100 /\
    work_queues c = [].
Proof.
  assert (exists s',
            ib_create_cq answer_ok 40 op_create_cq_ok 16
              (Build_cq_op 0xc000 0xc100) (sample_state qp_empty)
            = Done 0x8000 s')
    as (s' & Hcreate) by (eexists; vm_compute; reflexivity).
  destruct (ib_create_cq_new_queue answer_ok 40 op_create_cq_ok 16
              (Build_cq_op 0xc000 0xc100) (sample_state qp_empty) s' 0x8000)
    as (Hcqs & _ & _ & Hother & c & Hc & Hn & Hop & Hwq).
  - exact op_create_cq_ok_keeps_to_its_own.
  - exact Hcreate.
  - unfold NULL. lia.
  - exists s', c. split; [exact Hcreate|]. split; [exact Hcqs|].
    split; [rewrite Hother by lia; reflexivity|].
    repeat split; assumption.
Defined.

(** The driver rejects the creation. *)
Lemma ib_create_cq_failure_undone_witness :
  exists s',
    ib_create_cq answer_ok 40 op_create_cq_fails 16
      (Build_cq_op 0xc000 0xc100) (sample_state qp_empty) = Done NULL s' /\
    same_objects (sample_state qp_empty) s'.
Proof.
  assert (exists s',
            ib_create_cq answer_ok 40 op_create_cq_fails 16
              (Build_cq_op 0xc000 0xc100) (sample_state qp_empty)
            = Done NULL s')
    as (s' & Hcreate) by (eexists; vm_compute; reflexivity).
  exists s'. split; [exact Hcreate|].
  apply (ib_create_cq_failure_undone answer_ok 40 op_create_cq_fails 16
           (Build_cq_op 0xc000 0xc100) (sample_state qp_empty) s').
  - exact op_create_cq_fails_keeps_to_its_own.
  - intros size. reflexivity.
  - exact Hcreate.
Defined.

(** The completion queue created and destroyed again. *)
Lemma create_cq_then_destroy_restores_witness :
  exists s1 s2,
    ib_create_cq answer_ok 40 op_create_cq_ok 16 (Build_cq_op 0xc000 0xc100)
      (sample_state qp_empty) = Done 0x8000 s1 /\
    ib_destroy_cq answer_ok op_destroy_cq_ok 0x8000 s1 = Done tt s2 /\
    same_objects (sample_state qp_empty) s2.
Proof.
  assert (exists s',
            ib_create_cq answer_ok 40 op_create_cq_ok 16
              (Build_cq_op 0xc000 0xc100) (sample_state qp_empty)
            = Done 0x8000 s')
    as (s1 & Hcreate) by (eexists; vm_compute; reflexivity).
  destruct (create_cq_then_destroy_restores answer_ok 40 op_create_cq_ok
              op_destroy_cq_ok 16 (Build_cq_op 0xc000 0xc100)
              (sample_state qp_empty) s1 0x8000)
    as (s2 & Hdestroy & Hsame).
  - exact op_create_cq_ok_keeps_to_its_own.
  - exact op_destroy_cq_ok_keeps_to_its_own.
  - intros size. reflexivity.
  - exact Hcreate.
  - unfold NULL. lia.
  - exists s1, s2. repeat split; try assumption; apply Hsame.
Defined.

(** The adapter at 0xd000 has two ports, and the GUID of the one
    registered first; an adapter that is not registered has none. *)
Lemma ib_get_hca_info_counts_ports_witness :
  ib_get_hca_info sample_ports (Build_port 0xd000 0x12) 0 = (2, 0x11) /\
  ib_get_hca_info sample_ports (Build_port 0xd200 0x33) 0x77 = (0, 0x77).
Proof.
  split.
  - rewrite (ib_get_hca_info_counts_ports sample_ports
               (Build_port 0xd000 0x12) 0); [reflexivity|].
    vm_compute. reflexivity.
  - rewrite (ib_get_hca_info_counts_ports sample_ports
               (Build_port 0xd200 0x33) 0x77); [reflexivity|].
    vm_compute. reflexivity.
Defined.
